(** * WebRTC signalling test client: a shallow embedding of [WebRtcTest]

    The repository holds two listings of the React component [WebRtcTest]:
    the earlier one (module [WebRtcTest1] below: state [me], [peer],
    [callId]) and the later one (module [WebRtcTest2]: state [me],
    [peerId], [peerUsername], [themeId], [callId], with the peer-username
    guards).  Both share the helpers [send], [ensurePc], [drainIce],
    [teardownPc] and [safeParse], which are embedded once in section [Ops].

    Modelling choices.
    - A handler is a function of the render scope it was created in (the
      values of the [useState] variables it closes over) and of the mutable
      world: the [useRef] cells, the pending React state, the log, and the
      two collaborators (message bus and peer-connection primitive), which
      are recorded as the list of messages published and the list of calls
      made on the primitive, in call order.
    - A handler completes normally or abruptly (a thrown exception, a
      rejected promise); what it wrote before an abrupt completion stays
      written.
    - The [async] handlers [onSignal] and [startOffer] are embedded twice.
      In the modules of the listings a handler is one transition of the
      world: the run in which every call it awaits settles before anything
      else happens.  In module [Async] it is a task that stops at each
      [await], and the events of the component and the settlements of the
      calls awaited fall in any order between the steps of the tasks in
      progress.  Lemmas [onSignal_uninterrupted] and
      [startOffer_uninterrupted] relate the two.  [createCall] is [async]
      as well; it reads its scope and the response only and touches no
      ref, and is kept as one transition.
    - [String(v)] and template literals convert as JavaScript does: an
      object that holds its own [toString] makes them throw, and a number
      prints as [Number.prototype.toString] prints it.
    - The peer-connection primitive and [JSON.parse] are collaborators:
      their behaviour is a parameter ([Platform]).
    - [logLine] prefixes a wall-clock time to each line; the log kept here
      holds the line without that prefix.
    - Left out: the [onopen] and [onmessage] callbacks of the data channel
      (they only log and ping), and the copy of the token kept in
      [localStorage]. *)

From Stdlib Require Import String Ascii List ZArith Bool Lia DecimalString.
Import ListNotations.
Open Scope string_scope.
Open Scope list_scope.

(** ** JavaScript values *)

(** A value produced by [JSON.parse].  The numbers kept are those without
    a fraction: [JNum z] is the Number the numeral [z] reads as, which is
    [z] itself up to 2^53 in magnitude and the Number nearest to [z]
    beyond. *)
#[warnings="-register-all"]
Inductive json : Type :=
| JNull
| JBool (b : bool)
| JNum (z : Z)
| JStr (s : string)
| JArr (items : list json)
| JObj (fields : list (string * json)).

(** A JavaScript value as the handlers see it: [None] is [undefined]. *)
Definition jsval : Type := option json.

(** Truthiness, as tested by [if (v)] and [!v]. *)
Definition truthy (v : jsval) : bool :=
  match v with
  | None => false
  | Some JNull => false
  | Some (JBool b) => b
  | Some (JNum z) => negb (Z.eqb z 0)
  | Some (JStr s) => negb (String.eqb s "")
  | Some (JArr _) => true
  | Some (JObj _) => true
  end.

Fixpoint assoc (k : string) (fields : list (string * json)) : jsval :=
  match fields with
  | [] => None
  | (k', v) :: rest => if String.eqb k k' then Some v else assoc k rest
  end.

(** Property read [v.k] on a value that is neither [null] nor [undefined]:
    only objects carry the keys the handlers read. *)
Definition prop (k : string) (v : json) : jsval :=
  match v with
  | JObj fields => assoc k fields
  | _ => None
  end.

(** [v === s] for a string [s]. *)
Definition strict_eq_str (v : jsval) (s : string) : bool :=
  match v with
  | Some (JStr t) => String.eqb t s
  | _ => false
  end.

(** [v ?? w]. *)
Definition nullish (v w : jsval) : jsval :=
  match v with
  | None => w
  | Some JNull => w
  | Some _ => v
  end.

(** [typeof v === "string"]. *)
Definition is_string (v : jsval) : bool :=
  match v with
  | Some (JStr _) => true
  | _ => false
  end.

Fixpoint join (sep : string) (parts : list string) : string :=
  match parts with
  | [] => ""
  | [p] => p
  | p :: rest => p ++ sep ++ join sep rest
  end.

(** The Number nearest to the integer [z]: [z] itself up to 2^53 in
    magnitude, beyond that the multiple of the spacing of the Numbers
    around [z] that is nearest to it, the even one on a tie. *)
Definition nearestNumber (z : Z) : Z :=
  let m := Z.abs z in
  if (m <? 2 ^ 53)%Z then z
  else
    let ulp := (2 ^ (Z.log2 m - 52))%Z in
    let q := (m / ulp)%Z in
    let r := (m mod ulp)%Z in
    let up := (ulp <? 2 * r)%Z || ((2 * r =? ulp)%Z && Z.odd q) in
    (Z.sgn z * ((if up then q + 1 else q) * ulp))%Z.

Definition decimal (z : Z) : string := NilZero.string_of_int (Z.to_int z).

(** The decimal with the fewest significant digits that reads back as the
    positive Number [x], the nearest to [x] when there are two: the
    multiples of [10^j] on either side of [x] are tried from the coarsest
    [j] down. *)
Fixpoint shortest (x : Z) (j : nat) : Z :=
  let unit := (10 ^ Z.of_nat j)%Z in
  let below := (x / unit * unit)%Z in
  let above := (below + unit)%Z in
  let below_reads := (0 <? below)%Z && (nearestNumber below =? x)%Z in
  let above_reads := (nearestNumber above =? x)%Z in
  if below_reads && above_reads
  then (if (x - below <=? above - x)%Z then below else above)
  else if below_reads then below
  else if above_reads then above
  else match j with
       | O => x
       | S j' => shortest x j'
       end.

Fixpoint dropZeros (digits : string) : string :=
  match digits with
  | EmptyString => EmptyString
  | String c rest =>
      match dropZeros rest with
      | EmptyString =>
          if Ascii.eqb c "0"%char then EmptyString else String c EmptyString
      | kept => String c kept
      end
  end.

(** [Number::toString] on a positive Number without fraction: plain
    digits below 10^21, exponent form from there on. *)
Definition positiveToString (x : Z) : string :=
  let v := shortest x (Z.to_nat (Z.log2 x)) in
  if (v <? 10 ^ 21)%Z then decimal v
  else
    match dropZeros (decimal v) with
    | EmptyString => decimal v
    | String first EmptyString =>
        String first ("e+" ++ decimal (Z.of_nat (String.length (decimal v)) - 1))
    | String first more =>
        String first ("." ++ more ++ "e+"
                      ++ decimal (Z.of_nat (String.length (decimal v)) - 1))
    end.

(** [String(n)] for the Number the numeral [z] reads as; a numeral past
    the largest Number reads as an infinity. *)
Definition Number_toString (z : Z) : string :=
  let x := nearestNumber z in
  if (x =? 0)%Z then "0"
  else if (2 ^ 1024 <=? Z.abs x)%Z
  then (if (x <? 0)%Z then "-Infinity" else "Infinity")
  else if (x <? 0)%Z then "-" ++ positiveToString (- x)
  else positiveToString x.

(** [String(v)] throws a [TypeError] on a parsed value: an object that
    has a key [toString] of its own (the value under it is no function and
    the inherited [valueOf] answers the object itself), or an array with
    such an element, since [Array.prototype.join] converts each element. *)
Fixpoint String_throws_json (v : json) : bool :=
  match v with
  | JArr items => existsb String_throws_json items
  | JObj fields =>
      match assoc "toString" fields with
      | Some _ => true
      | None => false
      end
  | _ => false
  end.

Definition String_throws (v : jsval) : bool :=
  match v with
  | None => false
  | Some j => String_throws_json j
  end.

(** The text [String(v)] answers on a parsed value, when it does not
    throw. *)
Fixpoint String_of_json (v : json) : string :=
  match v with
  | JNull => "null"
  | JBool true => "true"
  | JBool false => "false"
  | JNum z => Number_toString z
  | JStr s => s
  | JArr items =>
      join "," (map (fun x => match x with
                              | JNull => ""
                              | _ => String_of_json x
                              end) items)
  | JObj _ => "[object Object]"
  end.

(** The text of [String(v)], and of [`${v}`] inside a template literal,
    when the conversion does not throw ([String_throws]). *)
Definition String_of (v : jsval) : string :=
  match v with
  | None => "undefined"
  | Some j => String_of_json j
  end.

(** ** The collaborators *)

(** A call on the peer-connection primitive, as call-order instrumentation
    would record it.  Peer connections and data channels are named by the
    handle they were given at creation. *)
Inductive PcCall : Type :=
| NewRTCPeerConnection (pc : nat)
| CreateDataChannel (pc dc : nat)
| SetRemoteDescription (pc : nat) (sdp : jsval)
| SetLocalDescription (pc : nat) (sdp : jsval)
| CreateOffer (pc : nat)
| CreateAnswer (pc : nat)
| AddIceCandidate (pc : nat) (candidate : jsval)
| ClosePc (pc : nat)
| CloseDc (dc : nat).

(** How a call on the primitive settles: it resolves with a value or
    rejects with an error (kept as the text [String(err)]). *)
Inductive Settled : Type :=
| Resolves (v : json)
| Rejects (err : string).

(** What [decodeToken] keeps of a token and the handlers read. *)
Record TokenMeta : Type := mkTokenMeta {
  sub : option string;
  expired : bool
}.

(** The environment of the component.  [JSON_parse s] is [None] when
    [JSON.parse(s)] throws.  [settle calls c] is how the primitive settles
    the call [c] made after the calls [calls].  [decodeToken] reads the
    clock and decodes base64: it is taken as given. *)
Record Platform : Type := mkPlatform {
  JSON_parse : string -> option json;
  settle : list PcCall -> PcCall -> Settled;
  decodeToken : string -> option TokenMeta
}.

(** ** The world of one mounted component *)

Section World.

(** The [useState] variables of the component (not the log, which is
    only written through a functional update). *)
Variable St : Type.

(** An [RTCPeerConnection] with the callbacks [ensurePc] installs on it:
    they close over the render scope of the handler that created it. *)
Record PeerConn : Type := mkPeerConn {
  pc_handle : nat;
  pc_scope : St;
  pc_isCaller : bool
  }.

(** A STOMP [Client] made by [connect]: its [onConnect] callback closes
    over the render scope in which [connect] ran, and so do the two
    handlers it subscribes. *)
Record StompClient : Type := mkStompClient {
  client_scope : St;
  client_subscribed : bool
  }.

Record World : Type := mkWorld {
  state : St;
  log : list string;
  alerts : list string;
  stompRef : option StompClient;
  pcRef : option PeerConn;
  dcRef : option nat;
  hasRemoteRef : bool;
  pendingIceRef : list jsval;
  nextHandle : nat;
  calls : list PcCall;
  published : list (string * json)
  }.

Definition set_state (f : St -> St) (w : World) : World :=
  mkWorld (f (state w)) (log w) (alerts w) (stompRef w) (pcRef w) (dcRef w)
          (hasRemoteRef w) (pendingIceRef w) (nextHandle w) (calls w)
          (published w).

Definition set_log (l : list string) (w : World) : World :=
  mkWorld (state w) l (alerts w) (stompRef w) (pcRef w) (dcRef w)
          (hasRemoteRef w) (pendingIceRef w) (nextHandle w) (calls w)
          (published w).

Definition set_alerts (l : list string) (w : World) : World :=
  mkWorld (state w) (log w) l (stompRef w) (pcRef w) (dcRef w)
          (hasRemoteRef w) (pendingIceRef w) (nextHandle w) (calls w)
          (published w).

Definition set_stompRef (c : option StompClient) (w : World) : World :=
  mkWorld (state w) (log w) (alerts w) c (pcRef w) (dcRef w)
          (hasRemoteRef w) (pendingIceRef w) (nextHandle w) (calls w)
          (published w).

Definition set_pcRef (p : option PeerConn) (w : World) : World :=
  mkWorld (state w) (log w) (alerts w) (stompRef w) p (dcRef w)
          (hasRemoteRef w) (pendingIceRef w) (nextHandle w) (calls w)
          (published w).

Definition set_dcRef (d : option nat) (w : World) : World :=
  mkWorld (state w) (log w) (alerts w) (stompRef w) (pcRef w) d
          (hasRemoteRef w) (pendingIceRef w) (nextHandle w) (calls w)
          (published w).

Definition set_hasRemoteRef (b : bool) (w : World) : World :=
  mkWorld (state w) (log w) (alerts w) (stompRef w) (pcRef w) (dcRef w)
          b (pendingIceRef w) (nextHandle w) (calls w) (published w).

Definition set_pendingIceRef (q : list jsval) (w : World) : World :=
  mkWorld (state w) (log w) (alerts w) (stompRef w) (pcRef w) (dcRef w)
          (hasRemoteRef w) q (nextHandle w) (calls w) (published w).

Definition set_nextHandle (n : nat) (w : World) : World :=
  mkWorld (state w) (log w) (alerts w) (stompRef w) (pcRef w) (dcRef w)
          (hasRemoteRef w) (pendingIceRef w) n (calls w) (published w).

Definition set_calls (l : list PcCall) (w : World) : World :=
  mkWorld (state w) (log w) (alerts w) (stompRef w) (pcRef w) (dcRef w)
          (hasRemoteRef w) (pendingIceRef w) (nextHandle w) l (published w).

Definition set_published (l : list (string * json)) (w : World) : World :=
  mkWorld (state w) (log w) (alerts w) (stompRef w) (pcRef w) (dcRef w)
          (hasRemoteRef w) (pendingIceRef w) (nextHandle w) (calls w) l.

End World.

Arguments mkPeerConn {St}.
Arguments pc_handle {St}.
Arguments pc_scope {St}.
Arguments pc_isCaller {St}.
Arguments mkStompClient {St}.
Arguments client_scope {St}.
Arguments client_subscribed {St}.
Arguments mkWorld {St}.
Arguments state {St}.
Arguments log {St}.
Arguments alerts {St}.
Arguments stompRef {St}.
Arguments pcRef {St}.
Arguments dcRef {St}.
Arguments hasRemoteRef {St}.
Arguments pendingIceRef {St}.
Arguments nextHandle {St}.
Arguments calls {St}.
Arguments published {St}.
Arguments set_state {St}.
Arguments set_log {St}.
Arguments set_alerts {St}.
Arguments set_stompRef {St}.
Arguments set_pcRef {St}.
Arguments set_dcRef {St}.
Arguments set_hasRemoteRef {St}.
Arguments set_pendingIceRef {St}.
Arguments set_nextHandle {St}.
Arguments set_calls {St}.
Arguments set_published {St}.

(** ** Handlers as computations on the world *)

(** How a piece of handler code completes: normally with a value, or
    abruptly with the error thrown (for an [async] function, the reason its
    promise rejects with). *)
Inductive Completion (A : Type) : Type :=
| Normal (a : A)
| Abrupt (err : string).

Arguments Normal {A}.
Arguments Abrupt {A}.

Definition M (St A : Type) : Type := World St -> Completion A * World St.

Definition ret {St A} (a : A) : M St A := fun w => (Normal a, w).

Definition throw {St A} (err : string) : M St A := fun w => (Abrupt err, w).

Definition bind {St A B} (m : M St A) (k : A -> M St B) : M St B :=
  fun w =>
    match m w with
    | (Normal a, w') => k a w'
    | (Abrupt err, w') => (Abrupt err, w')
    end.

(** [try { m } catch (err) { h err }]. *)
Definition try_catch {St A} (m : M St A) (h : string -> M St A) : M St A :=
  fun w =>
    match m w with
    | (Normal a, w') => (Normal a, w')
    | (Abrupt err, w') => h err w'
    end.

Definition reads {St A} (f : World St -> A) : M St A := fun w => (Normal (f w), w).

(** The error [String(v)] throws. *)
Definition typeError : string :=
  "TypeError: Cannot convert object to primitive value".

(** [String(v)] and [`${v}`] as a handler runs them: the conversion may
    throw. *)
Definition ToString {St} (v : jsval) : M St string :=
  if String_throws v then throw typeError else ret (String_of v).

Definition writes {St} (f : World St -> World St) : M St unit :=
  fun w => (Normal tt, f w).

Declare Scope js_scope.
Delimit Scope js_scope with js.
Notation "x <- m ;; k" := (bind m (fun x => k))
  (at level 61, m at next level, right associativity) : js_scope.
Notation "m ;; k" := (bind m (fun _ => k))
  (at level 61, right associativity) : js_scope.
Open Scope js_scope.

Definition world_of {St A} (r : Completion A * World St) : World St := snd r.
Definition completion_of {St A} (r : Completion A * World St) : Completion A := fst r.

(** ** The helpers both listings share *)

Section Ops.

Context {St : Type}.
Variable P : Platform.

(** [logLine(s)]: appends one line to the log. *)
Definition logLine (s : string) : M St unit :=
  writes (fun w => set_log (log w ++ [s]) w).

(** [send(dest, body)]: [stompRef.current?.publish(...)] to the
    destination [/app] + [dest]; nothing happens without a client.  The
    message is kept as the value handed to [JSON.stringify]. *)
Definition send (dest : string) (body : json) : M St unit :=
  writes (fun w =>
    match stompRef w with
    | Some _ => set_published (published w ++ [(("/app" ++ dest)%string, body)]) w
    | None => w
    end).

(** One awaited call on the primitive: recorded, then settled by the
    platform. *)
Definition invoke (c : PcCall) : M St json :=
  fun w =>
    let w' := set_calls (calls w ++ [c]) w in
    match settle P (calls w) c with
    | Resolves v => (Normal v, w')
    | Rejects err => (Abrupt err, w')
    end.

(** [ensurePc(isCaller)]: the connection in [pcRef], or a new one.  The
    callbacks installed on a new one close over [scope]. *)
Definition ensurePc (scope : St) (isCaller : bool) : M St (PeerConn St) :=
  fun w =>
    match pcRef w with
    | Some pc => (Normal pc, w)
    | None =>
        let h := nextHandle w in
        let pc := mkPeerConn h scope isCaller in
        let w1 := set_pcRef (Some pc)
                    (set_calls (calls w ++ [NewRTCPeerConnection h])
                       (set_nextHandle (S h) w)) in
        if isCaller then
          let d := nextHandle w1 in
          (Normal pc,
           set_dcRef (Some d)
             (set_calls (calls w1 ++ [CreateDataChannel h d])
                (set_nextHandle (S d) w1)))
        else (Normal pc, w1)
    end.

(** The body of the loop of [drainIce]: one candidate, its failure
    logged and swallowed. *)
Definition drainOne (pc : PeerConn St) (candidate : jsval) : M St unit :=
  try_catch
    (invoke (AddIceCandidate (pc_handle pc) candidate) ;; ret tt)
    (fun err => logLine ("drain addIce error " ++ err)).

Fixpoint drainLoop (pc : PeerConn St) (queue : list jsval) : M St unit :=
  match queue with
  | [] => ret tt
  | candidate :: rest => drainOne pc candidate ;; drainLoop pc rest
  end.

(** [drainIce(pc)]: [splice(0)] empties the buffer and yields what it
    held; the loop then walks that list. *)
Definition drainIce (pc : PeerConn St) : M St unit :=
  queue <- reads pendingIceRef ;;
  writes (set_pendingIceRef []) ;;
  drainLoop pc queue.

(** [teardownPc()]: each close is attempted when its ref is set, and a
    failure of it is ignored. *)
Definition teardownPc : M St unit :=
  try_catch
    (dc <- reads dcRef ;;
     match dc with
     | Some d => invoke (CloseDc d) ;; ret tt
     | None => ret tt
     end)
    (fun _ => ret tt) ;;
  try_catch
    (pc <- reads pcRef ;;
     match pc with
     | Some p => invoke (ClosePc (pc_handle p)) ;; ret tt
     | None => ret tt
     end)
    (fun _ => ret tt) ;;
  writes (set_dcRef None) ;;
  writes (set_pcRef None) ;;
  writes (set_hasRemoteRef false) ;;
  writes (set_pendingIceRef []).

(** [safeParse(s)]: [null] for an absent or empty body and for a body
    [JSON.parse] throws on. *)
Definition safeParse (s : option string) : json :=
  match s with
  | None => JNull
  | Some body =>
      if String.eqb body "" then JNull
      else match JSON_parse P body with
           | Some v => v
           | None => JNull
           end
  end.

(** The lines [drainIce] logs for the queue [queue], drained on the
    connection [h] after the calls [history]. *)
Fixpoint drainErrors (h : nat) (history : list PcCall) (queue : list jsval)
  : list string :=
  match queue with
  | [] => []
  | candidate :: rest =>
      match settle P history (AddIceCandidate h candidate) with
      | Resolves _ => []
      | Rejects err => ["drain addIce error " ++ err]%string
      end ++ drainErrors h (history ++ [AddIceCandidate h candidate]) rest
  end.

(** The world [ensurePc] leaves, and the handle of the connection it
    answers with. *)
Definition withPc (scope : St) (isCaller : bool) (w : World St) : World St :=
  world_of (ensurePc scope isCaller w).

Definition handleOf (w : World St) : nat :=
  match pcRef w with
  | Some pc => pc_handle pc
  | None => nextHandle w
  end.

End Ops.

(** A message delivered by the bus: the handlers read its body only. *)
Record IMessage : Type := mkIMessage {
  body : option string
}.

(** [!s] on a string is [true] for the empty string only. *)
Definition nonempty (s : string) : bool := negb (String.eqb s "").

(** ** The later listing *)

Module WebRtcTest2.

Record State : Type := mkState {
  token : string;
  me : string;
  peerId : string;
  peerUsername : string;
  themeId : string;
  callId : string;
  connected : bool
  }.

Definition W : Type := World State.

Definition setMe (s : string) : M State unit :=
  writes (set_state (fun st =>
    mkState (token st) s (peerId st) (peerUsername st) (themeId st)
            (callId st) (connected st))).

Definition setPeerUsername (s : string) : M State unit :=
  writes (set_state (fun st =>
    mkState (token st) (me st) (peerId st) s (themeId st)
            (callId st) (connected st))).

Definition setCallId (s : string) : M State unit :=
  writes (set_state (fun st =>
    mkState (token st) (me st) (peerId st) (peerUsername st) (themeId st)
            s (connected st))).

Definition setConnected (b : bool) : M State unit :=
  writes (set_state (fun st =>
    mkState (token st) (me st) (peerId st) (peerUsername st) (themeId st)
            (callId st) b)).

Section Handlers.

Variable P : Platform.

(** The handlers below are those of one render: [scope] holds the
    values of [token], [me], [peerUsername], [callId], ... in it. *)
Variable scope : State.

Definition callIdBody : json := JObj [("callId", JStr (callId scope))].

Definition accept : M State unit := send "/call.accept" callIdBody.

Definition reject : M State unit :=
  send "/call.reject"
       (JObj [("callId", JStr (callId scope)); ("reason", JStr "busy")]).

Definition end_ : M State unit :=
  send "/call.end" callIdBody ;;
  teardownPc P.

Definition onCallNotif (msg : IMessage) : M State unit :=
  let payload := safeParse P (body msg) in
  if negb (truthy (Some payload)) then ret tt
  else
    (if truthy (prop "callId" payload)
     then text <- ToString (prop "callId" payload) ;; setCallId text
     else ret tt) ;;
    let other :=
      nullish
        (nullish
           (nullish (prop "otherParticipant" payload)
                    (if strict_eq_str (prop "callerId" payload) (me scope)
                     then prop "recipientId" payload
                     else prop "callerId" payload))
           (prop "callerId" payload))
        (prop "recipientId" payload) in
    (if truthy other && is_string other
     then setPeerUsername (String_of other)
     else ret tt) ;;
    kind <- ToString (prop "type" payload) ;;
    id <- ToString (nullish (prop "callId" payload) (Some (JStr ""))) ;;
    logLine ("CALL NOTIF: " ++ kind ++ " " ++ id).

Definition answerBody (answer : json) : json :=
  JObj [("type", JStr "ANSWER");
        ("callId", JStr (callId scope));
        ("fromUserId", JStr (me scope));
        ("toUserId", JStr (peerUsername scope));
        ("sdp", answer)].

Definition onSignal (msg : IMessage) : M State unit :=
  let payload := safeParse P (body msg) in
  if negb (truthy (Some payload))
     || negb (strict_eq_str (prop "callId" payload) (callId scope))
  then ret tt
  else if strict_eq_str (prop "type" payload) "OFFER" then
    pc <- ensurePc scope false ;;
    invoke P (SetRemoteDescription (pc_handle pc) (prop "sdp" payload)) ;;
    writes (set_hasRemoteRef true) ;;
    drainIce P pc ;;
    answer <- invoke P (CreateAnswer (pc_handle pc)) ;;
    invoke P (SetLocalDescription (pc_handle pc) (Some answer)) ;;
    if negb (nonempty (peerUsername scope))
    then logLine "Cannot reply with ANSWER because peer username is unknown."
    else
      send "/webrtc.answer" (answerBody answer) ;;
      logLine "ANSWER sent"
  else if strict_eq_str (prop "type" payload) "ANSWER" then
    pc <- ensurePc scope false ;;
    invoke P (SetRemoteDescription (pc_handle pc) (prop "sdp" payload)) ;;
    writes (set_hasRemoteRef true) ;;
    drainIce P pc ;;
    logLine "ANSWER set"
  else if strict_eq_str (prop "type" payload) "ICE_CANDIDATE" then
    pc <- ensurePc scope false ;;
    hasRemote <- reads hasRemoteRef ;;
    if negb hasRemote
    then writes (fun w =>
           set_pendingIceRef (pendingIceRef w ++ [prop "candidate" payload]) w)
    else
      try_catch
        (invoke P (AddIceCandidate (pc_handle pc) (prop "candidate" payload)) ;;
         ret tt)
        (fun err => logLine ("addIce error " ++ err))
  else ret tt.

Definition offerBody (offer : json) : json :=
  JObj [("type", JStr "OFFER");
        ("callId", JStr (callId scope));
        ("fromUserId", JStr (me scope));
        ("toUserId", JStr (peerUsername scope));
        ("sdp", offer)].

Definition startOffer : M State unit :=
  if negb (nonempty (callId scope))
  then logLine "Set callId before sending an OFFER."
  else if negb (nonempty (peerUsername scope))
  then logLine "Set peer username (phone) before sending an OFFER."
  else
    pc <- ensurePc scope true ;;
    offer <- invoke P (CreateOffer (pc_handle pc)) ;;
    invoke P (SetLocalDescription (pc_handle pc) (Some offer)) ;;
    send "/webrtc.offer" (offerBody offer) ;;
    logLine "OFFER sent".

(** [connect]: the client it makes keeps the handlers of this render. *)
Definition connect : M State unit :=
  if negb (nonempty (token scope))
  then writes (fun w =>
         set_alerts (alerts w ++ ["Paste a JWT access token first (from /auth/login)."]) w)
  else
    let tokenMeta := decodeToken P (token scope) in
    if match tokenMeta with Some m => expired m | None => false end
    then logLine "Token appears expired; refresh it before connecting."
    else
      (if match tokenMeta with
          | Some m => match sub m with Some s => nonempty s | None => false end
          | None => false
          end
       then ret tt
       else logLine "Token payload missing subject/username; backend may reject the WS handshake.") ;;
      writes (set_stompRef (Some (mkStompClient scope false))).

Definition disconnect : M State unit :=
  writes (set_stompRef None) ;;
  setConnected false ;;
  logLine "Disconnected".

End Handlers.

(** The callbacks [ensurePc] installs on a connection: they run in the
    scope the connection was created in. *)
Definition onconnectionstatechange (connectionState : string) : M State unit :=
  logLine ("pc.state = " ++ connectionState).

Definition onicecandidate (pc : PeerConn State) (candidate : option json)
  : M State unit :=
  match candidate with
  | None => ret tt
  | Some c =>
      if negb (nonempty (peerUsername (pc_scope pc)))
      then logLine "Skipping ICE send because peer username is unknown."
      else
        send "/webrtc.ice"
             (JObj [("type", JStr "ICE_CANDIDATE");
                    ("callId", JStr (callId (pc_scope pc)));
                    ("fromUserId", JStr (me (pc_scope pc)));
                    ("toUserId", JStr (peerUsername (pc_scope pc)));
                    ("candidate", c)])
  end.

Definition ondatachannel (pc : PeerConn State) (channel : nat) : M State unit :=
  if pc_isCaller pc then ret tt else writes (set_dcRef (Some channel)).

(** The callbacks of the client made by [connect]: on connection it
    subscribes [onCallNotif] and [onSignal], the ones of the render in
    which [connect] ran. *)
Definition onConnect : M State unit :=
  setConnected true ;;
  logLine "STOMP connected" ;;
  writes (fun w =>
    match stompRef w with
    | Some client => set_stompRef (Some (mkStompClient (client_scope client) true)) w
    | None => w
    end).

Definition onWebSocketClose : M State unit := setConnected false.

(** *** The mounted component as a transition system

    What can happen to the component: a click on an enabled button, text
    typed in a field, a callback of the bus client, a message on one of
    the two subscribed queues, a callback of the peer connection.  A
    click runs the handler of the latest render, whose scope is the
    current state; a bus message runs the handler the client subscribed,
    whose scope is the one [connect] ran in. *)
Inductive Event : Type :=
  | ClickConnect
  | ClickDisconnect
  | ClickAccept
  | ClickReject
  | ClickStartOffer
  | ClickEnd
  | TypeToken (s : string)
  | TypeMe (s : string)
  | TypePeerUsername (s : string)
  | TypeCallId (s : string)
  | StompConnected
  | WebSocketClosed
  | Notification (msg : IMessage)
  | Signal (msg : IMessage)
  | IceCandidateFound (candidate : option json)
  | DataChannelOffered (channel : nat)
  | ConnectionStateChanged (connectionState : string).

Definition setToken (s : string) : M State unit :=
  writes (set_state (fun st =>
    mkState s (me st) (peerId st) (peerUsername st) (themeId st)
            (callId st) (connected st))).

(** The four call buttons carry [disabled={!connected || !callId}]. *)
Definition callButtonsEnabled (st : State) : bool :=
  connected st && nonempty (callId st).

Definition subscribed (w : W) : option State :=
  match stompRef w with
  | Some client => if client_subscribed client then Some (client_scope client) else None
  | None => None
  end.

Definition dispatch (P : Platform) (ev : Event) : M State unit :=
  fun w =>
    let now := state w in
    match ev with
    | ClickConnect => if connected now then ret tt w else connect P now w
    | ClickDisconnect => if connected now then disconnect w else ret tt w
    | ClickAccept => if callButtonsEnabled now then accept now w else ret tt w
    | ClickReject => if callButtonsEnabled now then reject now w else ret tt w
    | ClickStartOffer => if callButtonsEnabled now then startOffer P now w else ret tt w
    | ClickEnd => if callButtonsEnabled now then end_ P now w else ret tt w
    | TypeToken s => setToken s w
    | TypeMe s => setMe s w
    | TypePeerUsername s => setPeerUsername s w
    | TypeCallId s => setCallId s w
    | StompConnected => match stompRef w with Some _ => onConnect w | None => ret tt w end
    | WebSocketClosed => match stompRef w with Some _ => onWebSocketClose w | None => ret tt w end
    | Notification msg =>
        match subscribed w with
        | Some scope => onCallNotif P scope msg w
        | None => ret tt w
        end
    | Signal msg =>
        match subscribed w with
        | Some scope => onSignal P scope msg w
        | None => ret tt w
        end
    | IceCandidateFound candidate =>
        match pcRef w with
        | Some pc => onicecandidate pc candidate w
        | None => ret tt w
        end
    | DataChannelOffered channel =>
        match pcRef w with
        | Some pc => ondatachannel pc channel w
        | None => ret tt w
        end
    | ConnectionStateChanged s =>
        match pcRef w with
        | Some _ => onconnectionstatechange s w
        | None => ret tt w
        end
    end.

(** The effect that fills [me] from the token once a render is committed:
    [if (!me && tokenMeta?.sub) setMe(String(tokenMeta.sub))]. *)
Definition afterRender (P : Platform) : M State unit :=
  fun w =>
    match decodeToken P (token (state w)) with
    | Some meta =>
        match sub meta with
        | Some s =>
            if negb (nonempty (me (state w))) && nonempty s
            then setMe s w
            else ret tt w
        | None => ret tt w
        end
    | None => ret tt w
    end.

(** Events are handled one after the other, each followed by the effects
    of the render it causes; an abrupt completion of one handler does not
    stop the next event from being handled.  Here every handler has come
    to its end before the next event is handled: for the [async] handlers
    [onSignal] and [startOffer] these are the runs in which each call they
    await settles before anything else happens.  The runs in which events
    fall between the [await]s of a handler are those of [Async.exec]
    below. *)
Fixpoint run (P : Platform) (evs : list Event) (w : W) : W :=
  match evs with
  | [] => w
  | ev :: rest =>
      run P rest (world_of (afterRender P (world_of (dispatch P ev w))))
  end.

(** The first render of the component, before its effects have run: the
    initial values of [useState] and [useRef]. *)
Definition mount (storedToken : string) : W :=
  mkWorld (mkState storedToken "" "" "" "1" "" false)
          [] [] None None None false [] 0 [] [].

(** The component once mounted: the effects of the first render have run,
    so [me] holds the subject of a stored token. *)
Definition mounted (P : Platform) (storedToken : string) : W :=
  world_of (afterRender P (mount storedToken)).

End WebRtcTest2.

(** ** The [async] handlers of the later listing, await by await

    [onSignal] and [startOffer] are [async]: each runs until its next
    [await], and what is delivered or clicked meanwhile is handled before
    it goes on.  A handler suspended at an [await] is kept as a [Task]: the
    place it waits at, with the values of its local variables.  The call
    awaited has been made already; the task goes on when it settles. *)

Module Async.

(** The branch of [onSignal] that called [drainIce]. *)
Inductive Branch : Type :=
| OfferBranch
| AnswerBranch.

Inductive Task : Type :=
| OnSignal_setRemoteDescription (b : Branch) (scope : WebRtcTest2.State)
    (pc : PeerConn WebRtcTest2.State) (sdp : jsval)
| DrainIce_addIceCandidate (b : Branch) (scope : WebRtcTest2.State)
    (pc : PeerConn WebRtcTest2.State) (candidate : jsval) (rest : list jsval)
| OnSignal_drainIce (b : Branch) (scope : WebRtcTest2.State)
    (pc : PeerConn WebRtcTest2.State)
| OnSignal_createAnswer (scope : WebRtcTest2.State)
    (pc : PeerConn WebRtcTest2.State)
| OnSignal_setLocalDescription (scope : WebRtcTest2.State)
    (pc : PeerConn WebRtcTest2.State) (answer : json)
| OnSignal_addIceCandidate (pc : PeerConn WebRtcTest2.State) (candidate : jsval)
| StartOffer_createOffer (scope : WebRtcTest2.State)
    (pc : PeerConn WebRtcTest2.State)
| StartOffer_setLocalDescription (scope : WebRtcTest2.State)
    (pc : PeerConn WebRtcTest2.State) (offer : json).

(** The call on the primitive a task awaits; [None] for [onSignal] at
    [await drainIce(pc)] once [drainIce] has returned. *)
Definition awaited (t : Task) : option PcCall :=
  match t with
  | OnSignal_setRemoteDescription _ _ pc sdp =>
      Some (SetRemoteDescription (pc_handle pc) sdp)
  | DrainIce_addIceCandidate _ _ pc candidate _ =>
      Some (AddIceCandidate (pc_handle pc) candidate)
  | OnSignal_drainIce _ _ _ => None
  | OnSignal_createAnswer _ pc => Some (CreateAnswer (pc_handle pc))
  | OnSignal_setLocalDescription _ pc answer =>
      Some (SetLocalDescription (pc_handle pc) (Some answer))
  | OnSignal_addIceCandidate pc candidate =>
      Some (AddIceCandidate (pc_handle pc) candidate)
  | StartOffer_createOffer _ pc => Some (CreateOffer (pc_handle pc))
  | StartOffer_setLocalDescription _ pc offer =>
      Some (SetLocalDescription (pc_handle pc) (Some offer))
  end.

(** A handler after a stretch of synchronous code: suspended at its next
    [await], or completed. *)
Inductive Progress : Type :=
| Suspended (t : Task)
| Completed (c : Completion unit).

(** The call is made, and recorded, before the handler suspends on it. *)
Definition called (c : PcCall) (w : WebRtcTest2.W) : WebRtcTest2.W :=
  set_calls (calls w ++ [c]) w.

Definition suspend (t : Task) (w : WebRtcTest2.W) : Progress * WebRtcTest2.W :=
  (Suspended t,
   match awaited t with
   | Some c => called c w
   | None => w
   end).

Definition complete (r : Completion unit * WebRtcTest2.W)
  : Progress * WebRtcTest2.W :=
  (Completed (fst r), snd r).

Section Handlers.

Variable P : Platform.

(** [onSignal] from its first line to its first [await]. *)
Definition onSignal (scope : WebRtcTest2.State) (msg : IMessage)
  (w : WebRtcTest2.W) : Progress * WebRtcTest2.W :=
  let payload := safeParse P (body msg) in
  if negb (truthy (Some payload))
     || negb (strict_eq_str (prop "callId" payload) (WebRtcTest2.callId scope))
  then complete (ret tt w)
  else if strict_eq_str (prop "type" payload) "OFFER" then
    match ensurePc scope false w with
    | (Normal pc, w1) =>
        suspend (OnSignal_setRemoteDescription OfferBranch scope pc
                   (prop "sdp" payload)) w1
    | (Abrupt err, w1) => complete (Abrupt err, w1)
    end
  else if strict_eq_str (prop "type" payload) "ANSWER" then
    match ensurePc scope false w with
    | (Normal pc, w1) =>
        suspend (OnSignal_setRemoteDescription AnswerBranch scope pc
                   (prop "sdp" payload)) w1
    | (Abrupt err, w1) => complete (Abrupt err, w1)
    end
  else if strict_eq_str (prop "type" payload) "ICE_CANDIDATE" then
    match ensurePc scope false w with
    | (Normal pc, w1) =>
        if negb (hasRemoteRef w1)
        then complete
               (writes (fun w =>
                  set_pendingIceRef (pendingIceRef w ++ [prop "candidate" payload]) w)
                  w1)
        else suspend (OnSignal_addIceCandidate pc (prop "candidate" payload)) w1
    | (Abrupt err, w1) => complete (Abrupt err, w1)
    end
  else complete (ret tt w).

(** [startOffer] from its first line to its first [await]. *)
Definition startOffer (scope : WebRtcTest2.State) (w : WebRtcTest2.W)
  : Progress * WebRtcTest2.W :=
  if negb (nonempty (WebRtcTest2.callId scope))
  then complete (logLine "Set callId before sending an OFFER." w)
  else if negb (nonempty (WebRtcTest2.peerUsername scope))
  then complete (logLine "Set peer username (phone) before sending an OFFER." w)
  else
    match ensurePc scope true w with
    | (Normal pc, w1) => suspend (StartOffer_createOffer scope pc) w1
    | (Abrupt err, w1) => complete (Abrupt err, w1)
    end.

(** The loop of [drainIce] with [queue] left to walk: the next candidate
    is applied and awaited, or [drainIce] returns and [onSignal] waits for
    the promise it returned. *)
Definition drainNext (b : Branch) (scope : WebRtcTest2.State)
  (pc : PeerConn WebRtcTest2.State) (queue : list jsval) (w : WebRtcTest2.W)
  : Progress * WebRtcTest2.W :=
  match queue with
  | candidate :: rest => suspend (DrainIce_addIceCandidate b scope pc candidate rest) w
  | [] => suspend (OnSignal_drainIce b scope pc) w
  end.

(** The task [t] goes on after the call it awaits has settled with [r],
    up to its next [await]. *)
Definition settled (t : Task) (r : Settled) (w : WebRtcTest2.W)
  : Progress * WebRtcTest2.W :=
  match t with
  | OnSignal_setRemoteDescription b scope pc _ =>
      match r with
      | Rejects err => complete (Abrupt err, w)
      | Resolves _ =>
          let w1 := set_hasRemoteRef true w in
          drainNext b scope pc (pendingIceRef w1) (set_pendingIceRef [] w1)
      end
  | DrainIce_addIceCandidate b scope pc _ rest =>
      match r with
      | Resolves _ => drainNext b scope pc rest w
      | Rejects err =>
          drainNext b scope pc rest
            (world_of (logLine ("drain addIce error " ++ err) w))
      end
  | OnSignal_drainIce _ _ _ => (Suspended t, w)
  | OnSignal_createAnswer scope pc =>
      match r with
      | Rejects err => complete (Abrupt err, w)
      | Resolves answer => suspend (OnSignal_setLocalDescription scope pc answer) w
      end
  | OnSignal_setLocalDescription scope _ answer =>
      match r with
      | Rejects err => complete (Abrupt err, w)
      | Resolves _ =>
          complete
            ((if negb (nonempty (WebRtcTest2.peerUsername scope))
              then logLine "Cannot reply with ANSWER because peer username is unknown."
              else
                send "/webrtc.answer" (WebRtcTest2.answerBody scope answer) ;;
                logLine "ANSWER sent") w)
      end
  | OnSignal_addIceCandidate _ _ =>
      match r with
      | Resolves _ => complete (ret tt w)
      | Rejects err => complete (logLine ("addIce error " ++ err) w)
      end
  | StartOffer_createOffer scope pc =>
      match r with
      | Rejects err => complete (Abrupt err, w)
      | Resolves offer => suspend (StartOffer_setLocalDescription scope pc offer) w
      end
  | StartOffer_setLocalDescription scope _ offer =>
      match r with
      | Rejects err => complete (Abrupt err, w)
      | Resolves _ =>
          complete
            ((send "/webrtc.offer" (WebRtcTest2.offerBody scope offer) ;;
              logLine "OFFER sent") w)
      end
  end.

(** [onSignal] goes on after [await drainIce(pc)]. *)
Definition continued (t : Task) (w : WebRtcTest2.W) : Progress * WebRtcTest2.W :=
  match t with
  | OnSignal_drainIce OfferBranch scope pc => suspend (OnSignal_createAnswer scope pc) w
  | OnSignal_drainIce AnswerBranch _ _ => complete (logLine "ANSWER set" w)
  | _ => (Suspended t, w)
  end.

(** The task goes on at once: the call it awaits settles as the platform
    settles it after the calls made before it, and nothing happens in
    between. *)
Definition proceed (r : Progress * WebRtcTest2.W) : Progress * WebRtcTest2.W :=
  match r with
  | (Completed _, _) => r
  | (Suspended t, w) =>
      match awaited t with
      | Some c => settled t (settle P (removelast (calls w)) c) w
      | None => continued t w
      end
  end.

Fixpoint uninterrupted (n : nat) (r : Progress * WebRtcTest2.W)
  : Progress * WebRtcTest2.W :=
  match n with
  | O => r
  | S k => uninterrupted k (proceed r)
  end.

(** The component with its handlers in progress.  A handler keeps its
    place in [tasks] once it has completed ([None]). *)
Record System : Type := mkSystem {
  world : WebRtcTest2.W;
  tasks : list (option Task)
}.

(** What happens next: an event of the component, the call awaited by the
    task at [i] settles, or the task at [i] goes on after [drainIce]. *)
Inductive Action : Type :=
| Happens (ev : WebRtcTest2.Event)
| Settles (i : nat) (r : Settled)
| Continues (i : nat).

Fixpoint put (i : nat) (t : option Task) (ts : list (option Task))
  : list (option Task) :=
  match ts, i with
  | [], _ => []
  | _ :: rest, O => t :: rest
  | t' :: rest, S j => t' :: put j t rest
  end.

Definition started (s : System) (r : Progress * WebRtcTest2.W) : System :=
  match r with
  | (Suspended t, w) => mkSystem w (tasks s ++ [Some t])
  | (Completed _, w) => mkSystem w (tasks s)
  end.

Definition resumed (s : System) (i : nat) (r : Progress * WebRtcTest2.W) : System :=
  match r with
  | (Suspended t, w) => mkSystem w (put i (Some t) (tasks s))
  | (Completed _, w) => mkSystem w (put i None (tasks s))
  end.

(** One action.  An event runs its handler up to the first [await], and
    the effects of the render it causes follow; [onSignal] and
    [startOffer] are the [async] handlers, every other handler is
    synchronous.  An action on a task that is not there, or that does not
    wait for it, does nothing. *)
Definition step (a : Action) (s : System) : System :=
  match a with
  | Happens ev =>
      let s' :=
        match ev with
        | WebRtcTest2.Signal msg =>
            match WebRtcTest2.subscribed (world s) with
            | Some scope => started s (onSignal scope msg (world s))
            | None => s
            end
        | WebRtcTest2.ClickStartOffer =>
            if WebRtcTest2.callButtonsEnabled (state (world s))
            then started s (startOffer (state (world s)) (world s))
            else s
        | _ => mkSystem (world_of (WebRtcTest2.dispatch P ev (world s))) (tasks s)
        end in
      mkSystem (world_of (WebRtcTest2.afterRender P (world s'))) (tasks s')
  | Settles i r =>
      match nth_error (tasks s) i with
      | Some (Some t) =>
          match awaited t with
          | Some _ => resumed s i (settled t r (world s))
          | None => s
          end
      | _ => s
      end
  | Continues i =>
      match nth_error (tasks s) i with
      | Some (Some t) =>
          match awaited t with
          | Some _ => s
          | None => resumed s i (continued t (world s))
          end
      | _ => s
      end
  end.

Definition exec (acts : list Action) (s : System) : System :=
  fold_left (fun s a => step a s) acts s.

(** The calls the action [a] makes on the primitive in [s]. *)
Definition made (a : Action) (s : System) : list PcCall :=
  skipn (length (calls (world s))) (calls (world (step a s))).


End Handlers.




(** The component with no handler in progress. *)
Definition idle (w : WebRtcTest2.W) : System := mkSystem w [].


End Async.

(** ** The earlier listing *)

Module WebRtcTest1.

Record State : Type := mkState {
  token : string;
  me : string;
  peer : string;
  callId : string;
  connected : bool
  }.

Definition W : Type := World State.

Definition setConnected (b : bool) : M State unit :=
  writes (set_state (fun st =>
    mkState (token st) (me st) (peer st) (callId st) b)).

Section Handlers.

Variable P : Platform.
Variable scope : State.

Definition callIdBody : json := JObj [("callId", JStr (callId scope))].

Definition accept : M State unit := send "/call.accept" callIdBody.

Definition reject : M State unit :=
  send "/call.reject"
       (JObj [("callId", JStr (callId scope)); ("reason", JStr "busy")]).

Definition end_ : M State unit :=
  send "/call.end" callIdBody ;;
  teardownPc P.

(** [m.type] on [null] throws a [TypeError]. *)
Definition onCallNotif (msg : IMessage) : M State unit :=
  match safeParse P (body msg) with
  | JNull => throw "TypeError: Cannot read properties of null (reading 'type')"
  | m =>
      kind <- ToString (prop "type" m) ;;
      id <- ToString (nullish (prop "callId" m) (Some (JStr ""))) ;;
      logLine ("CALL NOTIF: " ++ kind ++ " " ++ id)
  end.

Definition answerBody (answer : json) : json :=
  JObj [("type", JStr "ANSWER");
        ("callId", JStr (callId scope));
        ("fromUserId", JStr (me scope));
        ("toUserId", JStr (peer scope));
        ("sdp", answer)].

Definition onSignal (msg : IMessage) : M State unit :=
  let payload := safeParse P (body msg) in
  if negb (truthy (Some payload))
     || negb (strict_eq_str (prop "callId" payload) (callId scope))
  then ret tt
  else if strict_eq_str (prop "type" payload) "OFFER" then
    pc <- ensurePc scope false ;;
    invoke P (SetRemoteDescription (pc_handle pc) (prop "sdp" payload)) ;;
    writes (set_hasRemoteRef true) ;;
    drainIce P pc ;;
    answer <- invoke P (CreateAnswer (pc_handle pc)) ;;
    invoke P (SetLocalDescription (pc_handle pc) (Some answer)) ;;
    send "/webrtc.answer" (answerBody answer) ;;
    logLine "ANSWER sent"
  else if strict_eq_str (prop "type" payload) "ANSWER" then
    pc <- ensurePc scope false ;;
    invoke P (SetRemoteDescription (pc_handle pc) (prop "sdp" payload)) ;;
    writes (set_hasRemoteRef true) ;;
    drainIce P pc ;;
    logLine "ANSWER set"
  else if strict_eq_str (prop "type" payload) "ICE_CANDIDATE" then
    pc <- ensurePc scope false ;;
    hasRemote <- reads hasRemoteRef ;;
    if negb hasRemote
    then writes (fun w =>
           set_pendingIceRef (pendingIceRef w ++ [prop "candidate" payload]) w)
    else
      try_catch
        (invoke P (AddIceCandidate (pc_handle pc) (prop "candidate" payload)) ;;
         ret tt)
        (fun err => logLine ("addIce error " ++ err))
  else ret tt.

Definition offerBody (offer : json) : json :=
  JObj [("type", JStr "OFFER");
        ("callId", JStr (callId scope));
        ("fromUserId", JStr (me scope));
        ("toUserId", JStr (peer scope));
        ("sdp", offer)].

Definition startOffer : M State unit :=
  pc <- ensurePc scope true ;;
  offer <- invoke P (CreateOffer (pc_handle pc)) ;;
  invoke P (SetLocalDescription (pc_handle pc) (Some offer)) ;;
  send "/webrtc.offer" (offerBody offer) ;;
  logLine "OFFER sent".

End Handlers.

End WebRtcTest1.

(** ** Reading a delivered message *)

(** The message parses to an object whose [callId] is the string [cid] and
    whose [type] is the string [kind]. *)
Definition addressed (P : Platform) (cid kind : string) (msg : IMessage) : bool :=
  strict_eq_str (prop "callId" (safeParse P (body msg))) cid
  && strict_eq_str (prop "type" (safeParse P (body msg))) kind.

Definition sdpOf (P : Platform) (msg : IMessage) : jsval :=
  prop "sdp" (safeParse P (body msg)).

Definition candidateOf (P : Platform) (msg : IMessage) : jsval :=
  prop "candidate" (safeParse P (body msg)).


Definition isClose (c : PcCall) : bool :=
  match c with
  | ClosePc _ => true
  | CloseDc _ => true
  | _ => false
  end.

Definition isClosePc (c : PcCall) : bool :=
  match c with
  | ClosePc _ => true
  | _ => false
  end.

Definition isCloseDc (c : PcCall) : bool :=
  match c with
  | CloseDc _ => true
  | _ => false
  end.

(** A description call: the ones a negotiation failure comes from. *)
Definition isNegotiation (c : PcCall) : bool :=
  match c with
  | SetRemoteDescription _ _ => true
  | SetLocalDescription _ _ => true
  | CreateOffer _ => true
  | CreateAnswer _ => true
  | _ => false
  end.

(** A line [drainIce] logs for a candidate the primitive rejected. *)
Definition isDrainError (line : string) : Prop :=
  exists err, line = ("drain addIce error " ++ err)%string.

(** A handler started in [w] stopped in [w'] on the error [err] of a
    description call: that call is the last one made and none before it is
    a close; nothing was published, no state was set, the connection is
    still in [pcRef]; the log gained at most lines of [drainIce]. *)
Definition negotiationAborted {St : Type} (P : Platform)
  (w : World St) (err : string) (w' : World St) : Prop :=
  (exists history c,
      calls w' = history ++ [c]
      /\ isNegotiation c = true
      /\ settle P history c = Rejects err)
  /\ (exists news,
        calls w' = calls w ++ news
        /\ forallb (fun c => negb (isClose c)) news = true)
  /\ (exists lines, log w' = log w ++ lines /\ Forall isDrainError lines)
  /\ published w' = published w
  /\ state w' = state w
  /\ stompRef w' = stompRef w
  /\ exists pc, pcRef w' = Some pc.

(** A description call made between [w] and [w'] was rejected with
    [err]. *)
Definition negotiationRejected {St : Type} (P : Platform)
  (w w' : World St) (err : string) : Prop :=
  exists made c later,
    calls w' = calls w ++ made ++ c :: later
    /\ isNegotiation c = true
    /\ settle P (calls w ++ made) c = Rejects err.

(** Every description call among [news], made after [history], resolves. *)
Definition negotiationsResolve (P : Platform) (history news : list PcCall) : Prop :=
  forall made c later,
    news = made ++ c :: later ->
    isNegotiation c = true ->
    exists v, settle P (history ++ made) c = Resolves v.

(** How a handler that took [w] to [w'] came out: normally, every
    description call it made resolved; abruptly, the last call it made is a
    description call, rejected with that error, and those before it
    resolved. *)
Definition outcome {St : Type} (P : Platform) (w : World St)
  (c : Completion unit) (w' : World St) : Prop :=
  match c with
  | Normal _ =>
      exists news,
        calls w' = calls w ++ news /\ negotiationsResolve P (calls w) news
  | Abrupt err =>
      exists made last,
        calls w' = (calls w ++ made) ++ [last]
        /\ negotiationsResolve P (calls w) made
        /\ isNegotiation last = true
        /\ settle P (calls w ++ made) last = Rejects err
  end.

(** The refs as [teardownPc] leaves them. *)
Definition tornDown {St : Type} (w : World St) : Prop :=
  pcRef w = None /\ dcRef w = None /\ hasRemoteRef w = false
  /\ pendingIceRef w = [].

(** The close calls [teardownPc] makes in the world [w]. *)
Definition closeCalls {St : Type} (w : World St) : list PcCall :=
  match dcRef w with Some d => [CloseDc d] | None => [] end
  ++ match pcRef w with Some pc => [ClosePc (pc_handle pc)] | None => [] end.

(** The world after [end()]. *)
Definition afterEnd (P : Platform) (scope : WebRtcTest2.State)
  (w : WebRtcTest2.W) : WebRtcTest2.W :=
  world_of (WebRtcTest2.end_ P scope w).

(** [end()] in [w] closes the connection held in [pcRef] and leaves the
    refs torn down. *)
Definition endCloses (P : Platform) (scope : WebRtcTest2.State)
  (w : WebRtcTest2.W) : Prop :=
  tornDown (afterEnd P scope w)
  /\ exists pc,
       pcRef w = Some pc
       /\ calls (afterEnd P scope w) = calls w ++ closeCalls w
       /\ In (ClosePc (pc_handle pc)) (closeCalls w).

(** A body [safeParse] answers [null] for without [JSON.parse] having
    parsed it: absent, empty, or not JSON. *)
Definition unparsable (P : Platform) (msg : IMessage) : Prop :=
  body msg = None
  \/ body msg = Some ""
  \/ exists s, body msg = Some s /\ JSON_parse P s = None.

(** Signals delivered one after the other to the handler of one scope,
    each handled to its end before the next is delivered.  A delivery
    that falls between the [await]s of a handler is a schedule of
    [Async.exec]. *)
Fixpoint deliver2 (P : Platform) (scope : WebRtcTest2.State)
  (msgs : list IMessage) (w : WebRtcTest2.W) : WebRtcTest2.W :=
  match msgs with
  | [] => w
  | msg :: rest => deliver2 P scope rest (world_of (WebRtcTest2.onSignal P scope msg w))
  end.

(** ** A platform to run examples on *)

Module Demo.

Definition quote : string := String (Ascii.ascii_of_nat 34) "".

(** [JSON.stringify] on values whose strings need no escaping. *)
Fixpoint JSON_stringify (v : json) : string :=
  match v with
  | JNull => "null"
  | JBool true => "true"
  | JBool false => "false"
  | JNum z => NilZero.string_of_int (Z.to_int z)
  | JStr s => quote ++ s ++ quote
  | JArr items => "[" ++ join "," (map JSON_stringify items) ++ "]"
  | JObj fields =>
      "{" ++ join "," (map (fun kv : string * json =>
                         match kv with
                         | (k, x) => (quote ++ k ++ quote ++ ":" ++ JSON_stringify x)%string
                         end) fields) ++ "}"
  end.

Definition signal (kind cid from to key : string) (payload : json) : json :=
  JObj [("type", JStr kind); ("callId", JStr cid); ("fromUserId", JStr from);
        ("toUserId", JStr to); (key, payload)].

Definition remoteSdp : json := JObj [("type", JStr "offer"); ("sdp", JStr "v=0 remote")].
Definition localSdp : json := JObj [("type", JStr "answer"); ("sdp", JStr "v=0 local")].

Definition cand (name : string) : json :=
  JObj [("candidate", JStr name); ("sdpMid", JStr "0")].

Definition offerC1 : json := signal "OFFER" "c1" "alice" "bob" "sdp" remoteSdp.
Definition answerC1 : json := signal "ANSWER" "c1" "alice" "bob" "sdp" remoteSdp.
Definition offerC2 : json := signal "OFFER" "c2" "alice" "bob" "sdp" remoteSdp.
Definition offerFromDave : json := signal "OFFER" "c1" "dave" "bob" "sdp" remoteSdp.
Definition iceC1 (name : string) : json :=
  signal "ICE_CANDIDATE" "c1" "alice" "bob" "candidate" (cand name).
Definition incomingC1 : json :=
  JObj [("type", JStr "INCOMING_CALL"); ("callId", JStr "c1"); ("callerId", JStr "alice")].
Definition incomingC7 : json :=
  JObj [("type", JStr "INCOMING_CALL"); ("callId", JNum 7); ("callerId", JStr "alice")].
Definition incoming0 : json :=
  JObj [("type", JStr "INCOMING_CALL"); ("callId", JNum 0); ("callerId", JStr "alice")].
Definition incomingEmpty : json :=
  JObj [("type", JStr "INCOMING_CALL"); ("callId", JStr ""); ("callerId", JStr "alice")].
(** A [callId] that [String()] cannot convert: an object whose own
    [toString] is not a function. *)
Definition incomingOdd : json :=
  JObj [("type", JStr "INCOMING_CALL");
        ("callId", JObj [("toString", JNum 1)]);
        ("callerId", JStr "alice")].

(** The values the example bodies stand for. *)
Definition known : list json :=
  [offerC1; answerC1; offerC2; offerFromDave;
   iceC1 "a"; iceC1 "b"; iceC1 "c"; iceC1 "bad";
   incomingC1; incomingC7; incoming0; incomingEmpty; incomingOdd].

(** [JSON.parse] on the example bodies; it throws on any other text. *)
Definition parse (s : string) : option json :=
  find (fun v => String.eqb (JSON_stringify v) s) known.

Definition message (v : json) : IMessage := mkIMessage (Some (JSON_stringify v)).

(** A body that is not JSON. *)
Definition garbled : IMessage := mkIMessage (Some "{type:").

(** A primitive that rejects the candidate named [bad] and nothing else. *)
Definition settleOk (history : list PcCall) (c : PcCall) : Settled :=
  match c with
  | CreateAnswer _ => Resolves localSdp
  | CreateOffer _ => Resolves localSdp
  | AddIceCandidate _ candidate =>
      match candidate with
      | Some (JObj (("candidate", JStr "bad") :: _)) =>
          Rejects "OperationError: bad candidate"
      | _ => Resolves JNull
      end
  | _ => Resolves JNull
  end.

(** A primitive that rejects every remote description. *)
Definition settleNoRemote (history : list PcCall) (c : PcCall) : Settled :=
  match c with
  | SetRemoteDescription _ _ => Rejects "InvalidAccessError: bad sdp"
  | _ => settleOk history c
  end.

Definition tokenMeta (t : string) : option TokenMeta :=
  Some (mkTokenMeta (Some "bob") false).

Definition platform : Platform := mkPlatform parse settleOk tokenMeta.
Definition platformNoRemote : Platform := mkPlatform parse settleNoRemote tokenMeta.

(** The callee [bob] of the call [c1], peer [alice], connected. *)
Definition bob : WebRtcTest2.State :=
  WebRtcTest2.mkState "jwt" "bob" "" "alice" "1" "c1" true.

Definition bobWorld : WebRtcTest2.W :=
  mkWorld bob [] [] (Some (mkStompClient bob true)) None None false [] 0 [] [].

(** The same callee before it learned of its peer. *)
Definition bobAlone : WebRtcTest2.State :=
  WebRtcTest2.mkState "jwt" "bob" "" "" "1" "c1" true.

Definition bobAloneWorld : WebRtcTest2.W :=
  mkWorld bobAlone [] [] (Some (mkStompClient bobAlone true)) None None false [] 0 [] [].

(** The callee holding three candidates that came before any OFFER. *)
Definition threeCandidates : list IMessage :=
  [message (iceC1 "a"); message (iceC1 "bad"); message (iceC1 "c")].

Definition bobBuffered : WebRtcTest2.W :=
  deliver2 platform bob threeCandidates bobWorld.

(** The callee once the OFFER of [alice] has been answered. *)
Definition bobPc : PeerConn WebRtcTest2.State := mkPeerConn 0 bob false.

Definition bobNegotiated : WebRtcTest2.W :=
  deliver2 platform bob [message offerC1] bobWorld.

(** The callee after an OFFER whose description the primitive rejected. *)
Definition bobRefused : WebRtcTest2.W :=
  mkWorld bob [] [] (Some (mkStompClient bob true))
          (Some bobPc) None false [] 1
          [NewRTCPeerConnection 0; SetRemoteDescription 0 (Some remoteSdp)] [].

Definition bob1 : WebRtcTest1.State :=
  WebRtcTest1.mkState "jwt" "bob" "carol" "c1" true.

Definition bob1World : WebRtcTest1.W :=
  mkWorld bob1 [] [] (Some (mkStompClient bob1 true)) None None false [] 0 [] [].

(** A callee connects first and learns of the call [c1] afterwards. *)
Definition lateOffer : list WebRtcTest2.Event :=
  [WebRtcTest2.TypeToken "jwt"; WebRtcTest2.ClickConnect;
   WebRtcTest2.StompConnected; WebRtcTest2.Notification (message incomingC1);
   WebRtcTest2.Signal (message offerC1)].

(** A callee types the call [c1] and its peer in before connecting. *)
Definition earlyCallId : list WebRtcTest2.Event :=
  [WebRtcTest2.TypeToken "jwt"; WebRtcTest2.TypeCallId "c1";
   WebRtcTest2.TypePeerUsername "alice"; WebRtcTest2.ClickConnect;
   WebRtcTest2.StompConnected; WebRtcTest2.Signal (message offerC1)].

(** A callee types the call [c1] and its peer in, connects, and is told
    of the call [7] by a notification; the OFFER of the call [c1] that
    follows is accepted by the primitive call after call. *)
Definition redirected : list Async.Action :=
  [Async.Happens (WebRtcTest2.TypeToken "jwt");
   Async.Happens (WebRtcTest2.TypeCallId "c1");
   Async.Happens (WebRtcTest2.TypePeerUsername "alice");
   Async.Happens WebRtcTest2.ClickConnect;
   Async.Happens WebRtcTest2.StompConnected;
   Async.Happens (WebRtcTest2.Notification (message incomingC7));
   Async.Happens (WebRtcTest2.Signal (message offerC1));
   Async.Settles 0 (Resolves JNull);
   Async.Continues 0;
   Async.Settles 0 (Resolves localSdp);
   Async.Settles 0 (Resolves JNull)].

(** End is clicked while the remote description of an OFFER is being
    applied; the description is accepted afterwards. *)
Definition endMeanwhile : list Async.Action :=
  [Async.Happens (WebRtcTest2.Signal (message offerC1));
   Async.Happens WebRtcTest2.ClickEnd;
   Async.Settles 0 (Resolves JNull)].




(** The callee [bob] gets two candidates and the OFFER; the remote
    description is applied; a third candidate arrives while the first
    buffered one is being applied. *)
Definition candidateAmidDrain : list Async.Action :=
  [Async.Happens (WebRtcTest2.Signal (message (iceC1 "a")));
   Async.Happens (WebRtcTest2.Signal (message (iceC1 "b")));
   Async.Happens (WebRtcTest2.Signal (message offerC1));
   Async.Settles 0 (Resolves JNull);
   Async.Happens (WebRtcTest2.Signal (message (iceC1 "c")));
   Async.Settles 0 (Resolves JNull)].

End Demo.

(** ** The code around the component *)

(** *** [API_BASE] *)

Module Env.

(** [s.replace(/\/+$/, "")]: the run of slashes that ends [s] is removed. *)
Fixpoint stripTrailingSlashes (s : string) : string :=
  match s with
  | EmptyString => EmptyString
  | String c rest =>
      match stripTrailingSlashes rest with
      | EmptyString => if Ascii.eqb c "/"%char then EmptyString else String c EmptyString
      | kept => String c kept
      end
  end.

(** [(import.meta.env.VITE_API_BASE ?? "/").replace(/\/+$/, "")]. *)
Definition API_BASE (VITE_API_BASE : option string) : string :=
  stripTrailingSlashes match VITE_API_BASE with
                       | Some s => s
                       | None => "/"
                       end.

(** [import.meta.env.VITE_WS_PATH ?? "/ws-native"]. *)
Definition WS_PATH (VITE_WS_PATH : option string) : string :=
  match VITE_WS_PATH with
  | Some s => s
  | None => "/ws-native"
  end.

Fixpoint slashes (n : nat) : string :=
  match n with
  | O => EmptyString
  | S k => String "/"%char (slashes k)
  end.

Fixpoint lastChar (s : string) : option Ascii.ascii :=
  match s with
  | EmptyString => None
  | String c EmptyString => Some c
  | String _ rest => lastChar rest
  end.

End Env.

(** *** [makeClient] *)

Module Stomp.

(** [s.includes(c)] for a one-character [c]. *)
Fixpoint includes (c : Ascii.ascii) (s : string) : bool :=
  match s with
  | EmptyString => false
  | String c' rest => Ascii.eqb c' c || includes c rest
  end.

(** How the client reaches the broker. *)
Inductive Transport : Type :=
| BrokerURL (url : string)
| SockJSFactory (url : string)
| WebSocketFactory (url : string).

(** What [makeClient] hands to [new Client(...)]. *)
Record ClientConfig : Type := mkClientConfig {
  reconnectDelay : Z;
  heartbeatIncoming : Z;
  heartbeatOutgoing : Z;
  connectHeaders : list (string * string);
  transport : Transport
}.

Definition urlOf (t : Transport) : string :=
  match t with
  | BrokerURL url => url
  | SockJSFactory url => url
  | WebSocketFactory url => url
  end.

Section MakeClient.

(** [encodeURIComponent] is the platform's. *)
Variable encodeURIComponent : string -> string.

Definition withToken (token u : string) : string :=
  let sep := if includes "?"%char u then "&" else "?" in
  u ++ sep ++ "token=" ++ encodeURIComponent token.

(** [WS_URL] is [undefined] or a string; the empty string is falsy too. *)
Definition makeClient (WS_URL : option string) (WS_PATH : string)
  (token : string) : ClientConfig :=
  mkClientConfig 5000 10000 10000
    (if nonempty token
     then [("Authorization", ("Bearer " ++ token)%string)]
     else [])
    (match WS_URL with
     | Some url =>
         if nonempty url then BrokerURL (withToken token url)
         else if String.eqb WS_PATH "/ws"
              then SockJSFactory (withToken token WS_PATH)
              else WebSocketFactory (withToken token WS_PATH)
     | None =>
         if String.eqb WS_PATH "/ws"
         then SockJSFactory (withToken token WS_PATH)
         else WebSocketFactory (withToken token WS_PATH)
     end).

End MakeClient.

End Stomp.

(** *** [decodeToken] *)

Module Jwt.

(** [s.split(sep)] for a one-character [sep]. *)
Fixpoint split (sep : Ascii.ascii) (s : string) : list string :=
  match s with
  | EmptyString => [EmptyString]
  | String c rest =>
      if Ascii.eqb c sep then EmptyString :: split sep rest
      else match split sep rest with
           | seg :: segs => String c seg :: segs
           | [] => [String c EmptyString]
           end
  end.

(** [s.replace(/a/g, b)] for one-character [a] and [b]. *)
Fixpoint replaceAll (a b : Ascii.ascii) (s : string) : string :=
  match s with
  | EmptyString => EmptyString
  | String c rest => String (if Ascii.eqb c a then b else c) (replaceAll a b rest)
  end.

Fixpoint repeatChar (c : Ascii.ascii) (n : nat) : string :=
  match n with
  | O => EmptyString
  | S k => String c (repeatChar c k)
  end.

(** [s.padEnd(target, c)] for a one-character [c]. *)
Definition padEnd (target : nat) (c : Ascii.ascii) (s : string) : string :=
  s ++ repeatChar c (target - String.length s).

(** [payload.replace(/-/g, "+").replace(/_/g, "/")]. *)
Definition normalized (payload : string) : string :=
  replaceAll "_"%char "/"%char (replaceAll "-"%char "+"%char payload).

(** [normalized.padEnd(Math.ceil(normalized.length / 4) * 4, "=")]. *)
Definition padded (payload : string) : string :=
  padEnd (Nat.div (String.length (normalized payload) + 3) 4 * 4) "="%char
         (normalized payload).

(** [data.sub]: on a payload that is a JSON string it is the method
    [String.prototype.sub], not a value of the payload. *)
Inductive Subject : Type :=
| SubjectValue (v : jsval)
| SubjectMethod.

(** A [Date]: its time value in milliseconds, [None] for an invalid date. *)
Definition Date : Type := option Z.

(** [new Date(ms)]: valid within 8.64e15 milliseconds of the epoch. *)
Definition newDate (ms : Z) : Date :=
  if (Z.abs ms <=? 8640000000000000)%Z then Some ms else None.

Record TokenMeta : Type := mkTokenMeta {
  sub : Subject;
  tokenType : jsval;
  exp : option Z;
  expiresAt : option Date;
  expired : bool
}.

Section DecodeToken.

(** [atob s] is [None] when [atob] throws; [now] is [Date.now()]. *)
Variable atob : string -> option string.
Variable JSON_parse : string -> option json.
Variable now : Z.

(** What follows [JSON.parse] inside the [try]. *)
Definition metaOf (data : json) : option TokenMeta :=
  match data with
  | JNull => None
  | _ =>
      let exp := match prop "exp" data with
                 | Some (JNum z) => Some z
                 | _ => None
                 end in
      let expiresAt := match exp with
                       | Some z => if Z.eqb z 0 then None else Some (newDate (z * 1000))
                       | None => None
                       end in
      let expired := match expiresAt with
                     | Some (Some t) => (t <=? now)%Z
                     | _ => false
                     end in
      Some (mkTokenMeta
              match data with
              | JStr _ => SubjectMethod
              | _ => SubjectValue (nullish (nullish (prop "sub" data) (prop "id" data)) None)
              end
              (nullish (nullish (prop "token_type" data) (prop "tokenType" data)) None)
              exp expiresAt expired)
  end.

Definition decodeToken (token : string) : option TokenMeta :=
  if negb (nonempty token) then None
  else
    match nth_error (split "."%char token) 1 with
    | None => None
    | Some payload =>
        if negb (nonempty payload) then None
        else
          match atob (padded payload) with
          | None => None
          | Some text =>
              match JSON_parse text with
              | None => None
              | Some data => metaOf data
              end
          end
    end.

End DecodeToken.

End Jwt.

(** *** [createCall] of the later listing *)

Module Rest.

(** The request [createCall] makes: a POST of a JSON body with a bearer
    token. *)
Record Request : Type := mkRequest {
  url : string;
  authorization : string;
  requestBody : json
}.

(** What [fetch] resolves with: [ok], [status], and how [res.json()]
    settles. *)
Record Response : Type := mkResponse {
  ok : bool;
  status : Z;
  json_ : Settled
}.

Inductive Fetched : Type :=
| FetchResolves (res : Response)
| FetchRejects (err : string).

Section CreateCall.

(** [Number(s)]: [None] is [NaN]. *)
Variable Number : string -> option json.
Variable fetch : Request -> Fetched.
Variable API_BASE : string.
Variable scope : WebRtcTest2.State.

Definition alert (s : string) : M WebRtcTest2.State unit :=
  writes (fun w => set_alerts (alerts w ++ [s]) w).

(** [data?.recipientId ?? data?.recipientUsername ?? data?.recipient?.username
    ?? data?.recipient?.phoneNumber ?? data?.translatorPhone]. *)
Definition recipientOf (data : json) : jsval :=
  let recipient := prop "recipient" data in
  let within (k : string) : jsval :=
    match recipient with
    | Some r => prop k r
    | None => None
    end in
  nullish
    (nullish
       (nullish
          (nullish (prop "recipientId" data) (prop "recipientUsername" data))
          (within "username"))
       (within "phoneNumber"))
    (prop "translatorPhone" data).

(** [data?.id ?? data?.callId ?? callId]. *)
Definition idOf (data : json) : jsval :=
  nullish (nullish (prop "id" data) (prop "callId" data))
          (Some (JStr (WebRtcTest2.callId scope))).

Definition createCall : M WebRtcTest2.State unit :=
  if negb (nonempty (WebRtcTest2.token scope)) then alert "Need token"
  else if negb (nonempty (WebRtcTest2.peerId scope))
  then alert "Set translatorId before creating a call"
  else
    match Number (WebRtcTest2.peerId scope) with
    | None => alert "translatorId must be numeric"
    | Some translatorId =>
        let payload :=
          JObj (("translatorId", translatorId)
                :: match Number (WebRtcTest2.themeId scope) with
                   | Some themeValue => [("themeId", themeValue)]
                   | None => []
                   end) in
        match fetch (mkRequest (API_BASE ++ "/call/initiate")
                               ("Bearer " ++ WebRtcTest2.token scope)
                               payload) with
        | FetchRejects err => throw err
        | FetchResolves res =>
            if negb (ok res)
            then logLine ("createCall failed: " ++ String_of (Some (JNum (status res))))
            else
              match json_ res with
              | Rejects err => throw err
              | Resolves data =>
                  let id := idOf data in
                  (if truthy id
                   then text <- ToString id ;; WebRtcTest2.setCallId text
                   else ret tt) ;;
                  (if negb (nonempty (WebRtcTest2.peerUsername scope))
                   then
                     if truthy (recipientOf data)
                     then text <- ToString (recipientOf data) ;;
                          WebRtcTest2.setPeerUsername text
                     else ret tt
                   else ret tt) ;;
                  text <- ToString id ;;
                  logLine ("Call created: " ++ text) ;;
                  logLine "Translator should get INCOMING_CALL"
              end
        end
    end.

End CreateCall.

End Rest.

(** ** Predicates for the further properties *)

(** The refs agree with each other: without a connection there is no data
    channel and no buffered candidate; once the remote-ready flag is set
    nothing is left in the buffer.  (The flag itself may be set without a
    connection: a handler that waits for [setRemoteDescription] sets it
    when the call resolves, also after [teardownPc] has run meanwhile.) *)
Definition coherent {St : Type} (w : World St) : Prop :=
  (pcRef w = None -> dcRef w = None /\ pendingIceRef w = [])
  /\ (hasRemoteRef w = true -> pendingIceRef w = []).


(** A call made on the connection [h]: not a close, and not a call on
    another connection. *)
Definition onConnection (h : nat) (c : PcCall) : bool :=
  match c with
  | NewRTCPeerConnection pc => Nat.eqb pc h
  | CreateDataChannel pc _ => Nat.eqb pc h
  | SetRemoteDescription pc _ => Nat.eqb pc h
  | SetLocalDescription pc _ => Nat.eqb pc h
  | CreateOffer pc => Nat.eqb pc h
  | CreateAnswer pc => Nat.eqb pc h
  | AddIceCandidate pc _ => Nat.eqb pc h
  | ClosePc _ => false
  | CloseDc _ => false
  end.

(** [v] is [undefined] or [null]: what [??] steps over. *)
Definition isNullish (v : jsval) : Prop := v = None \/ v = Some JNull.

(** A click that makes or drops the bus client. *)
Definition isConnectClick (ev : WebRtcTest2.Event) : bool :=
  match ev with
  | WebRtcTest2.ClickConnect => true
  | WebRtcTest2.ClickDisconnect => true
  | _ => false
  end.

(** A click on End, the one handler that drops the connection. *)
Definition isEndClick (ev : WebRtcTest2.Event) : bool :=
  match ev with
  | WebRtcTest2.ClickEnd => true
  | _ => false
  end.

(** A published message that carries a local candidate. *)
Definition isIceMessage (m : string * json) : bool :=
  String.eqb (fst m) "/app/webrtc.ice".

(** The scope the handlers of the bus client close over. *)
Definition clientScope (w : WebRtcTest2.W) : option WebRtcTest2.State :=
  match stompRef w with
  | Some client => Some (client_scope client)
  | None => None
  end.

(** ** Samples for the further properties *)

Module Samples.

(** A token whose payload segment holds [-]/[_] characters and needs
    padding: the claims below, in base64url. *)
Definition claims : json := JObj [("sub", JStr "a>b?c"); ("exp", JNum 1)].

Definition claimsText : string := Demo.JSON_stringify claims.

Definition payload : string := "eyJzdWIiOiJhPmI_YyIsImV4cCI6MX0".

Definition header : string := "eyJhbGciOiJIUzI1NiJ9".

Definition signature : string := "c2ln".

(** [atob] and [JSON.parse] on that payload; they throw on anything else. *)
Definition atob (s : string) : option string :=
  if String.eqb s "eyJzdWIiOiJhPmI/YyIsImV4cCI6MX0=" then Some claimsText else None.

Definition parse (s : string) : option json :=
  if String.eqb s claimsText then Some claims else None.

Definition now : Z := 1700000000000.

(** [Number] on the two ids used below; [NaN] on anything else. *)
Definition Number (s : string) : option json :=
  if String.eqb s "42" then Some (JNum 42)
  else if String.eqb s "1" then Some (JNum 1)
  else None.

Definition created : json :=
  JObj [("id", JNum 7); ("recipientUsername", JStr "alice")].

(** A backend that creates the call, and one that refuses. *)
Definition fetchCreated (req : Rest.Request) : Rest.Fetched :=
  Rest.FetchResolves (Rest.mkResponse true 200 (Resolves created)).

Definition fetchForbidden (req : Rest.Request) : Rest.Fetched :=
  Rest.FetchResolves (Rest.mkResponse false 403 (Resolves JNull)).

(** The caller [carl]: connected, translator 42 chosen, no call yet. *)
Definition carl : WebRtcTest2.State :=
  WebRtcTest2.mkState "jwt" "carl" "42" "" "1" "" true.

Definition carlWorld : WebRtcTest2.W :=
  mkWorld carl [] [] (Some (mkStompClient carl true)) None None false [] 0 [] [].

(** [alice], who placed the call [c1]. *)
Definition alice : WebRtcTest2.State :=
  WebRtcTest2.mkState "jwt" "alice" "" "" "1" "c1" true.

Definition aliceWorld : WebRtcTest2.W :=
  mkWorld alice [] [] (Some (mkStompClient alice true)) None None false [] 0 [] [].

(** A user of the earlier listing who filled in nothing. *)
Definition nobody1 : WebRtcTest1.State :=
  WebRtcTest1.mkState "jwt" "" "" "" true.

Definition nobody1World : WebRtcTest1.W :=
  mkWorld nobody1 [] [] (Some (mkStompClient nobody1 true)) None None false [] 0 [] [].

(** A user who has not pasted a token. *)
Definition tokenless : WebRtcTest2.State :=
  WebRtcTest2.mkState "" "" "" "" "1" "" false.

(** The callee that connected before it knew its peer, after the OFFER:
    the connection was made in that scope. *)
Definition bobUnanswered : WebRtcTest2.W :=
  deliver2 Demo.platform Demo.bobAlone [Demo.message Demo.offerC1]
           Demo.bobAloneWorld.

End Samples.

(** * Properties *)

(** ** Proof steps *)

Ltac js_unfold :=
  unfold bind, try_catch, ret, throw, reads, writes, invoke, logLine, send,
    ToString.

(** Lists of calls are compared with their appends nested to the right. *)
Ltac lists_right :=
  repeat rewrite <- app_assoc in *; cbn [app] in *.

(** ** Reading values *)

Lemma strict_eq_str_inv (v : jsval) (s : string) :
  strict_eq_str v s = true -> v = Some (JStr s).
Proof.
  destruct v as [[| | |t| |]|]; cbn; try discriminate.
  intros H. apply String.eqb_eq in H. now subst.
Qed.

Lemma String_throws_truthy (v : jsval) :
  String_throws v = true -> truthy v = true.
Proof. destruct v as [[]|]; cbn; congruence. Qed.

(** What [??] leaves of a value [String()] converts is converted too. *)
Lemma String_throws_nullish (v : jsval) (s : string) :
  (truthy v = true -> String_throws v = false) ->
  String_throws (nullish v (Some (JStr s))) = false.
Proof. destruct v as [[]|]; cbn; auto. Qed.

Lemma prop_some_truthy (k : string) (v x : json) :
  prop k v = Some x -> truthy (Some v) = true.
Proof. destruct v; cbn; congruence. Qed.

Lemma addressed_inv (P : Platform) (cid kind : string) (msg : IMessage) :
  addressed P cid kind msg = true ->
  truthy (Some (safeParse P (body msg))) = true
  /\ prop "callId" (safeParse P (body msg)) = Some (JStr cid)
  /\ prop "type" (safeParse P (body msg)) = Some (JStr kind).
Proof.
  unfold addressed. intros H. apply andb_true_iff in H as [H1 H2].
  apply strict_eq_str_inv in H1, H2.
  eauto using prop_some_truthy.
Qed.

(** ** The shared helpers *)

Section OpsFacts.

Context {St : Type}.
Variable P : Platform.

Lemma ensurePc_spec (scope : St) (isCaller : bool) (w : World St) :
  exists pc,
    ensurePc scope isCaller w = (Normal pc, withPc scope isCaller w)
    /\ pc_handle pc = handleOf w
    /\ pcRef (withPc scope isCaller w) = Some pc.
Proof.
  unfold withPc, handleOf, ensurePc.
  destruct (pcRef w) as [pc|] eqn:E.
  - exists pc. cbn. rewrite E. auto.
  - destruct isCaller; eexists; cbn; auto.
Qed.

Lemma ensurePc_present (scope : St) (isCaller : bool) (w : World St) (pc : PeerConn St) :
  pcRef w = Some pc -> ensurePc scope isCaller w = (Normal pc, w).
Proof. intros H. unfold ensurePc. now rewrite H. Qed.

Lemma drainLoop_spec (pc : PeerConn St) (queue : list jsval) :
  forall w : World St,
    drainLoop P pc queue w =
    (Normal tt,
     set_log (log w ++ drainErrors P (pc_handle pc) (calls w) queue)
       (set_calls (calls w ++ map (AddIceCandidate (pc_handle pc)) queue) w)).
Proof.
  induction queue as [|candidate rest IH]; intros w.
  - destruct w; cbn. now rewrite !app_nil_r.
  - cbn [drainLoop]. unfold bind at 1.
    unfold drainOne, try_catch, bind, invoke, logLine, writes, ret.
    destruct (settle P (calls w) (AddIceCandidate (pc_handle pc) candidate)) eqn:E;
      rewrite IH; cbn; rewrite E; destruct w; cbn;
      now rewrite <- !app_assoc.
Qed.

Lemma drainIce_spec (pc : PeerConn St) (w : World St) :
  drainIce P pc w =
  (Normal tt,
   set_log (log w ++ drainErrors P (pc_handle pc) (calls w) (pendingIceRef w))
     (set_calls (calls w ++ map (AddIceCandidate (pc_handle pc)) (pendingIceRef w))
        (set_pendingIceRef [] w))).
Proof.
  unfold drainIce. js_unfold. rewrite drainLoop_spec. reflexivity.
Qed.

Lemma drainErrors_app (h : nat) (before after : list jsval) :
  forall history,
    drainErrors P h history (before ++ after) =
    drainErrors P h history before
    ++ drainErrors P h (history ++ map (AddIceCandidate h) before) after.
Proof.
  induction before as [|c rest IH]; intros history; cbn.
  - now rewrite app_nil_r.
  - rewrite IH, <- !app_assoc. reflexivity.
Qed.

End OpsFacts.

Lemma drainErrors_lines (P : Platform) (h : nat) (queue : list jsval) :
  forall history, Forall isDrainError (drainErrors P h history queue).
Proof.
  induction queue as [|c rest IH]; intros history; cbn; [constructor|].
  destruct (settle P history (AddIceCandidate h c)); cbn; auto.
  constructor; [now eexists | apply IH].
Qed.

Lemma candidates_are_not_closes (h : nat) (queue : list jsval) (rest : list PcCall) :
  forallb (fun c => negb (isClose c)) rest = true ->
  forallb (fun c => negb (isClose c)) (map (AddIceCandidate h) queue ++ rest) = true.
Proof. intros H. induction queue; cbn; auto. Qed.

Lemma teardownPc_spec {St} (P : Platform) (w : World St) :
  teardownPc P w =
  (Normal tt,
   set_pendingIceRef []
     (set_hasRemoteRef false
        (set_pcRef None
           (set_dcRef None (set_calls (calls w ++ closeCalls w) w))))).
Proof.
  unfold teardownPc, closeCalls. js_unfold.
  destruct w as [st lg al sr pr dr hr pi nh cl pb]; cbn.
  destruct dr as [d|]; cbn.
  - destruct (settle P cl (CloseDc d)); cbn;
      destruct pr as [pc|]; cbn;
      try destruct (settle P (cl ++ [CloseDc d]) (ClosePc (pc_handle pc)));
      cbn; rewrite <- ?app_assoc; reflexivity.
  - destruct pr as [pc|]; cbn;
      try destruct (settle P cl (ClosePc (pc_handle pc)));
      cbn; rewrite ?app_nil_r; reflexivity.
Qed.

Lemma teardownPc_tornDown {St} (P : Platform) (w : World St) :
  tornDown (world_of (teardownPc P w)).
Proof. rewrite teardownPc_spec. repeat split. Qed.

Lemma teardownPc_again {St} (P : Platform) (w : World St) :
  tornDown w -> teardownPc P w = (Normal tt, w).
Proof.
  intros (Hpc & Hdc & Hr & Hq). rewrite teardownPc_spec.
  unfold closeCalls. rewrite Hpc, Hdc. cbn. rewrite app_nil_r.
  destruct w; cbn in *. now subst.
Qed.

Lemma end_spec (P : Platform) (scope : WebRtcTest2.State) (w : WebRtcTest2.W) :
  WebRtcTest2.end_ P scope w =
  teardownPc P (world_of (send "/call.end" (WebRtcTest2.callIdBody scope) w)).
Proof. reflexivity. Qed.

Lemma end_after (P : Platform) (scope : WebRtcTest2.State) (w : WebRtcTest2.W)
  (pc : PeerConn WebRtcTest2.State) :
  pcRef w = Some pc ->
  tornDown (afterEnd P scope w)
  /\ calls (afterEnd P scope w) = calls w ++ closeCalls w
  /\ In (ClosePc (pc_handle pc)) (closeCalls w).
Proof.
  intros Hpc. split; [|split].
  - unfold afterEnd. rewrite end_spec. apply teardownPc_tornDown.
  - unfold afterEnd. rewrite end_spec, teardownPc_spec.
    unfold send, writes, closeCalls, world_of. cbn.
    destruct (stompRef w); reflexivity.
  - unfold closeCalls. rewrite Hpc. apply in_or_app. right. now left.
Qed.

#[local] Arguments drainIce : simpl never.
#[local] Arguments drainLoop : simpl never.

(** A handler run on a world whose fields are known: the drain is replaced
    by what it leaves, and every call on the primitive is split into its
    two ways of settling. *)
Ltac js_run :=
  repeat first
    [ rewrite drainIce_spec
    | match goal with
      | |- context [match settle ?P ?h ?c with _ => _ end] =>
          let E := fresh "E" in destruct (settle P h c) eqn:E
      end
    | progress cbn ].

(** ** The branches of [onSignal] in the later listing *)

Section Signal2.
Variable P : Platform.
Variable scope : WebRtcTest2.State.

Lemma onSignal_offer (msg : IMessage) (w : WebRtcTest2.W) :
  addressed P (WebRtcTest2.callId scope) "OFFER" msg = true ->
  WebRtcTest2.onSignal P scope msg w =
  (pc <- ensurePc scope false ;;
   invoke P (SetRemoteDescription (pc_handle pc) (sdpOf P msg)) ;;
   writes (set_hasRemoteRef true) ;;
   drainIce P pc ;;
   answer <- invoke P (CreateAnswer (pc_handle pc)) ;;
   invoke P (SetLocalDescription (pc_handle pc) (Some answer)) ;;
   if negb (nonempty (WebRtcTest2.peerUsername scope))
   then logLine "Cannot reply with ANSWER because peer username is unknown."
   else
     send "/webrtc.answer" (WebRtcTest2.answerBody scope answer) ;;
     logLine "ANSWER sent") w.
Proof.
  intros H. apply addressed_inv in H as (Ht & Hc & Hk).
  unfold WebRtcTest2.onSignal, sdpOf. rewrite Ht, Hc, Hk. cbn.
  rewrite String.eqb_refl. reflexivity.
Qed.

Lemma onSignal_answer (msg : IMessage) (w : WebRtcTest2.W) :
  addressed P (WebRtcTest2.callId scope) "ANSWER" msg = true ->
  WebRtcTest2.onSignal P scope msg w =
  (pc <- ensurePc scope false ;;
   invoke P (SetRemoteDescription (pc_handle pc) (sdpOf P msg)) ;;
   writes (set_hasRemoteRef true) ;;
   drainIce P pc ;;
   logLine "ANSWER set") w.
Proof.
  intros H. apply addressed_inv in H as (Ht & Hc & Hk).
  unfold WebRtcTest2.onSignal, sdpOf. rewrite Ht, Hc, Hk. cbn.
  rewrite String.eqb_refl. reflexivity.
Qed.

Lemma onSignal_candidate (msg : IMessage) (w : WebRtcTest2.W) :
  addressed P (WebRtcTest2.callId scope) "ICE_CANDIDATE" msg = true ->
  WebRtcTest2.onSignal P scope msg w =
  (pc <- ensurePc scope false ;;
   hasRemote <- reads hasRemoteRef ;;
   if negb hasRemote
   then writes (fun w =>
          set_pendingIceRef (pendingIceRef w ++ [candidateOf P msg]) w)
   else
     try_catch
       (invoke P (AddIceCandidate (pc_handle pc) (candidateOf P msg)) ;;
        ret tt)
       (fun err => logLine ("addIce error " ++ err))) w.
Proof.
  intros H. apply addressed_inv in H as (Ht & Hc & Hk).
  unfold WebRtcTest2.onSignal, candidateOf. rewrite Ht, Hc, Hk. cbn.
  rewrite String.eqb_refl. reflexivity.
Qed.

Lemma withPc_refs (w : WebRtcTest2.W) :
  hasRemoteRef (withPc scope false w) = hasRemoteRef w
  /\ pendingIceRef (withPc scope false w) = pendingIceRef w
  /\ exists pc, pcRef (withPc scope false w) = Some pc
                /\ pc_handle pc = handleOf w.
Proof.
  unfold withPc, handleOf, ensurePc, world_of.
  destruct w as [st lg al sr pr dr hr pi nh cl pb]. cbn.
  destruct pr as [pc|]; cbn; repeat split; eauto.
Qed.

End Signal2.

(** ** What a handler may publish, and how it may stop *)

Lemma onSignal2_published (P : Platform) (scope : WebRtcTest2.State)
  (msg : IMessage) (w : WebRtcTest2.W) :
  published (world_of (WebRtcTest2.onSignal P scope msg w)) = published w
  \/ exists answer,
       published (world_of (WebRtcTest2.onSignal P scope msg w)) =
       published w ++ [("/app/webrtc.answer"%string, WebRtcTest2.answerBody scope answer)].
Proof.
  unfold WebRtcTest2.onSignal, world_of.
  repeat match goal with
         | |- context [if ?c then _ else _] => destruct c
         end;
    try (left; reflexivity);
    unfold ensurePc; js_unfold;
    destruct w as [st lg al sr pr dr hr pi nh cl pb]; cbn;
    destruct pr as [pc|]; js_run; try (left; reflexivity);
    try (destruct hr; js_run; left; reflexivity);
    destruct sr; cbn; try (left; reflexivity);
    right; eexists; reflexivity.
Qed.

Lemma onSignal1_published (P : Platform) (scope : WebRtcTest1.State)
  (msg : IMessage) (w : WebRtcTest1.W) :
  published (world_of (WebRtcTest1.onSignal P scope msg w)) = published w
  \/ exists answer,
       published (world_of (WebRtcTest1.onSignal P scope msg w)) =
       published w ++ [("/app/webrtc.answer"%string, WebRtcTest1.answerBody scope answer)].
Proof.
  unfold WebRtcTest1.onSignal, world_of.
  repeat match goal with
         | |- context [if ?c then _ else _] => destruct c
         end;
    try (left; reflexivity);
    unfold ensurePc; js_unfold;
    destruct w as [st lg al sr pr dr hr pi nh cl pb]; cbn;
    destruct pr as [pc|]; js_run; try (left; reflexivity);
    try (destruct hr; js_run; left; reflexivity);
    destruct sr; cbn; try (left; reflexivity);
    right; eexists; reflexivity.
Qed.

Ltac aborted_here :=
  match goal with
  | E : settle _ _ _ = Rejects _ |- negotiationAborted _ _ _ _ =>
      unfold negotiationAborted; cbn in *;
      split;
      [ eexists; eexists; split; [reflexivity | split; [reflexivity | exact E]]
      | split;
        [ eexists; split;
          [ lists_right; reflexivity
          | cbn; try apply candidates_are_not_closes; reflexivity ]
        | split;
          [ eexists; split;
            [ first [reflexivity | symmetry; apply app_nil_r]
            | first [apply drainErrors_lines | constructor] ]
          | repeat split; eauto ] ] ]
  end.

Lemma onSignal2_aborted (P : Platform) (scope : WebRtcTest2.State)
  (msg : IMessage) (w : WebRtcTest2.W) :
  match WebRtcTest2.onSignal P scope msg w with
  | (Abrupt err, w') => negotiationAborted P w err w'
  | (Normal _, _) => True
  end.
Proof.
  unfold WebRtcTest2.onSignal.
  repeat match goal with
         | |- context [if ?c then _ else _] => destruct c
         end;
    try exact I;
    unfold ensurePc; js_unfold;
    destruct w as [st lg al sr pr dr hr pi nh cl pb]; cbn;
    destruct pr as [pc|]; js_run; try exact I;
    try (destruct hr; js_run; exact I);
    try (destruct sr; cbn; exact I).
  all: aborted_here.
Qed.

Lemma startOffer2_aborted (P : Platform) (scope : WebRtcTest2.State)
  (w : WebRtcTest2.W) :
  match WebRtcTest2.startOffer P scope w with
  | (Abrupt err, w') => negotiationAborted P w err w'
  | (Normal _, _) => True
  end.
Proof.
  unfold WebRtcTest2.startOffer.
  repeat match goal with
         | |- context [if ?c then _ else _] => destruct c
         end;
    try exact I;
    unfold ensurePc; js_unfold;
    destruct w as [st lg al sr pr dr hr pi nh cl pb]; cbn;
    destruct pr as [pc|]; js_run; try exact I;
    try (destruct sr; cbn; exact I).
  all: aborted_here.
Qed.

(** ** How a handler comes out *)

Lemma negotiationsResolve_nil (P : Platform) (history : list PcCall) :
  negotiationsResolve P history [].
Proof. intros made c later H. destruct made; discriminate. Qed.

Lemma negotiationsResolve_cons (P : Platform) (history : list PcCall)
  (c : PcCall) (rest : list PcCall) :
  (isNegotiation c = true -> exists v, settle P history c = Resolves v) ->
  negotiationsResolve P (history ++ [c]) rest ->
  negotiationsResolve P history (c :: rest).
Proof.
  intros Hc Hrest made c' later E Hn.
  destruct made as [|m made]; cbn in E; injection E as -> ->.
  - rewrite app_nil_r. auto.
  - destruct (Hrest made c' later eq_refl Hn) as (v & Hv).
    exists v. rewrite <- app_assoc in Hv. exact Hv.
Qed.

Lemma negotiationsResolve_candidates (P : Platform) (history : list PcCall)
  (h : nat) (queue : list jsval) (rest : list PcCall) :
  negotiationsResolve P (history ++ map (AddIceCandidate h) queue) rest ->
  negotiationsResolve P history (map (AddIceCandidate h) queue ++ rest).
Proof.
  revert history. induction queue as [|q queue IH]; intros history H; cbn.
  - now rewrite app_nil_r in H.
  - apply negotiationsResolve_cons; [discriminate|].
    apply IH. now rewrite <- app_assoc.
Qed.

Lemma outcome_rejected {St : Type} (P : Platform) (w w' : World St)
  (c : Completion unit) (err : string) :
  outcome P w c w' ->
  negotiationRejected P w w' err ->
  c = Abrupt err
  /\ exists made last,
       calls w' = (calls w ++ made) ++ [last]
       /\ isNegotiation last = true
       /\ settle P (calls w ++ made) last = Rejects err.
Proof.
  intros Ho (made & bad & later & E & Hn & Hr).
  destruct c as [u|err']; cbn in Ho.
  - destruct Ho as (news & E' & Hres). exfalso.
    rewrite E in E'. apply app_inv_head in E'.
    destruct (Hres made bad later (eq_sym E') Hn) as (v & Hv). congruence.
  - destruct Ho as (made' & last & E' & Hres & Hl & Hrej).
    destruct later as [|l later] using rev_ind.
    + rewrite app_assoc in E. rewrite E in E'.
      apply app_inj_tail in E' as [E' Hlast]. apply app_inv_head in E'.
      subst made' last.
      split; [congruence|]. exists made, bad. rewrite E. auto.
    + clear IHlater. exfalso.
      rewrite E in E'.
      rewrite app_comm_cons, !app_assoc in E'.
      apply app_inj_tail in E' as [E' _].
      rewrite <- !app_assoc in E'. apply app_inv_head in E'.
      destruct (Hres made bad later (eq_sym E') Hn) as (v & Hv). congruence.
Qed.

Lemma negotiationsResolve_only_candidates (P : Platform) (history : list PcCall)
  (h : nat) (queue : list jsval) :
  negotiationsResolve P history (map (AddIceCandidate h) queue).
Proof.
  rewrite <- (app_nil_r (map _ queue)).
  apply negotiationsResolve_candidates, negotiationsResolve_nil.
Qed.

Ltac resolved :=
  repeat (lists_right;
          first
            [ apply negotiationsResolve_nil
            | apply negotiationsResolve_only_candidates
            | apply negotiationsResolve_candidates
            | apply negotiationsResolve_cons;
              [ first [ intros _; eexists; eassumption
                      | let H := fresh in intros H; cbn in H; discriminate H ]
              | ] ]).

Ltac came_out :=
  unfold outcome; cbn in *;
  match goal with
  | |- exists news, _ = _ ++ news /\ _ =>
      eexists; split;
      [ first [lists_right; reflexivity | symmetry; apply app_nil_r]
      | resolved ]
  | |- exists made last, _ =>
      eexists; eexists; split;
      [ apply (f_equal2 (@app PcCall));
        [ first [lists_right; reflexivity | symmetry; apply app_nil_r]
        | reflexivity ]
      | split;
        [ resolved
        | split; [reflexivity | rewrite ?app_nil_r; lists_right; eassumption] ] ]
  end.

Lemma onSignal2_outcome (P : Platform) (scope : WebRtcTest2.State)
  (msg : IMessage) (w : WebRtcTest2.W) :
  outcome P w (completion_of (WebRtcTest2.onSignal P scope msg w))
          (world_of (WebRtcTest2.onSignal P scope msg w)).
Proof.
  unfold WebRtcTest2.onSignal, completion_of, world_of.
  repeat match goal with
         | |- context [if ?c then _ else _] => destruct c
         end;
    unfold ensurePc; js_unfold;
    destruct w as [st lg al sr pr dr hr pi nh cl pb]; cbn;
    try destruct pr as [pc|]; js_run;
    try (destruct hr; js_run);
    try (destruct sr; cbn).
  all: came_out.
Qed.

Lemma startOffer2_outcome (P : Platform) (scope : WebRtcTest2.State)
  (w : WebRtcTest2.W) :
  outcome P w (completion_of (WebRtcTest2.startOffer P scope w))
          (world_of (WebRtcTest2.startOffer P scope w)).
Proof.
  unfold WebRtcTest2.startOffer, completion_of, world_of.
  repeat match goal with
         | |- context [if ?c then _ else _] => destruct c
         end;
    unfold ensurePc; js_unfold;
    destruct w as [st lg al sr pr dr hr pi nh cl pb]; cbn;
    try destruct pr as [pc|]; js_run;
    try (destruct sr; cbn).
  all: came_out.
Qed.

(** ** The [async] handlers, await by await *)

(** *** What the handlers change of the world *)

Lemma onCallNotif2_frame (P : Platform) (scope : WebRtcTest2.State)
  (msg : IMessage) (w : WebRtcTest2.W) :
  exists c st' lines,
    WebRtcTest2.onCallNotif P scope msg w =
    (c, set_log (log w ++ lines) (set_state (fun _ => st') w)).
Proof.
  unfold WebRtcTest2.onCallNotif, WebRtcTest2.setCallId, WebRtcTest2.setPeerUsername.
  js_unfold.
  destruct w as [st lg al sr pr dr hr pi nh cl pb].
  repeat match goal with
         | |- context [if ?c then _ else _] => destruct c
         end; cbn;
    unfold set_log, set_state; cbn;
    try (eexists; eexists; exists []; rewrite app_nil_r; reflexivity);
    do 3 eexists; reflexivity.
Qed.

Lemma candidates_on_connection (h : nat) (queue : list jsval) (rest : list PcCall) :
  forallb (onConnection h) (map (AddIceCandidate h) queue ++ rest)
  = forallb (onConnection h) rest.
Proof.
  induction queue as [|c q IH]; cbn; [reflexivity|].
  now rewrite Nat.eqb_refl.
Qed.

Lemma candidates_all_on_connection (h : nat) (queue : list jsval) :
  forallb (onConnection h) (map (AddIceCandidate h) queue) = true.
Proof.
  induction queue as [|c q IH]; cbn; [reflexivity|].
  now rewrite Nat.eqb_refl.
Qed.

Ltac on_connection_done :=
  eexists; split;
  [ lists_right; first [reflexivity | symmetry; apply app_nil_r]
  | cbn; rewrite ?Nat.eqb_refl; cbn;
    rewrite ?candidates_on_connection, ?candidates_all_on_connection; cbn;
    rewrite ?Nat.eqb_refl; reflexivity ].

Lemma onSignal2_on_connection (P : Platform) (scope : WebRtcTest2.State)
  (msg : IMessage) (w : WebRtcTest2.W) :
  exists news,
    calls (world_of (WebRtcTest2.onSignal P scope msg w)) = calls w ++ news
    /\ forallb (onConnection (handleOf w)) news = true.
Proof.
  unfold WebRtcTest2.onSignal, world_of, handleOf.
  repeat match goal with
         | |- context [if ?c then _ else _] => destruct c
         end;
    try (exists []; cbn; rewrite app_nil_r; split; reflexivity);
    unfold ensurePc; js_unfold;
    destruct w as [st lg al sr pr dr hr pi nh cl pb]; cbn;
    destruct pr as [pc|]; js_run;
    try (destruct hr; js_run);
    try (destruct sr; cbn);
    on_connection_done.
Qed.

Lemma startOffer2_on_connection (P : Platform) (scope : WebRtcTest2.State)
  (w : WebRtcTest2.W) :
  exists news,
    calls (world_of (WebRtcTest2.startOffer P scope w)) = calls w ++ news
    /\ forallb (onConnection (handleOf w)) news = true.
Proof.
  unfold WebRtcTest2.startOffer, world_of, handleOf.
  repeat match goal with
         | |- context [if ?c then _ else _] => destruct c
         end;
    try (exists []; cbn; rewrite app_nil_r; split; reflexivity);
    unfold ensurePc; js_unfold;
    destruct w as [st lg al sr pr dr hr pi nh cl pb]; cbn;
    destruct pr as [pc|]; js_run;
    try (destruct sr; cbn);
    on_connection_done.
Qed.

Lemma afterRender_refs (P : Platform) (w : WebRtcTest2.W) :
  exists st', world_of (WebRtcTest2.afterRender P w) = set_state (fun _ => st') w.
Proof.
  unfold WebRtcTest2.afterRender, WebRtcTest2.setMe, world_of. js_unfold.
  destruct w as [st lg al sr pr dr hr pi nh cl pb]. cbn.
  destruct (decodeToken P (WebRtcTest2.token st)) as [meta|];
    [destruct (sub meta) as [s|];
     [destruct (negb (nonempty (WebRtcTest2.me st)) && nonempty s)|]|];
    cbn; eexists; reflexivity.
Qed.

(** *** The handler run at once

    [WebRtcTest2.onSignal] and [WebRtcTest2.startOffer] are the runs of the
    tasks in which every call awaited settles before anything else
    happens. *)

Section Link.
Variable P : Platform.

Lemma uninterrupted_completed (n : nat) (c : Completion unit) (w : WebRtcTest2.W) :
  Async.uninterrupted P n (Async.Completed c, w) = (Async.Completed c, w).
Proof. induction n; cbn; auto. Qed.

Lemma uninterrupted_add (n m : nat) (r : Async.Progress * WebRtcTest2.W) :
  Async.uninterrupted P (n + m) r = Async.uninterrupted P m (Async.uninterrupted P n r).
Proof. revert r; induction n; intros r; cbn; auto. Qed.

Lemma drain_uninterrupted (b : Async.Branch) (scope : WebRtcTest2.State)
  (pc : PeerConn WebRtcTest2.State) (queue : list jsval) :
  forall w : WebRtcTest2.W,
    Async.uninterrupted P (length queue) (Async.drainNext b scope pc queue w) =
    (Async.Suspended (Async.OnSignal_drainIce b scope pc),
     world_of (drainLoop P pc queue w)).
Proof.
  induction queue as [|c rest IH]; intros w.
  - reflexivity.
  - cbn [length Async.uninterrupted Async.drainNext].
    unfold Async.suspend, Async.proceed. cbn [Async.awaited Async.called].
    unfold Async.called. cbn [calls set_calls].
    replace (calls (set_calls (calls w ++ [AddIceCandidate (pc_handle pc) c]) w))
      with (calls w ++ [AddIceCandidate (pc_handle pc) c]) by (destruct w; reflexivity).
    rewrite removelast_last. cbn [Async.settled].
    change (drainLoop P pc (c :: rest))
      with (drainOne P pc c ;; drainLoop P pc rest).
    unfold bind at 1.
    unfold drainOne, try_catch, bind, invoke, logLine, writes, ret.
    destruct (settle P (calls w) (AddIceCandidate (pc_handle pc) c)) eqn:E;
      rewrite IH; reflexivity.
Qed.
End Link.

Section Link2.
Variable P : Platform.

Lemma removelast_called (c : PcCall) (w : WebRtcTest2.W) :
  removelast (calls (Async.called c w)) = calls w.
Proof. unfold Async.called. destruct w; cbn. apply removelast_last. Qed.

Lemma uninterrupted_settles (n : nat) (t : Async.Task) (c : PcCall)
  (w : WebRtcTest2.W) :
  Async.awaited t = Some c ->
  Async.uninterrupted P (S n) (Async.suspend t w) =
  Async.uninterrupted P n (Async.settled t (settle P (calls w) c) (Async.called c w)).
Proof.
  intros H. cbn [Async.uninterrupted]. unfold Async.suspend, Async.proceed.
  rewrite H, removelast_called. reflexivity.
Qed.

Lemma invoke_called {A} (c : PcCall) (k : json -> M WebRtcTest2.State A)
  (w : WebRtcTest2.W) :
  (x <- invoke P c ;; k x) w =
  match settle P (calls w) c with
  | Resolves v => k v (Async.called c w)
  | Rejects err => (Abrupt err, Async.called c w)
  end.
Proof.
  unfold bind, invoke, Async.called.
  destruct (settle P (calls w) c); reflexivity.
Qed.

Lemma drainIce_uninterrupted (b : Async.Branch) (scope : WebRtcTest2.State)
  (pc : PeerConn WebRtcTest2.State) (w : WebRtcTest2.W) :
  Async.uninterrupted P (length (pendingIceRef w))
    (Async.drainNext b scope pc (pendingIceRef w) (set_pendingIceRef [] w)) =
  (Async.Suspended (Async.OnSignal_drainIce b scope pc),
   world_of (drainIce P pc w)).
Proof.
  rewrite drain_uninterrupted. unfold drainIce. js_unfold. reflexivity.
Qed.

Lemma drainIce_normal {A} (pc : PeerConn WebRtcTest2.State)
  (k : M WebRtcTest2.State A) (w : WebRtcTest2.W) :
  (drainIce P pc ;; k) w = k (world_of (drainIce P pc w)).
Proof. unfold bind at 1. rewrite drainIce_spec. reflexivity. Qed.

Lemma uninterrupted_1 (r : Async.Progress * WebRtcTest2.W) :
  Async.uninterrupted P 1 r = Async.proceed P r.
Proof. reflexivity. Qed.

Lemma pendingIceRef_called (c : PcCall) (w : WebRtcTest2.W) :
  pendingIceRef (set_hasRemoteRef true (Async.called c w)) = pendingIceRef w.
Proof. destruct w; reflexivity. Qed.

Ltac completed_here :=
  cbn [Async.settled]; unfold Async.complete; cbn [fst snd];
  rewrite ?uninterrupted_completed; reflexivity.

Theorem onSignal_uninterrupted (scope : WebRtcTest2.State) (msg : IMessage)
  (w : WebRtcTest2.W) :
  exists n,
    Async.uninterrupted P n (Async.onSignal P scope msg w) =
    Async.complete (WebRtcTest2.onSignal P scope msg w).
Proof.
  unfold Async.onSignal, WebRtcTest2.onSignal.
  set (payload := safeParse P (body msg)).
  destruct (negb (truthy (Some payload))
            || negb (strict_eq_str (prop "callId" payload) (WebRtcTest2.callId scope))).
  { exists 0. reflexivity. }
  destruct (ensurePc_spec scope false w) as (pc & E & _).
  set (w1 := withPc scope false w) in *.
  destruct (strict_eq_str (prop "type" payload) "OFFER").
  { unfold bind at 1. rewrite E.
    exists (1 + (length (pendingIceRef w1) + (1 + (1 + (1 + 0))))).
    rewrite uninterrupted_add.
    erewrite uninterrupted_settles by reflexivity. rewrite invoke_called.
    cbn [Async.uninterrupted].
    destruct (settle P (calls w1) _) as [v|err]; [|completed_here].
    cbn [Async.settled].
    set (w2 := Async.called _ w1).
    unfold bind at 1. cbn [writes].
    rewrite uninterrupted_add.
    rewrite <- (pendingIceRef_called (SetRemoteDescription (pc_handle pc) (prop "sdp" payload)) w1).
    rewrite drainIce_uninterrupted, drainIce_normal.
    set (w3 := world_of _).
    rewrite uninterrupted_add.
    rewrite uninterrupted_1.
    unfold Async.proceed at 1. cbn [Async.awaited Async.continued Nat.add].
    erewrite uninterrupted_settles by reflexivity. rewrite invoke_called.
    destruct (settle P (calls w3) _) as [answer|err]; [|completed_here].
    cbn [Async.settled].
    erewrite uninterrupted_settles by reflexivity.
    set (w4 := Async.called _ w3).
    unfold bind at 1, invoke.
    fold (Async.called (SetLocalDescription (pc_handle pc) (Some answer)) w4).
    destruct (settle P (calls w4) _) as [v'|err]; completed_here. }
  destruct (strict_eq_str (prop "type" payload) "ANSWER").
  { unfold bind at 1. rewrite E.
    exists (1 + (length (pendingIceRef w1) + (1 + 0))).
    rewrite uninterrupted_add.
    erewrite uninterrupted_settles by reflexivity. rewrite invoke_called.
    cbn [Async.uninterrupted].
    destruct (settle P (calls w1) _) as [v|err]; [|completed_here].
    cbn [Async.settled].
    set (w2 := Async.called _ w1).
    unfold bind at 1. cbn [writes].
    rewrite uninterrupted_add.
    rewrite <- (pendingIceRef_called (SetRemoteDescription (pc_handle pc) (prop "sdp" payload)) w1).
    rewrite drainIce_uninterrupted, drainIce_normal.
    reflexivity. }
  destruct (strict_eq_str (prop "type" payload) "ICE_CANDIDATE").
  { unfold bind at 1. rewrite E.
    unfold bind at 1. cbn [reads].
    destruct (negb (hasRemoteRef w1)).
    - exists 0. reflexivity.
    - exists 1. erewrite uninterrupted_settles by reflexivity.
      unfold try_catch, bind, invoke, Async.called.
      destruct (settle P (calls w1) _); reflexivity. }
  exists 0. reflexivity.
Qed.

Theorem startOffer_uninterrupted (scope : WebRtcTest2.State) (w : WebRtcTest2.W) :
  exists n,
    Async.uninterrupted P n (Async.startOffer scope w) =
    Async.complete (WebRtcTest2.startOffer P scope w).
Proof.
  unfold Async.startOffer, WebRtcTest2.startOffer.
  destruct (negb (nonempty (WebRtcTest2.callId scope))).
  { exists 0. reflexivity. }
  destruct (negb (nonempty (WebRtcTest2.peerUsername scope))).
  { exists 0. reflexivity. }
  destruct (ensurePc_spec scope true w) as (pc & E & _).
  set (w1 := withPc scope true w) in *.
  unfold bind at 1. rewrite E.
  exists 2.
  erewrite uninterrupted_settles by reflexivity. rewrite invoke_called.
  destruct (settle P (calls w1) _) as [offer|err]; [|completed_here].
  cbn [Async.settled].
  erewrite uninterrupted_settles by reflexivity.
  set (w2 := Async.called _ w1).
  unfold bind at 1, invoke.
  fold (Async.called (SetLocalDescription (pc_handle pc) (Some offer)) w2).
  destruct (settle P (calls w2) _) as [v'|err]; completed_here.
Qed.

End Link2.

(** *** The first [await] of an OFFER, and the moment it resolves *)

Lemma onSignal_offer_starts (P : Platform) (scope : WebRtcTest2.State)
  (msg : IMessage) (w : WebRtcTest2.W) :
  addressed P (WebRtcTest2.callId scope) "OFFER" msg = true ->
  exists pc,
    pc_handle pc = handleOf w
    /\ pcRef (withPc scope false w) = Some pc
    /\ Async.onSignal P scope msg w =
       (Async.Suspended
          (Async.OnSignal_setRemoteDescription Async.OfferBranch scope pc
             (sdpOf P msg)),
        Async.called (SetRemoteDescription (handleOf w) (sdpOf P msg))
          (withPc scope false w)).
Proof.
  intros H. apply addressed_inv in H as (Hp & Hc & Hk).
  destruct (ensurePc_spec scope false w) as (pc & E & Hh & Hpc).
  exists pc. split; [exact Hh|]. split; [exact Hpc|].
  unfold Async.onSignal, sdpOf. rewrite Hp, Hc, Hk. cbn.
  rewrite String.eqb_refl. cbn. rewrite E. unfold Async.suspend. cbn.
  rewrite Hh. reflexivity.
Qed.

Lemma remote_description_resolved (b : Async.Branch) (scope : WebRtcTest2.State)
  (pc : PeerConn WebRtcTest2.State) (sdp : jsval) (v : json) (w : WebRtcTest2.W) :
  hasRemoteRef (snd (Async.settled
                       (Async.OnSignal_setRemoteDescription b scope pc sdp)
                       (Resolves v) w)) = true
  /\ pendingIceRef (snd (Async.settled
                           (Async.OnSignal_setRemoteDescription b scope pc sdp)
                           (Resolves v) w)) = []
  /\ calls (snd (Async.settled
                   (Async.OnSignal_setRemoteDescription b scope pc sdp)
                   (Resolves v) w))
     = calls w ++ map (AddIceCandidate (pc_handle pc)) (firstn 1 (pendingIceRef w))
  /\ fst (Async.settled
            (Async.OnSignal_setRemoteDescription b scope pc sdp) (Resolves v) w)
     = match pendingIceRef w with
       | c :: rest => Async.Suspended (Async.DrainIce_addIceCandidate b scope pc c rest)
       | [] => Async.Suspended (Async.OnSignal_drainIce b scope pc)
       end.
Proof.
  cbn [Async.settled]. destruct w as [st lg al sr pr dr hr pi nh cl pb]. cbn.
  destruct pi as [|c rest]; cbn; rewrite ?app_nil_r; repeat split; reflexivity.
Qed.

(** *** The refs, step by step *)

Ltac coherent_done :=
  unfold coherent in *; cbn in *;
  repeat match goal with
         | H : _ /\ _ |- _ => destruct H
         end;
  repeat split; intros;
  repeat match goal with
         | H : ?A -> _, H' : ?A |- _ => specialize (H H')
         | H : ?a = ?a -> _ |- _ => specialize (H eq_refl)
         | H : _ /\ _ |- _ => destruct H
         end;
  try discriminate; try congruence; auto.

Ltac all_ifs :=
  repeat match goal with
         | |- context [if ?c then _ else _] => destruct c
         end.

Lemma coherent_refs {St} (w w' : World St) :
  pcRef w' = pcRef w -> dcRef w' = dcRef w ->
  hasRemoteRef w' = hasRemoteRef w -> pendingIceRef w' = pendingIceRef w ->
  coherent w -> coherent w'.
Proof. unfold coherent. intros -> -> -> ->. auto. Qed.

Lemma tornDown_coherent {St} (w : World St) : tornDown w -> coherent w.
Proof. intros (Hpc & Hdc & Hr & Hq). unfold coherent. intuition congruence. Qed.

Lemma onSignal_start_coherent (P : Platform) (scope : WebRtcTest2.State)
  (msg : IMessage) (w : WebRtcTest2.W) :
  coherent w -> coherent (snd (Async.onSignal P scope msg w)).
Proof.
  intros Hw. unfold Async.onSignal, Async.suspend, Async.complete, Async.called.
  all_ifs; try exact Hw;
    unfold ensurePc; js_unfold;
    destruct w as [st lg al sr pr dr hr pi nh cl pb]; cbn;
    destruct pr as [pc|]; cbn; try (destruct hr; cbn); coherent_done.
Qed.

Lemma startOffer_start_coherent (P : Platform) (scope : WebRtcTest2.State)
  (w : WebRtcTest2.W) :
  coherent w -> coherent (snd (Async.startOffer scope w)).
Proof.
  intros Hw. unfold Async.startOffer, Async.suspend, Async.complete, Async.called.
  all_ifs;
    unfold ensurePc; js_unfold;
    destruct w as [st lg al sr pr dr hr pi nh cl pb]; cbn;
    try destruct pr as [pc|]; cbn; coherent_done.
Qed.

Lemma settled_coherent (t : Async.Task) (r : Settled) (w : WebRtcTest2.W) :
  coherent w -> coherent (snd (Async.settled t r w)).
Proof.
  intros Hw.
  destruct t, r; cbn;
    unfold Async.drainNext, Async.suspend, Async.complete, Async.called;
    js_unfold; unfold world_of;
    destruct w as [st lg al sr pr dr hr pi nh cl pb]; cbn;
    repeat match goal with
           | |- context [match ?q with [] => _ | _ :: _ => _ end] => destruct q
           end;
    all_ifs; cbn;
    try (destruct sr; cbn); coherent_done.
Qed.

Lemma continued_coherent (t : Async.Task) (w : WebRtcTest2.W) :
  coherent w -> coherent (snd (Async.continued t w)).
Proof.
  intros Hw.
  destruct t as [| |[]| | | | |]; cbn;
    unfold Async.suspend, Async.complete, Async.called; js_unfold;
    destruct w as [st lg al sr pr dr hr pi nh cl pb]; cbn; coherent_done.
Qed.

Lemma dispatch_coherent (P : Platform) (ev : WebRtcTest2.Event)
  (w : WebRtcTest2.W) :
  coherent w -> coherent (world_of (WebRtcTest2.dispatch P ev w)).
Proof.
  intros Hw. destruct ev; unfold WebRtcTest2.dispatch.
  - destruct (WebRtcTest2.connected (state w)); [exact Hw|].
    unfold WebRtcTest2.connect. js_unfold. unfold world_of.
    all_ifs; cbn; apply (coherent_refs w); auto.
  - destruct (WebRtcTest2.connected (state w)); [|exact Hw].
    apply (coherent_refs w); auto.
  - destruct (WebRtcTest2.callButtonsEnabled (state w)); [|exact Hw].
    unfold WebRtcTest2.accept, world_of. js_unfold. cbn.
    destruct (stompRef w); [apply (coherent_refs w); auto | exact Hw].
  - destruct (WebRtcTest2.callButtonsEnabled (state w)); [|exact Hw].
    unfold WebRtcTest2.reject, world_of. js_unfold. cbn.
    destruct (stompRef w); [apply (coherent_refs w); auto | exact Hw].
  - destruct (WebRtcTest2.callButtonsEnabled (state w)); [|exact Hw].
    unfold WebRtcTest2.startOffer, world_of.
    all_ifs;
      unfold ensurePc; js_unfold;
      destruct w as [st lg al sr pr dr hr pi nh cl pb]; cbn;
      try destruct pr as [pc|]; js_run;
      try (destruct sr; cbn);
      coherent_done.
  - destruct (WebRtcTest2.callButtonsEnabled (state w)); [|exact Hw].
    apply tornDown_coherent. rewrite end_spec. apply teardownPc_tornDown.
  - apply (coherent_refs w); auto.
  - apply (coherent_refs w); auto.
  - apply (coherent_refs w); auto.
  - apply (coherent_refs w); auto.
  - destruct (stompRef w) eqn:E; [|exact Hw].
    unfold WebRtcTest2.onConnect, WebRtcTest2.setConnected, world_of. js_unfold.
    cbn. rewrite E. apply (coherent_refs w); auto.
  - destruct (stompRef w); [|exact Hw]. apply (coherent_refs w); auto.
  - destruct (WebRtcTest2.subscribed w); [|exact Hw].
    destruct (onCallNotif2_frame P s msg w) as (c & st' & lines & E).
    rewrite E. apply (coherent_refs w); auto.
  - destruct (WebRtcTest2.subscribed w); [|exact Hw].
    unfold WebRtcTest2.onSignal, world_of.
    all_ifs; try exact Hw;
      unfold ensurePc; js_unfold;
      destruct w as [st lg al sr pr dr hr pi nh cl pb]; cbn;
      destruct pr as [pc|]; js_run;
      try (destruct hr; js_run);
      try (destruct sr; cbn);
      coherent_done.
  - destruct (pcRef w) as [pc|]; [|exact Hw].
    unfold WebRtcTest2.onicecandidate, world_of. js_unfold.
    destruct candidate; [|exact Hw].
    destruct (negb (nonempty (WebRtcTest2.peerUsername (pc_scope pc)))); cbn;
      [apply (coherent_refs w); auto|].
    destruct (stompRef w); [apply (coherent_refs w); auto | exact Hw].
  - destruct (pcRef w) as [pc|] eqn:E; [|exact Hw].
    unfold WebRtcTest2.ondatachannel, world_of. js_unfold.
    destruct (pc_isCaller pc); [exact Hw|]. cbn.
    unfold coherent in *. cbn. rewrite E. destruct Hw as [_ Hw].
    split; [discriminate | exact Hw].
  - destruct (pcRef w); [|exact Hw]. apply (coherent_refs w); auto.
Qed.

Lemma afterRender_coherent (P : Platform) (w : WebRtcTest2.W) :
  coherent w -> coherent (world_of (WebRtcTest2.afterRender P w)).
Proof.
  intros Hw. destruct (afterRender_refs P w) as (st' & E). rewrite E.
  apply (coherent_refs w); auto.
Qed.

Lemma step_coherent (P : Platform) (a : Async.Action) (s : Async.System) :
  coherent (Async.world s) -> coherent (Async.world (Async.step P a s)).
Proof.
  intros Hw. destruct a as [ev | i r | i]; unfold Async.step.
  - cbn [Async.world]. apply afterRender_coherent.
    destruct ev; cbn [Async.world]; try (apply dispatch_coherent; exact Hw).
    + destruct (WebRtcTest2.callButtonsEnabled (state (Async.world s)));
        [|exact Hw].
      pose proof (startOffer_start_coherent P (state (Async.world s))
                    (Async.world s) Hw) as H.
      destruct (Async.startOffer _ _) as [[t|c] w']; exact H.
    + destruct (WebRtcTest2.subscribed (Async.world s)) as [scope|]; [|exact Hw].
      pose proof (onSignal_start_coherent P scope msg (Async.world s) Hw) as H.
      destruct (Async.onSignal _ _ _ _) as [[t|c] w']; exact H.
  - destruct (nth_error (Async.tasks s) i) as [[t|]|]; try exact Hw.
    destruct (Async.awaited t); [|exact Hw].
    pose proof (settled_coherent t r (Async.world s) Hw) as H.
    destruct (Async.settled _ _ _) as [[t'|c] w']; exact H.
  - destruct (nth_error (Async.tasks s) i) as [[t|]|]; try exact Hw.
    destruct (Async.awaited t); [exact Hw|].
    pose proof (continued_coherent t (Async.world s) Hw) as H.
    destruct (Async.continued _ _) as [[t'|c] w']; exact H.
Qed.

Lemma exec_coherent (P : Platform) (acts : list Async.Action) :
  forall s, coherent (Async.world s) ->
            coherent (Async.world (Async.exec P acts s)).
Proof.
  induction acts as [|a acts IH]; intros s Hs; [exact Hs|].
  cbn. apply IH, step_coherent, Hs.
Qed.

(** *** The calls of a schedule *)

Lemma same_calls {St} (w w' : World St) :
  calls w' = calls w -> exists news, calls w' = calls w ++ news.
Proof. intros ->. exists []. now rewrite app_nil_r. Qed.


Lemma suspend_calls (t : Async.Task) (w : WebRtcTest2.W) :
  exists news, calls (snd (Async.suspend t w)) = calls w ++ news.
Proof.
  unfold Async.suspend, Async.called. cbn.
  destruct (Async.awaited t); cbn; [eexists; reflexivity|].
  apply same_calls. reflexivity.
Qed.















(** *** One task among the others *)















(** *** Candidates and descriptions as they arrive, and the drain *)






(** ** The claims *)

(** The guard of [onSignal].  A signal whose [callId] is not strictly
    equal to the [callId] of the scope of the handler is discarded:
    [onSignal] completes normally and leaves the whole world as it was, so
    no call is made on the primitive, the remote-ready flag and the ICE
    buffer keep their values and nothing is published.  This holds in both
    listings, whatever the type of the message.  The scope is the one of
    the render the handler was made in, which for the handler the bus
    client calls is the render in which [connect] ran. *)
Theorem signal_for_other_call_is_discarded
  (P : Platform) (scope2 : WebRtcTest2.State) (scope1 : WebRtcTest1.State)
  (msg : IMessage) (w2 : WebRtcTest2.W) (w1 : WebRtcTest1.W) :
  strict_eq_str (prop "callId" (safeParse P (body msg)))
                (WebRtcTest2.callId scope2) = false ->
  strict_eq_str (prop "callId" (safeParse P (body msg)))
                (WebRtcTest1.callId scope1) = false ->
  WebRtcTest2.onSignal P scope2 msg w2 = (Normal tt, w2)
  /\ WebRtcTest1.onSignal P scope1 msg w1 = (Normal tt, w1).
Proof.
  intros H2 H1. split.
  - unfold WebRtcTest2.onSignal. rewrite H2. cbn [negb].
    now rewrite orb_true_r.
  - unfold WebRtcTest1.onSignal. rewrite H1. cbn [negb].
    now rewrite orb_true_r.
Qed.

Lemma signal_for_other_call_is_discarded_witness :
  WebRtcTest2.onSignal Demo.platform Demo.bob (Demo.message Demo.offerC2)
    Demo.bobWorld = (Normal tt, Demo.bobWorld)
  /\ WebRtcTest1.onSignal Demo.platform Demo.bob1 (Demo.message Demo.offerC2)
       Demo.bob1World = (Normal tt, Demo.bob1World).
Proof.
  apply (signal_for_other_call_is_discarded Demo.platform Demo.bob Demo.bob1
           (Demo.message Demo.offerC2) Demo.bobWorld Demo.bob1World);
    reflexivity.
Defined.

(** C1, the code at the failing input.  The callee types the call [c1]
    in and connects; a notification then sets the [callId] state to [7].
    The OFFER of the call [c1] that follows differs from the active
    [callId], and yet it is handled: the handler the bus client calls
    still compares with the [callId] of the render in which [connect] ran.
    A connection is made, the description is applied, the remote-ready
    flag is set and an ANSWER for [c1] is published. *)
Lemma signal_for_another_call_is_answered_after_a_notification :
  WebRtcTest2.callId
    (state (Async.world (Async.exec Demo.platform Demo.redirected
                           (Async.idle (WebRtcTest2.mounted Demo.platform "")))))
  = "7"
  /\ prop "callId" (safeParse Demo.platform (body (Demo.message Demo.offerC1)))
     = Some (JStr "c1")
  /\ calls (Async.world (Async.exec Demo.platform Demo.redirected
                           (Async.idle (WebRtcTest2.mounted Demo.platform ""))))
     = [NewRTCPeerConnection 0;
        SetRemoteDescription 0 (Some Demo.remoteSdp);
        CreateAnswer 0;
        SetLocalDescription 0 (Some Demo.localSdp)]
  /\ hasRemoteRef (Async.world (Async.exec Demo.platform Demo.redirected
                                  (Async.idle (WebRtcTest2.mounted Demo.platform ""))))
     = true
  /\ published (Async.world (Async.exec Demo.platform Demo.redirected
                               (Async.idle (WebRtcTest2.mounted Demo.platform ""))))
     = [("/app/webrtc.answer",
         JObj [("type", JStr "ANSWER"); ("callId", JStr "c1");
               ("fromUserId", JStr "bob"); ("toUserId", JStr "alice");
               ("sdp", Demo.localSdp)])].
Proof. repeat split; reflexivity. Qed.



(** C3, as amended.  When every description call succeeds and a bus
    client exists, the handler of an OFFER for the [callId] of its scope
    makes these calls in this order: the offer as remote description, the
    buffered candidates, [createAnswer], the answer as local description;
    it leaves the remote-ready flag set and the buffer empty.  It then
    publishes exactly one ANSWER carrying that answer and the same
    [callId] and logs [ANSWER sent] if the [peerUsername] of its scope is
    not empty; if it is empty it publishes nothing and logs that it cannot
    reply.  Await by await: up to its first [await] the handler has made
    the remote description call and the flag and the buffer are as they
    were; when that call resolves the flag is set and the buffer emptied
    in the step that hands the first buffered candidate to the primitive,
    so the flag is set before the drain; and the handler run at once is
    the run of that task. *)
Theorem offer_is_answered
  (P : Platform) (scope : WebRtcTest2.State) (msg : IMessage) (w : WebRtcTest2.W)
  (client : StompClient WebRtcTest2.State) (v1 answer v3 : json) :
  addressed P (WebRtcTest2.callId scope) "OFFER" msg = true ->
  stompRef w = Some client ->
  settle P (calls (withPc scope false w))
         (SetRemoteDescription (handleOf w) (sdpOf P msg)) = Resolves v1 ->
  settle P (calls (withPc scope false w)
            ++ SetRemoteDescription (handleOf w) (sdpOf P msg)
               :: map (AddIceCandidate (handleOf w)) (pendingIceRef w))
         (CreateAnswer (handleOf w)) = Resolves answer ->
  settle P (calls (withPc scope false w)
            ++ SetRemoteDescription (handleOf w) (sdpOf P msg)
               :: map (AddIceCandidate (handleOf w)) (pendingIceRef w)
               ++ [CreateAnswer (handleOf w)])
         (SetLocalDescription (handleOf w) (Some answer)) = Resolves v3 ->
  completion_of (WebRtcTest2.onSignal P scope msg w) = Normal tt
  /\ calls (world_of (WebRtcTest2.onSignal P scope msg w)) =
       calls (withPc scope false w)
       ++ SetRemoteDescription (handleOf w) (sdpOf P msg)
          :: map (AddIceCandidate (handleOf w)) (pendingIceRef w)
          ++ [CreateAnswer (handleOf w);
              SetLocalDescription (handleOf w) (Some answer)]
  /\ hasRemoteRef (world_of (WebRtcTest2.onSignal P scope msg w)) = true
  /\ pendingIceRef (world_of (WebRtcTest2.onSignal P scope msg w)) = []
  /\ published (world_of (WebRtcTest2.onSignal P scope msg w)) =
       published w
       ++ (if nonempty (WebRtcTest2.peerUsername scope)
           then [("/app/webrtc.answer"%string, WebRtcTest2.answerBody scope answer)]
           else [])
  /\ prop "type" (WebRtcTest2.answerBody scope answer) = Some (JStr "ANSWER")
  /\ prop "callId" (WebRtcTest2.answerBody scope answer)
     = prop "callId" (safeParse P (body msg))
  /\ prop "sdp" (WebRtcTest2.answerBody scope answer) = Some answer
  /\ log (world_of (WebRtcTest2.onSignal P scope msg w)) =
       log w
       ++ drainErrors P (handleOf w)
            (calls (withPc scope false w)
             ++ [SetRemoteDescription (handleOf w) (sdpOf P msg)])
            (pendingIceRef w)
       ++ [if nonempty (WebRtcTest2.peerUsername scope)
           then "ANSWER sent"%string
           else "Cannot reply with ANSWER because peer username is unknown."%string]
  /\ exists pc,
       pc_handle pc = handleOf w
       /\ Async.onSignal P scope msg w =
          (Async.Suspended
             (Async.OnSignal_setRemoteDescription Async.OfferBranch scope pc
                (sdpOf P msg)),
           Async.called (SetRemoteDescription (handleOf w) (sdpOf P msg))
             (withPc scope false w))
       /\ hasRemoteRef (withPc scope false w) = hasRemoteRef w
       /\ pendingIceRef (withPc scope false w) = pendingIceRef w
       /\ (forall (v : json) (w' : WebRtcTest2.W),
              hasRemoteRef
                (snd (Async.settled
                        (Async.OnSignal_setRemoteDescription Async.OfferBranch
                           scope pc (sdpOf P msg)) (Resolves v) w')) = true
              /\ pendingIceRef
                   (snd (Async.settled
                           (Async.OnSignal_setRemoteDescription Async.OfferBranch
                              scope pc (sdpOf P msg)) (Resolves v) w')) = []
              /\ calls
                   (snd (Async.settled
                           (Async.OnSignal_setRemoteDescription Async.OfferBranch
                              scope pc (sdpOf P msg)) (Resolves v) w'))
                 = calls w'
                   ++ map (AddIceCandidate (handleOf w))
                        (firstn 1 (pendingIceRef w')))
       /\ exists n,
            Async.uninterrupted P n (Async.onSignal P scope msg w)
            = Async.complete (WebRtcTest2.onSignal P scope msg w).
Proof.
  intros Hmsg Hclient H1 H2 H3.
  match goal with
  | |- _ /\ _ /\ _ /\ _ /\ _ /\ _ /\ _ /\ _ /\ _ /\ ?G => set (awaits := G)
  end.
  assert (Hawaits : awaits).
  { unfold awaits.
    destruct (onSignal_offer_starts P scope msg w Hmsg) as (pc & Hh & Hpc & E).
    destruct (withPc_refs scope w) as (Hr & Hq & _).
    exists pc. split; [exact Hh|]. split; [exact E|].
    split; [exact Hr|]. split; [exact Hq|]. split.
    - intros v w'. rewrite <- Hh.
      destruct (remote_description_resolved Async.OfferBranch scope pc
                  (sdpOf P msg) v w') as (A & B & C & _).
      auto.
    - apply onSignal_uninterrupted. }
  clearbody awaits.
  rewrite onSignal_offer by exact Hmsg.
  apply addressed_inv in Hmsg as (_ & Hc & _). rewrite Hc.
  unfold withPc, handleOf, ensurePc, world_of, completion_of in *.
  destruct w as [st lg al sr pr dr hr pi nh cl pb]. cbn in *. subst sr.
  js_unfold.
  destruct pr as [pc|]; cbn in *; lists_right;
    rewrite H1; rewrite drainIce_spec; cbn; lists_right;
    rewrite H2; cbn; lists_right;
    rewrite H3; cbn; lists_right;
    destruct (nonempty (WebRtcTest2.peerUsername scope)); cbn; lists_right;
    rewrite ?app_nil_r; repeat split; first [reflexivity | exact Hawaits].
Qed.

Lemma offer_is_answered_witness :
  calls (world_of (WebRtcTest2.onSignal Demo.platform Demo.bob
                     (Demo.message Demo.offerC1) Demo.bobBuffered)) =
    [NewRTCPeerConnection 0;
     SetRemoteDescription 0 (Some Demo.remoteSdp);
     AddIceCandidate 0 (Some (Demo.cand "a"));
     AddIceCandidate 0 (Some (Demo.cand "bad"));
     AddIceCandidate 0 (Some (Demo.cand "c"));
     CreateAnswer 0;
     SetLocalDescription 0 (Some Demo.localSdp)]
  /\ published (world_of (WebRtcTest2.onSignal Demo.platform Demo.bob
                            (Demo.message Demo.offerC1) Demo.bobBuffered)) =
    [("/app/webrtc.answer"%string, WebRtcTest2.answerBody Demo.bob Demo.localSdp)]
  /\ log (world_of (WebRtcTest2.onSignal Demo.platform Demo.bob
                      (Demo.message Demo.offerC1) Demo.bobBuffered)) =
    ["drain addIce error OperationError: bad candidate"%string;
     "ANSWER sent"%string].
Proof.
  destruct (offer_is_answered Demo.platform Demo.bob (Demo.message Demo.offerC1)
              Demo.bobBuffered (mkStompClient Demo.bob true)
              JNull Demo.localSdp JNull
              eq_refl eq_refl eq_refl eq_refl eq_refl)
    as (_ & Hcalls & _ & _ & Hpub & _ & _ & _ & Hlog & _).
  split; [exact Hcalls|]. split; [exact Hpub | exact Hlog].
Defined.

(** C3, counterexample.  The callee [bob] does not know its peer yet.  The
    OFFER of the call [c1] is applied and answered locally, every call on
    the primitive succeeds, and no ANSWER is published. *)
Lemma offer_without_peer_username_publishes_nothing :
  addressed Demo.platform (WebRtcTest2.callId Demo.bobAlone) "OFFER"
    (Demo.message Demo.offerC1) = true
  /\ WebRtcTest2.onSignal Demo.platform Demo.bobAlone (Demo.message Demo.offerC1)
       Demo.bobAloneWorld =
     (Normal tt,
      mkWorld Demo.bobAlone
        ["Cannot reply with ANSWER because peer username is unknown."%string] []
        (Some (mkStompClient Demo.bobAlone true))
        (Some (mkPeerConn 0 Demo.bobAlone false)) None true [] 1
        [NewRTCPeerConnection 0;
         SetRemoteDescription 0 (Some Demo.remoteSdp);
         CreateAnswer 0;
         SetLocalDescription 0 (Some Demo.localSdp)]
        [])
  /\ published (world_of (WebRtcTest2.onSignal Demo.platform Demo.bobAlone
                            (Demo.message Demo.offerC1) Demo.bobAloneWorld)) = [].
Proof. repeat split; reflexivity. Qed.

(** C4, as amended.  Whatever message [onSignal] handles, it publishes
    nothing or exactly one message, to [/app/webrtc.answer], whose
    [toUserId] is the peer held in the scope of the handler
    ([peerUsername] in the later listing, [peer] in the earlier one).  The
    [fromUserId] of the OFFER is not read. *)
Theorem answer_is_addressed_to_the_peer_of_the_scope
  (P : Platform) (msg : IMessage)
  (scope2 : WebRtcTest2.State) (w2 : WebRtcTest2.W)
  (scope1 : WebRtcTest1.State) (w1 : WebRtcTest1.W) :
  (published (world_of (WebRtcTest2.onSignal P scope2 msg w2)) = published w2
   \/ exists answer,
        published (world_of (WebRtcTest2.onSignal P scope2 msg w2)) =
          published w2
          ++ [("/app/webrtc.answer"%string, WebRtcTest2.answerBody scope2 answer)]
        /\ prop "toUserId" (WebRtcTest2.answerBody scope2 answer)
           = Some (JStr (WebRtcTest2.peerUsername scope2)))
  /\ (published (world_of (WebRtcTest1.onSignal P scope1 msg w1)) = published w1
      \/ exists answer,
           published (world_of (WebRtcTest1.onSignal P scope1 msg w1)) =
             published w1
             ++ [("/app/webrtc.answer"%string, WebRtcTest1.answerBody scope1 answer)]
           /\ prop "toUserId" (WebRtcTest1.answerBody scope1 answer)
              = Some (JStr (WebRtcTest1.peer scope1))).
Proof.
  split.
  - destruct (onSignal2_published P scope2 msg w2) as [H | (answer & H)];
      [now left | right; exists answer; split; [exact H | reflexivity]].
  - destruct (onSignal1_published P scope1 msg w1) as [H | (answer & H)];
      [now left | right; exists answer; split; [exact H | reflexivity]].
Qed.

(** C4, counterexample.  An OFFER of the call [c1] sent by [dave] reaches
    [bob], whose peer is [alice] (later listing) or [carol] (earlier
    listing): the ANSWER is addressed to that peer, not to [dave]. *)
Lemma answer_to_another_sender_goes_to_peerUsername :
  prop "fromUserId" (safeParse Demo.platform (body (Demo.message Demo.offerFromDave)))
    = Some (JStr "dave")
  /\ map (fun m => (fst m, prop "toUserId" (snd m)))
       (published (world_of (WebRtcTest2.onSignal Demo.platform Demo.bob
                               (Demo.message Demo.offerFromDave) Demo.bobWorld)))
     = [("/app/webrtc.answer"%string, Some (JStr "alice"))]
  /\ map (fun m => (fst m, prop "toUserId" (snd m)))
       (published (world_of (WebRtcTest1.onSignal Demo.platform Demo.bob1
                               (Demo.message Demo.offerFromDave) Demo.bob1World)))
     = [("/app/webrtc.answer"%string, Some (JStr "carol"))].
Proof. repeat split; reflexivity. Qed.

(** C5, as amended.  [end()] twice in a row, and [teardownPc()] after [end()]: both
    calls of [end()] complete normally and leave the refs torn down (no
    connection, no data channel, remote-ready flag unset, ICE buffer
    empty); the first makes at most one close call on the data channel and
    at most one on the connection; the second makes no call on the
    primitive at all, and a further [teardownPc()] changes nothing.  All
    the second [end()] does is publish [call.end] once more. *)
Theorem end_twice_closes_once
  (P : Platform) (scope scope' : WebRtcTest2.State) (w : WebRtcTest2.W) :
  completion_of (WebRtcTest2.end_ P scope w) = Normal tt
  /\ completion_of (WebRtcTest2.end_ P scope' (afterEnd P scope w)) = Normal tt
  /\ tornDown (afterEnd P scope w)
  /\ tornDown (afterEnd P scope' (afterEnd P scope w))
  /\ calls (afterEnd P scope w) = calls w ++ closeCalls w
  /\ length (filter isClosePc (closeCalls w)) <= 1
  /\ length (filter isCloseDc (closeCalls w)) <= 1
  /\ calls (afterEnd P scope' (afterEnd P scope w)) = calls (afterEnd P scope w)
  /\ teardownPc P (afterEnd P scope w) = (Normal tt, afterEnd P scope w)
  /\ afterEnd P scope' (afterEnd P scope w) =
     world_of (send "/call.end" (WebRtcTest2.callIdBody scope') (afterEnd P scope w)).
Proof.
  assert (T : forall s v, tornDown (afterEnd P s v)).
  { intros s v. unfold afterEnd. rewrite end_spec. apply teardownPc_tornDown. }
  assert (S : forall (b : json) (v : WebRtcTest2.W),
             tornDown v -> tornDown (world_of (send "/call.end" b v))).
  { intros b v Hv. unfold send, writes, world_of, tornDown in *. cbn.
    destruct (stompRef v); exact Hv. }
  assert (A : afterEnd P scope' (afterEnd P scope w) =
              world_of (send "/call.end" (WebRtcTest2.callIdBody scope')
                          (afterEnd P scope w))).
  { unfold afterEnd at 1. rewrite end_spec.
    rewrite teardownPc_again by (apply S, T). reflexivity. }
  repeat split; try apply T.
  - unfold completion_of. rewrite end_spec, teardownPc_spec. reflexivity.
  - unfold completion_of. rewrite end_spec, teardownPc_spec. reflexivity.
  - unfold afterEnd. rewrite end_spec, teardownPc_spec.
    unfold send, writes, closeCalls, world_of. cbn.
    destruct (stompRef w); reflexivity.
  - unfold closeCalls. destruct (dcRef w), (pcRef w); cbn; lia.
  - unfold closeCalls. destruct (dcRef w), (pcRef w); cbn; lia.
  - rewrite A. unfold send, writes, world_of. cbn.
    destruct (stompRef (afterEnd P scope w)); reflexivity.
  - apply teardownPc_again, T.
  - exact A.
Qed.

(** C5, counterexample.  The second [end()] is not a no-op: with a bus
    client it publishes [call.end] once more, so the world after it is
    not the world after the first. *)
Lemma second_end_publishes_call_end_again :
  published (afterEnd Demo.platform Demo.bob Demo.bobNegotiated)
  = published Demo.bobNegotiated
    ++ [("/app/call.end", WebRtcTest2.callIdBody Demo.bob)]
  /\ published (afterEnd Demo.platform Demo.bob
                  (afterEnd Demo.platform Demo.bob Demo.bobNegotiated))
     = published Demo.bobNegotiated
       ++ [("/app/call.end", WebRtcTest2.callIdBody Demo.bob);
           ("/app/call.end", WebRtcTest2.callIdBody Demo.bob)]
  /\ afterEnd Demo.platform Demo.bob
       (afterEnd Demo.platform Demo.bob Demo.bobNegotiated)
     <> afterEnd Demo.platform Demo.bob Demo.bobNegotiated.
Proof.
  split; [reflexivity|]. split; [reflexivity|].
  intros H. apply (f_equal (fun w => length (published w))) in H.
  vm_compute in H. discriminate H.
Qed.

(** C6.  A candidate the primitive rejects is logged and swallowed.
    Applied on arrival (remote description present): the handler completes
    normally, having made that one call and logged one line, and nothing
    else of the world changes.  Rejected during the drain: the drain
    completes normally, every candidate of the buffer has been tried in
    order, those after the rejected one included, one line is logged for
    it, and the refs other than the emptied buffer are untouched, so the
    connection is neither closed nor dropped. *)
Theorem candidate_failure_is_logged_and_swallowed
  (P : Platform) (scope : WebRtcTest2.State)
  (w : WebRtcTest2.W) (pc : PeerConn WebRtcTest2.State) :
  pcRef w = Some pc ->
  (forall (msg : IMessage) (err : string),
      addressed P (WebRtcTest2.callId scope) "ICE_CANDIDATE" msg = true ->
      hasRemoteRef w = true ->
      settle P (calls w) (AddIceCandidate (pc_handle pc) (candidateOf P msg))
        = Rejects err ->
      WebRtcTest2.onSignal P scope msg w =
        (Normal tt,
         set_log (log w ++ [("addIce error " ++ err)%string])
           (set_calls (calls w ++ [AddIceCandidate (pc_handle pc) (candidateOf P msg)])
              w)))
  /\ (forall (before after : list jsval) (bad : jsval) (err : string),
        settle P (calls w ++ map (AddIceCandidate (pc_handle pc)) before)
               (AddIceCandidate (pc_handle pc) bad) = Rejects err ->
        exists lines,
          drainIce P pc (set_pendingIceRef (before ++ bad :: after) w) =
            (Normal tt,
             set_log (log w ++ lines)
               (set_calls (calls w ++ map (AddIceCandidate (pc_handle pc))
                                          (before ++ bad :: after))
                  (set_pendingIceRef [] w)))
          /\ In ("drain addIce error " ++ err)%string lines).
Proof.
  intros Hpc. split.
  - intros msg err Hmsg Hremote Hrej.
    rewrite onSignal_candidate by exact Hmsg.
    unfold ensurePc. js_unfold. rewrite Hpc, Hremote. cbn. now rewrite Hrej.
  - intros before after bad err Hrej.
    exists (drainErrors P (pc_handle pc) (calls w) (before ++ bad :: after)).
    split.
    + rewrite drainIce_spec. destruct w; reflexivity.
    + rewrite drainErrors_app. cbn [drainErrors]. rewrite Hrej.
      apply in_or_app. right. now left.
Qed.

Lemma candidate_failure_is_logged_and_swallowed_witness :
  WebRtcTest2.onSignal Demo.platform Demo.bob (Demo.message (Demo.iceC1 "bad"))
    Demo.bobNegotiated =
    (Normal tt,
     set_log (log Demo.bobNegotiated
              ++ ["addIce error OperationError: bad candidate"%string])
       (set_calls (calls Demo.bobNegotiated
                   ++ [AddIceCandidate 0 (Some (Demo.cand "bad"))])
          Demo.bobNegotiated))
  /\ exists lines,
       drainIce Demo.platform Demo.bobPc
         (set_pendingIceRef
            [Some (Demo.cand "a"); Some (Demo.cand "bad"); Some (Demo.cand "c")]
            Demo.bobNegotiated) =
         (Normal tt,
          set_log (log Demo.bobNegotiated ++ lines)
            (set_calls (calls Demo.bobNegotiated
                        ++ [AddIceCandidate 0 (Some (Demo.cand "a"));
                            AddIceCandidate 0 (Some (Demo.cand "bad"));
                            AddIceCandidate 0 (Some (Demo.cand "c"))])
               (set_pendingIceRef [] Demo.bobNegotiated)))
       /\ In "drain addIce error OperationError: bad candidate"%string lines.
Proof.
  destruct (candidate_failure_is_logged_and_swallowed
              Demo.platform Demo.bob Demo.bobNegotiated Demo.bobPc eq_refl)
    as [Hnow Hdrain].
  split.
  - apply (Hnow (Demo.message (Demo.iceC1 "bad"))); reflexivity.
  - apply (Hdrain [Some (Demo.cand "a")] [Some (Demo.cand "c")]
                  (Some (Demo.cand "bad"))).
    reflexivity.
Defined.

(** C7, as amended.  The component keeps no call status and [accept()]
    checks nothing: in any world it completes normally and, when a bus
    client exists, publishes one [call.accept] message carrying the
    [callId] of its scope; nothing else changes.  Both listings. *)
Theorem accept_publishes_whatever_the_call
  (scope2 : WebRtcTest2.State) (w2 : WebRtcTest2.W)
  (scope1 : WebRtcTest1.State) (w1 : WebRtcTest1.W) :
  WebRtcTest2.accept scope2 w2 =
    (Normal tt,
     match stompRef w2 with
     | Some _ =>
         set_published
           (published w2
            ++ [("/app/call.accept"%string,
                 JObj [("callId"%string, JStr (WebRtcTest2.callId scope2))])])
           w2
     | None => w2
     end)
  /\ WebRtcTest1.accept scope1 w1 =
    (Normal tt,
     match stompRef w1 with
     | Some _ =>
         set_published
           (published w1
            ++ [("/app/call.accept"%string,
                 JObj [("callId"%string, JStr (WebRtcTest1.callId scope1))])])
           w1
     | None => w1
     end).
Proof. split; reflexivity. Qed.

(** C7, counterexample.  [bob] ends the call [c1] and then clicks Accept:
    the click completes normally and [call.accept] is published after
    [call.end]. *)
Lemma accept_after_end_is_published :
  completion_of
    (WebRtcTest2.dispatch Demo.platform WebRtcTest2.ClickAccept
       (WebRtcTest2.run Demo.platform [WebRtcTest2.ClickEnd] Demo.bobWorld))
    = Normal tt
  /\ published
       (world_of
          (WebRtcTest2.dispatch Demo.platform WebRtcTest2.ClickAccept
             (WebRtcTest2.run Demo.platform [WebRtcTest2.ClickEnd] Demo.bobWorld)))
     = [("/app/call.end"%string, JObj [("callId"%string, JStr "c1")]);
        ("/app/call.accept"%string, JObj [("callId"%string, JStr "c1")])].
Proof. split; reflexivity. Qed.

(** C8, as amended.  When a description call (set remote, set local,
    create offer, create answer) made by [onSignal] or [startOffer] is
    rejected, the handler stops there with that error: it does not catch
    it.  That call is the last one made; no line is logged for it (the log
    gains at most the lines of the drain), nothing is published, no state
    is set, no close call is made and the connection stays in [pcRef].
    [end()] afterwards closes that connection and tears the refs down.
    Await by await: a task that waits for a description call completes
    with the error when the call is rejected and leaves the world as it
    is, whatever has happened meanwhile. *)
Theorem negotiation_failure_leaves_the_session_open
  (P : Platform) (scope scope' : WebRtcTest2.State) (msg : IMessage)
  (w : WebRtcTest2.W) (err : string)
  (r : Completion unit * WebRtcTest2.W) :
  r = WebRtcTest2.onSignal P scope msg w \/ r = WebRtcTest2.startOffer P scope w ->
  negotiationRejected P w (world_of r) err ->
  completion_of r = Abrupt err
  /\ negotiationAborted P w err (world_of r)
  /\ endCloses P scope' (world_of r)
  /\ forall (t : Async.Task) (c : PcCall) (v : WebRtcTest2.W),
       Async.awaited t = Some c ->
       isNegotiation c = true ->
       Async.settled t (Rejects err) v = (Async.Completed (Abrupt err), v).
Proof.
  intros Hr Hrej.
  assert (Ho : outcome P w (completion_of r) (world_of r)).
  { destruct Hr as [-> | ->];
      [apply onSignal2_outcome | apply startOffer2_outcome]. }
  destruct (outcome_rejected P w (world_of r) (completion_of r) err Ho Hrej)
    as (Hc & _).
  assert (A : negotiationAborted P w err (world_of r)).
  { destruct r as [c w']. cbn in *. subst c.
    destruct Hr as [Hr | Hr].
    - pose proof (onSignal2_aborted P scope msg w) as Hs. now rewrite <- Hr in Hs.
    - pose proof (startOffer2_aborted P scope w) as Hs. now rewrite <- Hr in Hs. }
  split; [exact Hc|]. split; [exact A|]. split.
  - destruct A as (_ & _ & _ & _ & _ & _ & pc & Hpc).
    destruct (end_after P scope' (world_of r) pc Hpc) as (Ht & Hcl & Hin).
    split; [exact Ht|]. exists pc. auto.
  - intros t c v Ha Hn.
    destruct t; cbn in Ha; try discriminate Ha;
      injection Ha as <-; cbn in Hn; try discriminate Hn; reflexivity.
Qed.

Lemma negotiation_failure_leaves_the_session_open_witness :
  WebRtcTest2.onSignal Demo.platformNoRemote Demo.bob (Demo.message Demo.offerC1)
    Demo.bobWorld
  = (Abrupt "InvalidAccessError: bad sdp", Demo.bobRefused)
  /\ negotiationAborted Demo.platformNoRemote Demo.bobWorld
       "InvalidAccessError: bad sdp" Demo.bobRefused
  /\ endCloses Demo.platformNoRemote Demo.bob Demo.bobRefused.
Proof.
  split; [reflexivity|].
  refine ((fun H => conj (proj1 (proj2 H)) (proj1 (proj2 (proj2 H)))) _).
  apply (negotiation_failure_leaves_the_session_open Demo.platformNoRemote
           Demo.bob Demo.bob (Demo.message Demo.offerC1) Demo.bobWorld
           "InvalidAccessError: bad sdp"
           (WebRtcTest2.onSignal Demo.platformNoRemote Demo.bob
              (Demo.message Demo.offerC1) Demo.bobWorld)).
  - left. reflexivity.
  - exists [NewRTCPeerConnection 0], (SetRemoteDescription 0 (Some Demo.remoteSdp)), [].
    repeat split; reflexivity.
Defined.

(** C8, counterexample.  The primitive rejects the remote description of
    the OFFER: the handler stops on that error and the log is as it was. *)
Lemma negotiation_failure_is_not_logged :
  WebRtcTest2.onSignal Demo.platformNoRemote Demo.bob (Demo.message Demo.offerC1)
    Demo.bobWorld = (Abrupt "InvalidAccessError: bad sdp", Demo.bobRefused)
  /\ log Demo.bobRefused = log Demo.bobWorld.
Proof. split; reflexivity. Qed.

(** C9.  A message whose body is absent, empty or not JSON: [safeParse]
    answers [null], and [onSignal] and [onCallNotif] of the later listing
    complete normally and leave the whole world as it was. *)
Theorem unparsable_body_is_discarded
  (P : Platform) (scope : WebRtcTest2.State) (msg : IMessage) (w : WebRtcTest2.W) :
  unparsable P msg ->
  safeParse P (body msg) = JNull
  /\ WebRtcTest2.onSignal P scope msg w = (Normal tt, w)
  /\ WebRtcTest2.onCallNotif P scope msg w = (Normal tt, w).
Proof.
  intros H.
  assert (E : safeParse P (body msg) = JNull).
  { destruct H as [H | [H | (s & H & Hs)]]; rewrite H; cbn; auto.
    rewrite Hs. now destruct (String.eqb s ""). }
  split; [exact E|].
  unfold WebRtcTest2.onSignal, WebRtcTest2.onCallNotif.
  rewrite E. cbn. auto.
Qed.

Lemma unparsable_body_is_discarded_witness :
  safeParse Demo.platform (body Demo.garbled) = JNull
  /\ WebRtcTest2.onSignal Demo.platform Demo.bob Demo.garbled Demo.bobWorld
     = (Normal tt, Demo.bobWorld)
  /\ WebRtcTest2.onCallNotif Demo.platform Demo.bob Demo.garbled Demo.bobWorld
     = (Normal tt, Demo.bobWorld).
Proof.
  apply (unparsable_body_is_discarded Demo.platform Demo.bob Demo.garbled
           Demo.bobWorld).
  right; right. exists "{type:"%string. split; reflexivity.
Defined.

(** C10, as amended.  What [onCallNotif] does with the [callId] of a
    notification, in any world (nothing about the call or the connection is
    consulted): a truthy [callId] that [String()] converts becomes the
    [callId] state, as [String(callId)]; a falsy one ([0], the empty
    string, [false], [null], none) leaves the [callId] state as it is; one
    that [String()] throws on makes the handler throw before anything is
    set. *)
Theorem notification_sets_callId
  (P : Platform) (scope : WebRtcTest2.State) (msg : IMessage) (w : WebRtcTest2.W) :
  (truthy (prop "callId" (safeParse P (body msg))) = true ->
   String_throws (prop "callId" (safeParse P (body msg))) = false ->
   WebRtcTest2.callId (state (world_of (WebRtcTest2.onCallNotif P scope msg w)))
   = String_of (prop "callId" (safeParse P (body msg))))
  /\ (truthy (prop "callId" (safeParse P (body msg))) = false ->
      WebRtcTest2.callId (state (world_of (WebRtcTest2.onCallNotif P scope msg w)))
      = WebRtcTest2.callId (state w))
  /\ (String_throws (prop "callId" (safeParse P (body msg))) = true ->
      WebRtcTest2.onCallNotif P scope msg w = (Abrupt typeError, w)).
Proof.
  unfold WebRtcTest2.onCallNotif.
  destruct (truthy (Some (safeParse P (body msg)))) eqn:Hp; cbn [negb].
  - unfold WebRtcTest2.setCallId, WebRtcTest2.setPeerUsername.
    split; [|split].
    + intros H H'. rewrite H. unfold ToString at 1. rewrite H'.
      js_unfold. cbn.
      repeat match goal with
             | |- context [if ?c then _ else _] => destruct c
             end; reflexivity.
    + intros H. rewrite H. js_unfold. cbn.
      repeat match goal with
             | |- context [if ?c then _ else _] => destruct c
             end; reflexivity.
    + intros H. rewrite (String_throws_truthy _ H).
      unfold ToString at 1. rewrite H. reflexivity.
  - assert (E : prop "callId" (safeParse P (body msg)) = None).
    { destruct (safeParse P (body msg)); cbn in *; try reflexivity; discriminate. }
    rewrite E. cbn. repeat split; intros; try discriminate; reflexivity.
Qed.

Lemma notification_sets_callId_witness :
  WebRtcTest2.callId
    (state (world_of (WebRtcTest2.onCallNotif Demo.platform Demo.bobAlone
                        (Demo.message Demo.incomingC7) Demo.bobAloneWorld)))
  = "7"%string.
Proof.
  apply (proj1 (notification_sets_callId Demo.platform Demo.bobAlone
                  (Demo.message Demo.incomingC7) Demo.bobAloneWorld));
    reflexivity.
Defined.

(** C10, counterexample.  A notification whose [callId] is [0] or the
    empty string leaves the [callId] state as it is, and one whose
    [callId] is an object with an own [toString] makes the handler throw.
    Nor does a notification redirect the filter of the signals: a callee
    connects and is then told of the call [c1] by a notification, which
    sets the [callId] state to [c1]; the OFFER of the call [c1] that
    follows is still discarded, and the component is as if it had not been
    delivered. *)
Lemma notification_with_falsy_callId_keeps_callId :
  WebRtcTest2.callId
    (state (world_of (WebRtcTest2.onCallNotif Demo.platform Demo.bob
                        (Demo.message Demo.incoming0) Demo.bobWorld)))
  = "c1"
  /\ WebRtcTest2.callId
       (state (world_of (WebRtcTest2.onCallNotif Demo.platform Demo.bob
                           (Demo.message Demo.incomingEmpty) Demo.bobWorld)))
     = "c1"
  /\ WebRtcTest2.onCallNotif Demo.platform Demo.bob
       (Demo.message Demo.incomingOdd) Demo.bobWorld
     = (Abrupt typeError, Demo.bobWorld)
  /\ WebRtcTest2.callId
       (state (Async.world
                 (Async.exec Demo.platform (map Async.Happens Demo.lateOffer)
                    (Async.idle (WebRtcTest2.mounted Demo.platform "")))))
     = "c1"
  /\ Async.exec Demo.platform (map Async.Happens Demo.lateOffer)
       (Async.idle (WebRtcTest2.mounted Demo.platform ""))
     = Async.exec Demo.platform
         (map Async.Happens (removelast Demo.lateOffer))
         (Async.idle (WebRtcTest2.mounted Demo.platform "")).
Proof. repeat split; reflexivity. Qed.

(** ** Further facts about the two listings *)

(** A candidate delivered while [drainIce] is at work is not buffered: the
    flag is set already, so it is applied on arrival, ahead of the
    buffered candidates [drainIce] has yet to apply. *)
Lemma candidate_during_the_drain_overtakes_the_buffered :
  calls (Async.world (Async.exec Demo.platform Demo.candidateAmidDrain
                        (Async.idle Demo.bobWorld)))
  = [NewRTCPeerConnection 0;
     SetRemoteDescription 0 (Some Demo.remoteSdp);
     AddIceCandidate 0 (Some (Demo.cand "a"));
     AddIceCandidate 0 (Some (Demo.cand "c"));
     AddIceCandidate 0 (Some (Demo.cand "b"))].
Proof. reflexivity. Qed.


(** The handlers the bus client calls are those of the render in which
    [connect] ran.  The component is mounted, a token is typed, Connect is
    clicked and the client connects; a notification then sets [callId] to
    [c1]; the OFFER of the call [c1] that follows is still compared with
    the [callId] of the time of the click, the empty string, and is
    discarded. *)
Lemma subscribed_onSignal_keeps_the_callId_of_connect :
  WebRtcTest2.callId (state (WebRtcTest2.run Demo.platform Demo.lateOffer
                               (WebRtcTest2.mount "")))
    = "c1"%string
  /\ WebRtcTest2.subscribed (WebRtcTest2.run Demo.platform Demo.lateOffer
                               (WebRtcTest2.mount ""))
     = Some (WebRtcTest2.mkState "jwt" "bob" "" "" "1" "" false)
  /\ calls (WebRtcTest2.run Demo.platform Demo.lateOffer (WebRtcTest2.mount "")) = []
  /\ published (WebRtcTest2.run Demo.platform Demo.lateOffer (WebRtcTest2.mount ""))
     = [].
Proof. repeat split; reflexivity. Qed.

(** With the [callId] and the peer typed in before Connect is clicked, the
    same OFFER is answered. *)
Lemma subscribed_onSignal_with_callId_typed_first :
  published (WebRtcTest2.run Demo.platform Demo.earlyCallId (WebRtcTest2.mount ""))
  = [("/app/webrtc.answer"%string,
      JObj [("type"%string, JStr "ANSWER"); ("callId"%string, JStr "c1");
            ("fromUserId"%string, JStr "bob"); ("toUserId"%string, JStr "alice");
            ("sdp"%string, Demo.localSdp)])].
Proof. reflexivity. Qed.

(** X19.  In the earlier listing [onCallNotif] reads [m.type] without a
    guard: on a body [safeParse] answers [null] for, it throws, and the
    world is as it was. *)
Lemma earlier_onCallNotif_throws_on_null
  (P : Platform) (msg : IMessage) (w : WebRtcTest1.W) :
  unparsable P msg ->
  exists err, WebRtcTest1.onCallNotif P msg w = (Abrupt err, w).
Proof.
  intros H.
  assert (E : safeParse P (body msg) = JNull).
  { destruct H as [H | [H | (s & H & Hs)]]; rewrite H; cbn; auto.
    rewrite Hs. now destruct (String.eqb s ""). }
  unfold WebRtcTest1.onCallNotif. rewrite E. eexists. reflexivity.
Qed.

(** ** Further properties: the handlers *)

Lemma nonempty_true (s : string) : s <> ""%string -> nonempty s = true.
Proof.
  intros H. unfold nonempty. apply negb_true_iff. now apply String.eqb_neq.
Qed.

Lemma nullish_left (v w : jsval) : isNullish v -> nullish v w = w.
Proof. intros [-> | ->]; reflexivity. Qed.

Lemma candidate_on_torn_down
  (P : Platform) (scope : WebRtcTest2.State) (msg : IMessage) (w : WebRtcTest2.W) :
  tornDown w ->
  addressed P (WebRtcTest2.callId scope) "ICE_CANDIDATE" msg = true ->
  WebRtcTest2.onSignal P scope msg w =
  (Normal tt,
   set_pendingIceRef [candidateOf P msg]
     (set_pcRef (Some (mkPeerConn (nextHandle w) scope false))
        (set_calls (calls w ++ [NewRTCPeerConnection (nextHandle w)])
           (set_nextHandle (S (nextHandle w)) w)))).
Proof.
  intros (Hpc & Hdc & Hr & Hq) Hmsg.
  rewrite onSignal_candidate by exact Hmsg.
  unfold ensurePc. js_unfold.
  destruct w as [st lg al sr pr dr hr pi nh cl pb]. cbn in *. subst.
  reflexivity.
Qed.

(** X1.  A signal whose [type] is none of OFFER, ANSWER and ICE_CANDIDATE is
    ignored even when it is for the call of the handler: [onSignal]
    completes normally and the world is as it was (no connection is made).
    Both listings. *)
Theorem signal_of_unknown_type_is_ignored
  (P : Platform) (msg : IMessage)
  (scope2 : WebRtcTest2.State) (w2 : WebRtcTest2.W)
  (scope1 : WebRtcTest1.State) (w1 : WebRtcTest1.W) :
  strict_eq_str (prop "type" (safeParse P (body msg))) "OFFER" = false ->
  strict_eq_str (prop "type" (safeParse P (body msg))) "ANSWER" = false ->
  strict_eq_str (prop "type" (safeParse P (body msg))) "ICE_CANDIDATE" = false ->
  WebRtcTest2.onSignal P scope2 msg w2 = (Normal tt, w2)
  /\ WebRtcTest1.onSignal P scope1 msg w1 = (Normal tt, w1).
Proof.
  intros Ho Ha Hi.
  unfold WebRtcTest2.onSignal, WebRtcTest1.onSignal.
  rewrite Ho, Ha, Hi.
  split; match goal with |- context [if ?c then _ else _] => destruct c end;
    reflexivity.
Qed.

Lemma signal_of_unknown_type_is_ignored_witness :
  WebRtcTest2.onSignal Demo.platform Demo.bob (Demo.message Demo.incomingC1)
    Demo.bobWorld = (Normal tt, Demo.bobWorld)
  /\ WebRtcTest1.onSignal Demo.platform Demo.bob1 (Demo.message Demo.incomingC1)
       Demo.bob1World = (Normal tt, Demo.bob1World).
Proof.
  apply (signal_of_unknown_type_is_ignored Demo.platform
           (Demo.message Demo.incomingC1) Demo.bob Demo.bobWorld
           Demo.bob1 Demo.bob1World); reflexivity.
Defined.

(** X2.  An ANSWER for the call of the handler whose description the
    primitive accepts: the calls are the remote description and then the
    buffered candidates in order, the remote-ready flag is set, the buffer
    is emptied, the log ends with [ANSWER set], and nothing else changes;
    in particular nothing is published. *)
Theorem answer_is_applied_and_nothing_is_published
  (P : Platform) (scope : WebRtcTest2.State) (msg : IMessage) (w : WebRtcTest2.W)
  (v : json) :
  addressed P (WebRtcTest2.callId scope) "ANSWER" msg = true ->
  settle P (calls (withPc scope false w))
         (SetRemoteDescription (handleOf w) (sdpOf P msg)) = Resolves v ->
  WebRtcTest2.onSignal P scope msg w =
  (Normal tt,
   set_log (log w
            ++ drainErrors P (handleOf w)
                 (calls (withPc scope false w)
                  ++ [SetRemoteDescription (handleOf w) (sdpOf P msg)])
                 (pendingIceRef w)
            ++ ["ANSWER set"%string])
     (set_calls (calls (withPc scope false w)
                 ++ SetRemoteDescription (handleOf w) (sdpOf P msg)
                    :: map (AddIceCandidate (handleOf w)) (pendingIceRef w))
        (set_pendingIceRef []
           (set_hasRemoteRef true (withPc scope false w))))).
Proof.
  intros Hmsg Hset.
  rewrite onSignal_answer by exact Hmsg.
  unfold withPc, handleOf, ensurePc, world_of in *.
  destruct w as [st lg al sr pr dr hr pi nh cl pb]. cbn in *.
  js_unfold.
  destruct pr as [pc|]; cbn in *; rewrite Hset; rewrite drainIce_spec;
    js_unfold; cbn; lists_right; reflexivity.
Qed.

Lemma answer_is_applied_and_nothing_is_published_witness :
  published (world_of (WebRtcTest2.onSignal Demo.platform Demo.bob
                         (Demo.message Demo.answerC1) Demo.bobBuffered)) = []
  /\ calls (world_of (WebRtcTest2.onSignal Demo.platform Demo.bob
                        (Demo.message Demo.answerC1) Demo.bobBuffered))
     = [NewRTCPeerConnection 0;
        SetRemoteDescription 0 (Some Demo.remoteSdp);
        AddIceCandidate 0 (Some (Demo.cand "a"));
        AddIceCandidate 0 (Some (Demo.cand "bad"));
        AddIceCandidate 0 (Some (Demo.cand "c"))].
Proof.
  rewrite (answer_is_applied_and_nothing_is_published Demo.platform Demo.bob
             (Demo.message Demo.answerC1) Demo.bobBuffered JNull eq_refl eq_refl).
  split; reflexivity.
Defined.

(** X3.  Every call [onSignal] and [startOffer] make on the primitive is a
    call on the connection in [pcRef], or on the one they create when
    there is none; none is a close. *)
Theorem negotiation_stays_on_one_connection_and_never_closes
  (P : Platform) (scope : WebRtcTest2.State) (msg : IMessage) (w : WebRtcTest2.W) :
  (exists news,
      calls (world_of (WebRtcTest2.onSignal P scope msg w)) = calls w ++ news
      /\ forallb (onConnection (handleOf w)) news = true)
  /\ (exists news,
        calls (world_of (WebRtcTest2.startOffer P scope w)) = calls w ++ news
        /\ forallb (onConnection (handleOf w)) news = true).
Proof.
  split; [apply onSignal2_on_connection | apply startOffer2_on_connection].
Qed.

(** X10.  Whatever the notification (a CALL_ENDED as well), and whether
    it completes or throws, [onCallNotif] leaves the connection, the data
    channel, the remote-ready flag, the buffer, the calls made, the
    messages published and the bus client as they are.  It throws nothing
    but the [TypeError] of [String()], and completes normally when
    [String()] converts both the [callId] and the [type] of the
    notification. *)
Theorem notification_never_touches_the_session
  (P : Platform) (scope : WebRtcTest2.State) (msg : IMessage) (w : WebRtcTest2.W) :
  (completion_of (WebRtcTest2.onCallNotif P scope msg w) = Normal tt
   \/ completion_of (WebRtcTest2.onCallNotif P scope msg w) = Abrupt typeError)
  /\ (String_throws (prop "callId" (safeParse P (body msg))) = false ->
      String_throws (prop "type" (safeParse P (body msg))) = false ->
      completion_of (WebRtcTest2.onCallNotif P scope msg w) = Normal tt)
  /\ pcRef (world_of (WebRtcTest2.onCallNotif P scope msg w)) = pcRef w
  /\ dcRef (world_of (WebRtcTest2.onCallNotif P scope msg w)) = dcRef w
  /\ hasRemoteRef (world_of (WebRtcTest2.onCallNotif P scope msg w)) = hasRemoteRef w
  /\ pendingIceRef (world_of (WebRtcTest2.onCallNotif P scope msg w))
     = pendingIceRef w
  /\ calls (world_of (WebRtcTest2.onCallNotif P scope msg w)) = calls w
  /\ published (world_of (WebRtcTest2.onCallNotif P scope msg w)) = published w
  /\ stompRef (world_of (WebRtcTest2.onCallNotif P scope msg w)) = stompRef w.
Proof.
  split; [|split].
  - unfold WebRtcTest2.onCallNotif, WebRtcTest2.setCallId,
      WebRtcTest2.setPeerUsername.
    js_unfold.
    repeat match goal with
           | |- context [if ?c then _ else _] => destruct c
           end; cbn; auto.
  - intros Hc Hk.
    unfold WebRtcTest2.onCallNotif, WebRtcTest2.setCallId,
      WebRtcTest2.setPeerUsername.
    js_unfold.
    rewrite Hc, Hk, String_throws_nullish by (intros _; exact Hc).
    repeat match goal with
           | |- context [if ?c then _ else _] => destruct c
           end; reflexivity.
  - destruct (onCallNotif2_frame P scope msg w) as (c & st' & lines & E).
    rewrite E. repeat split.
Qed.

(** X11.  A notification names the peer with a non-empty string: its
    [otherParticipant]; or, without one, its [callerId] when that is not
    [me]; or its [recipientId] when [callerId] is [me].  When [String()]
    converts the [callId] of the notification, [peerUsername] becomes that
    string (also when the handler then throws on the [type]). *)
Theorem notification_names_the_peer
  (P : Platform) (scope : WebRtcTest2.State) (msg : IMessage) (w : WebRtcTest2.W)
  (other : string) :
  String_throws (prop "callId" (safeParse P (body msg))) = false ->
  other <> ""%string ->
  prop "otherParticipant" (safeParse P (body msg)) = Some (JStr other)
  \/ (isNullish (prop "otherParticipant" (safeParse P (body msg)))
      /\ prop "callerId" (safeParse P (body msg)) = Some (JStr other)
      /\ other <> WebRtcTest2.me scope)
  \/ (isNullish (prop "otherParticipant" (safeParse P (body msg)))
      /\ prop "callerId" (safeParse P (body msg)) = Some (JStr (WebRtcTest2.me scope))
      /\ prop "recipientId" (safeParse P (body msg)) = Some (JStr other)) ->
  WebRtcTest2.peerUsername
    (state (world_of (WebRtcTest2.onCallNotif P scope msg w))) = other.
Proof.
  intros Hid Hne H.
  assert (Ht : truthy (Some (safeParse P (body msg))) = true).
  { destruct H as [H | [(_ & H & _) | (_ & H & _)]];
      eapply prop_some_truthy; exact H. }
  assert (Ho : nullish
                 (nullish
                    (nullish (prop "otherParticipant" (safeParse P (body msg)))
                       (if strict_eq_str (prop "callerId" (safeParse P (body msg)))
                             (WebRtcTest2.me scope)
                        then prop "recipientId" (safeParse P (body msg))
                        else prop "callerId" (safeParse P (body msg))))
                    (prop "callerId" (safeParse P (body msg))))
                 (prop "recipientId" (safeParse P (body msg)))
               = Some (JStr other)).
  { destruct H as [H | [(Hn & Hc & Hme) | (Hn & Hc & Hr)]].
    - rewrite H. reflexivity.
    - rewrite (nullish_left _ _ Hn), Hc. cbn.
      apply String.eqb_neq in Hme. rewrite Hme. reflexivity.
    - rewrite (nullish_left _ _ Hn), Hc, Hr. cbn.
      rewrite String.eqb_refl. reflexivity. }
  unfold WebRtcTest2.onCallNotif. rewrite Ht. cbn [negb]. cbv zeta.
  rewrite Ho. cbn [truthy is_string andb String_of String_of_json].
  apply String.eqb_neq in Hne. rewrite Hne. cbn [negb].
  unfold WebRtcTest2.setCallId, WebRtcTest2.setPeerUsername, ToString.
  rewrite Hid. cbn [andb]. js_unfold. cbv iota.
  repeat match goal with
         | |- context [if ?c then _ else _] => destruct c
         end; reflexivity.
Qed.

Lemma notification_names_the_peer_witness :
  WebRtcTest2.peerUsername
    (state (world_of (WebRtcTest2.onCallNotif Demo.platform Demo.bobAlone
                        (Demo.message Demo.incomingC1) Demo.bobAloneWorld)))
  = "alice"%string.
Proof.
  apply (notification_names_the_peer Demo.platform Demo.bobAlone
           (Demo.message Demo.incomingC1) Demo.bobAloneWorld "alice").
  - reflexivity.
  - discriminate.
  - right. left. split; [left; reflexivity|]. split; [reflexivity | discriminate].
Defined.

(** X12.  When none of [otherParticipant], [callerId] and [recipientId] is
    a string (numeric ids, for one), [peerUsername] stays as it is. *)
Theorem notification_with_no_string_participant_keeps_the_peer
  (P : Platform) (scope : WebRtcTest2.State) (msg : IMessage) (w : WebRtcTest2.W) :
  is_string (prop "otherParticipant" (safeParse P (body msg))) = false ->
  is_string (prop "callerId" (safeParse P (body msg))) = false ->
  is_string (prop "recipientId" (safeParse P (body msg))) = false ->
  WebRtcTest2.peerUsername
    (state (world_of (WebRtcTest2.onCallNotif P scope msg w)))
  = WebRtcTest2.peerUsername (state w).
Proof.
  intros Ho Hc Hr.
  unfold WebRtcTest2.onCallNotif.
  destruct (truthy (Some (safeParse P (body msg)))); cbn [negb]; [|reflexivity].
  cbv zeta.
  set (otherP := prop "otherParticipant" (safeParse P (body msg))) in *.
  set (callerId := prop "callerId" (safeParse P (body msg))) in *.
  set (recipientId := prop "recipientId" (safeParse P (body msg))) in *.
  assert (Hs : is_string
                 (nullish
                    (nullish
                       (nullish otherP
                          (if strict_eq_str callerId (WebRtcTest2.me scope)
                           then recipientId else callerId))
                       callerId)
                    recipientId) = false).
  { destruct (strict_eq_str callerId (WebRtcTest2.me scope));
      destruct otherP as [[]|], callerId as [[]|], recipientId as [[]|];
      cbn in *; congruence. }
  rewrite Hs, andb_false_r.
  unfold WebRtcTest2.setCallId. js_unfold.
  repeat match goal with
         | |- context [if ?c then _ else _] => destruct c
         end; reflexivity.
Qed.

Lemma notification_with_no_string_participant_keeps_the_peer_witness :
  WebRtcTest2.peerUsername
    (state (world_of (WebRtcTest2.onCallNotif Demo.platform Demo.bob
                        (Demo.message Demo.offerC1) Demo.bobWorld)))
  = WebRtcTest2.peerUsername (state Demo.bobWorld).
Proof.
  apply (notification_with_no_string_participant_keeps_the_peer Demo.platform
           Demo.bob (Demo.message Demo.offerC1) Demo.bobWorld);
    reflexivity.
Defined.

(** X13.  A notification whose [callerId] is [me] and which carries neither
    [otherParticipant] nor [recipientId] sets [peerUsername] to [me]
    itself, when [String()] converts its [callId]. *)
Theorem caller_without_recipient_becomes_its_own_peer
  (P : Platform) (scope : WebRtcTest2.State) (msg : IMessage) (w : WebRtcTest2.W) :
  String_throws (prop "callId" (safeParse P (body msg))) = false ->
  WebRtcTest2.me scope <> ""%string ->
  isNullish (prop "otherParticipant" (safeParse P (body msg))) ->
  prop "callerId" (safeParse P (body msg)) = Some (JStr (WebRtcTest2.me scope)) ->
  isNullish (prop "recipientId" (safeParse P (body msg))) ->
  WebRtcTest2.peerUsername
    (state (world_of (WebRtcTest2.onCallNotif P scope msg w)))
  = WebRtcTest2.me scope.
Proof.
  intros Hid Hne Hn Hc Hr.
  assert (Ht : truthy (Some (safeParse P (body msg))) = true)
    by (eapply prop_some_truthy; exact Hc).
  unfold WebRtcTest2.onCallNotif. rewrite Ht. cbn [negb]. cbv zeta.
  rewrite (nullish_left _ _ Hn), Hc. cbn [strict_eq_str].
  rewrite String.eqb_refl, (nullish_left _ _ Hr).
  cbn [nullish truthy is_string andb String_of String_of_json].
  apply String.eqb_neq in Hne. rewrite Hne. cbn [negb].
  unfold WebRtcTest2.setCallId, WebRtcTest2.setPeerUsername, ToString.
  rewrite Hid. cbn [andb]. js_unfold. cbv iota.
  repeat match goal with
         | |- context [if ?c then _ else _] => destruct c
         end; reflexivity.
Qed.

Lemma caller_without_recipient_becomes_its_own_peer_witness :
  WebRtcTest2.peerUsername
    (state (world_of (WebRtcTest2.onCallNotif Demo.platform Samples.alice
                        (Demo.message Demo.incomingC1) Samples.aliceWorld)))
  = "alice"%string.
Proof.
  apply (caller_without_recipient_becomes_its_own_peer Demo.platform Samples.alice
           (Demo.message Demo.incomingC1) Samples.aliceWorld).
  - reflexivity.
  - discriminate.
  - left. reflexivity.
  - reflexivity.
  - left. reflexivity.
Defined.

(** X14.  [startOffer] with an empty [callId] or an empty [peerUsername]
    logs one line and does nothing else: no connection, no message. *)
Theorem startOffer_without_callId_or_peer_only_logs
  (P : Platform) (scope : WebRtcTest2.State) (w : WebRtcTest2.W) :
  WebRtcTest2.callId scope = ""%string \/ WebRtcTest2.peerUsername scope = ""%string ->
  exists line,
    WebRtcTest2.startOffer P scope w = (Normal tt, set_log (log w ++ [line]) w).
Proof.
  intros H. unfold WebRtcTest2.startOffer.
  destruct (nonempty (WebRtcTest2.callId scope)) eqn:Ec; cbn.
  - destruct H as [H | H]; [rewrite H in Ec; discriminate|].
    rewrite H. cbn. eexists. reflexivity.
  - eexists. reflexivity.
Qed.

Lemma startOffer_without_callId_or_peer_only_logs_witness :
  exists line,
    WebRtcTest2.startOffer Demo.platform Demo.bobAlone Demo.bobAloneWorld
    = (Normal tt, set_log (log Demo.bobAloneWorld ++ [line]) Demo.bobAloneWorld).
Proof.
  apply (startOffer_without_callId_or_peer_only_logs Demo.platform Demo.bobAlone
           Demo.bobAloneWorld).
  right. reflexivity.
Defined.

(** X15.  [startOffer] with no connection yet, when the primitive accepts
    each call: the calls are the new connection, its data channel,
    [createOffer] and the offer as local description; exactly one OFFER is
    published, carrying that offer; [OFFER sent] is logged. *)
Theorem startOffer_opens_a_channel_and_sends_one_offer
  (P : Platform) (scope : WebRtcTest2.State) (w : WebRtcTest2.W)
  (client : StompClient WebRtcTest2.State) (offer v : json) :
  WebRtcTest2.callId scope <> ""%string ->
  WebRtcTest2.peerUsername scope <> ""%string ->
  pcRef w = None ->
  stompRef w = Some client ->
  settle P (calls w ++ [NewRTCPeerConnection (nextHandle w);
                        CreateDataChannel (nextHandle w) (S (nextHandle w))])
         (CreateOffer (nextHandle w)) = Resolves offer ->
  settle P (calls w ++ [NewRTCPeerConnection (nextHandle w);
                        CreateDataChannel (nextHandle w) (S (nextHandle w));
                        CreateOffer (nextHandle w)])
         (SetLocalDescription (nextHandle w) (Some offer)) = Resolves v ->
  WebRtcTest2.startOffer P scope w =
  (Normal tt,
   set_log (log w ++ ["OFFER sent"%string])
     (set_published
        (published w ++ [("/app/webrtc.offer"%string,
                          WebRtcTest2.offerBody scope offer)])
        (set_calls
           (calls w ++ [NewRTCPeerConnection (nextHandle w);
                        CreateDataChannel (nextHandle w) (S (nextHandle w));
                        CreateOffer (nextHandle w);
                        SetLocalDescription (nextHandle w) (Some offer)])
           (set_dcRef (Some (S (nextHandle w)))
              (set_pcRef (Some (mkPeerConn (nextHandle w) scope true))
                 (set_nextHandle (S (S (nextHandle w))) w)))))).
Proof.
  intros Hc Hp Hpc Hclient H1 H2.
  unfold WebRtcTest2.startOffer.
  rewrite (nonempty_true _ Hc), (nonempty_true _ Hp). cbn [negb].
  unfold ensurePc. js_unfold.
  destruct w as [st lg al sr pr dr hr pi nh cl pb]. cbn in *. subst. cbn.
  lists_right. rewrite H1. cbn. lists_right. rewrite H2. cbn. lists_right.
  reflexivity.
Qed.

Lemma startOffer_opens_a_channel_and_sends_one_offer_witness :
  published (world_of (WebRtcTest2.startOffer Demo.platform Demo.bob Demo.bobWorld))
  = [("/app/webrtc.offer"%string, WebRtcTest2.offerBody Demo.bob Demo.localSdp)]
  /\ calls (world_of (WebRtcTest2.startOffer Demo.platform Demo.bob Demo.bobWorld))
     = [NewRTCPeerConnection 0; CreateDataChannel 0 1; CreateOffer 0;
        SetLocalDescription 0 (Some Demo.localSdp)].
Proof.
  rewrite (startOffer_opens_a_channel_and_sends_one_offer Demo.platform Demo.bob
             Demo.bobWorld (mkStompClient Demo.bob true) Demo.localSdp JNull);
    try reflexivity; try discriminate.
  split; reflexivity.
Defined.

(** X16.  A candidate handled before [startOffer] has already made the
    connection, as a callee's: [startOffer] then reuses it and opens no
    data channel. *)
Theorem startOffer_after_a_candidate_opens_no_channel
  (P : Platform) (scope scope' : WebRtcTest2.State) (msg : IMessage)
  (w : WebRtcTest2.W) (offer v : json) :
  WebRtcTest2.callId scope' <> ""%string ->
  WebRtcTest2.peerUsername scope' <> ""%string ->
  tornDown w ->
  addressed P (WebRtcTest2.callId scope) "ICE_CANDIDATE" msg = true ->
  settle P (calls w ++ [NewRTCPeerConnection (nextHandle w)])
         (CreateOffer (nextHandle w)) = Resolves offer ->
  settle P (calls w ++ [NewRTCPeerConnection (nextHandle w);
                        CreateOffer (nextHandle w)])
         (SetLocalDescription (nextHandle w) (Some offer)) = Resolves v ->
  calls (world_of (WebRtcTest2.startOffer P scope'
                     (world_of (WebRtcTest2.onSignal P scope msg w))))
  = calls w ++ [NewRTCPeerConnection (nextHandle w);
                CreateOffer (nextHandle w);
                SetLocalDescription (nextHandle w) (Some offer)]
  /\ dcRef (world_of (WebRtcTest2.startOffer P scope'
                        (world_of (WebRtcTest2.onSignal P scope msg w))))
     = None
  /\ pcRef (world_of (WebRtcTest2.startOffer P scope'
                        (world_of (WebRtcTest2.onSignal P scope msg w))))
     = Some (mkPeerConn (nextHandle w) scope false).
Proof.
  intros Hc Hp Ht Hmsg H1 H2.
  rewrite (candidate_on_torn_down P scope msg w Ht Hmsg).
  destruct Ht as (Hpc & Hdc & Hr & Hq).
  unfold WebRtcTest2.startOffer.
  rewrite (nonempty_true _ Hc), (nonempty_true _ Hp). cbn [negb].
  unfold ensurePc, world_of. js_unfold.
  destruct w as [st lg al sr pr dr hr pi nh cl pb]. cbn in *. subst. cbn.
  lists_right. rewrite H1. cbn. lists_right. rewrite H2. cbn. lists_right.
  destruct sr; cbn; repeat split; reflexivity.
Qed.

Lemma startOffer_after_a_candidate_opens_no_channel_witness :
  calls (world_of (WebRtcTest2.startOffer Demo.platform Demo.bob
                     (world_of (WebRtcTest2.onSignal Demo.platform Demo.bob
                                  (Demo.message (Demo.iceC1 "a")) Demo.bobWorld))))
  = [NewRTCPeerConnection 0; CreateOffer 0;
     SetLocalDescription 0 (Some Demo.localSdp)]
  /\ dcRef (world_of (WebRtcTest2.startOffer Demo.platform Demo.bob
                        (world_of (WebRtcTest2.onSignal Demo.platform Demo.bob
                                     (Demo.message (Demo.iceC1 "a")) Demo.bobWorld))))
     = None
  /\ pcRef (world_of (WebRtcTest2.startOffer Demo.platform Demo.bob
                        (world_of (WebRtcTest2.onSignal Demo.platform Demo.bob
                                     (Demo.message (Demo.iceC1 "a")) Demo.bobWorld))))
     = Some (mkPeerConn 0 Demo.bob false).
Proof.
  apply (startOffer_after_a_candidate_opens_no_channel Demo.platform Demo.bob
           Demo.bob (Demo.message (Demo.iceC1 "a")) Demo.bobWorld
           Demo.localSdp JNull);
    try reflexivity; try discriminate.
  repeat split.
Defined.

(** X17.  After a teardown, a candidate for the call of the handler makes a
    new connection and is buffered in it. *)
Theorem candidate_after_teardown_makes_a_new_connection
  (P : Platform) (scope : WebRtcTest2.State) (msg : IMessage) (w : WebRtcTest2.W) :
  tornDown w ->
  addressed P (WebRtcTest2.callId scope) "ICE_CANDIDATE" msg = true ->
  WebRtcTest2.onSignal P scope msg w =
  (Normal tt,
   set_pendingIceRef [candidateOf P msg]
     (set_pcRef (Some (mkPeerConn (nextHandle w) scope false))
        (set_calls (calls w ++ [NewRTCPeerConnection (nextHandle w)])
           (set_nextHandle (S (nextHandle w)) w)))).
Proof. apply candidate_on_torn_down. Qed.

Lemma candidate_after_teardown_makes_a_new_connection_witness :
  calls (world_of (WebRtcTest2.onSignal Demo.platform Demo.bob
                     (Demo.message (Demo.iceC1 "a"))
                     (afterEnd Demo.platform Demo.bob Demo.bobNegotiated)))
  = calls (afterEnd Demo.platform Demo.bob Demo.bobNegotiated)
    ++ [NewRTCPeerConnection 1].
Proof.
  rewrite (candidate_after_teardown_makes_a_new_connection Demo.platform Demo.bob
             (Demo.message (Demo.iceC1 "a"))
             (afterEnd Demo.platform Demo.bob Demo.bobNegotiated)).
  - reflexivity.
  - repeat split.
  - reflexivity.
Defined.

(** X18.  In the earlier listing [startOffer] has no guard: with a bus client
    and a primitive that accepts the calls it publishes an OFFER whatever
    [callId], [me] and [peer] hold. *)
Theorem earlier_startOffer_sends_whatever_the_fields
  (P : Platform) (scope : WebRtcTest1.State) (w : WebRtcTest1.W)
  (client : StompClient WebRtcTest1.State) (offer v : json) :
  pcRef w = None ->
  stompRef w = Some client ->
  settle P (calls w ++ [NewRTCPeerConnection (nextHandle w);
                        CreateDataChannel (nextHandle w) (S (nextHandle w))])
         (CreateOffer (nextHandle w)) = Resolves offer ->
  settle P (calls w ++ [NewRTCPeerConnection (nextHandle w);
                        CreateDataChannel (nextHandle w) (S (nextHandle w));
                        CreateOffer (nextHandle w)])
         (SetLocalDescription (nextHandle w) (Some offer)) = Resolves v ->
  published (world_of (WebRtcTest1.startOffer P scope w))
  = published w ++ [("/app/webrtc.offer"%string, WebRtcTest1.offerBody scope offer)].
Proof.
  intros Hpc Hclient H1 H2.
  unfold WebRtcTest1.startOffer, ensurePc, world_of. js_unfold.
  destruct w as [st lg al sr pr dr hr pi nh cl pb]. cbn in *. subst. cbn.
  lists_right. rewrite H1. cbn. lists_right. rewrite H2. cbn. reflexivity.
Qed.

Lemma earlier_startOffer_sends_whatever_the_fields_witness :
  published (world_of (WebRtcTest1.startOffer Demo.platform Samples.nobody1
                         Samples.nobody1World))
  = [("/app/webrtc.offer"%string,
      JObj [("type"%string, JStr "OFFER"); ("callId"%string, JStr "");
            ("fromUserId"%string, JStr ""); ("toUserId"%string, JStr "");
            ("sdp"%string, Demo.localSdp)])].
Proof.
  apply (earlier_startOffer_sends_whatever_the_fields Demo.platform
           Samples.nobody1 Samples.nobody1World
           (mkStompClient Samples.nobody1 true) Demo.localSdp JNull);
    reflexivity.
Defined.

Lemma earlier_onCallNotif_throws_on_null_witness :
  exists err,
    WebRtcTest1.onCallNotif Demo.platform Demo.garbled Demo.bob1World
    = (Abrupt err, Demo.bob1World).
Proof.
  apply (earlier_onCallNotif_throws_on_null Demo.platform Demo.garbled
           Demo.bob1World).
  right; right. exists "{type:"%string. split; reflexivity.
Defined.

(** ** Further properties: the mounted component *)

(** X4.  In every world the mounted component can reach, whatever the
    events and however they fall between the [await]s of the handlers in
    progress, the refs agree: without a connection there is no data
    channel and no buffered candidate, and once the remote-ready flag is
    set the buffer is empty. *)
Theorem refs_are_coherent_in_every_reachable_world
  (P : Platform) (acts : list Async.Action) (storedToken : string) :
  coherent (Async.world (Async.exec P acts (Async.idle (WebRtcTest2.mounted P storedToken)))).
Proof.
  apply exec_coherent. cbn. apply afterRender_coherent.
  unfold coherent. cbn. auto.
Qed.

(** The flag may be set without a connection.  End is clicked while the
    remote description of an OFFER is being applied, and the description
    is accepted afterwards: the handler sets the remote-ready flag on
    resuming, and [pcRef] is [null]. *)
Lemma remote_ready_without_a_connection :
  pcRef (Async.world (Async.exec Demo.platform Demo.endMeanwhile (Async.idle Demo.bobWorld)))
  = None
  /\ hasRemoteRef
       (Async.world (Async.exec Demo.platform Demo.endMeanwhile (Async.idle Demo.bobWorld)))
     = true
  /\ calls (Async.world (Async.exec Demo.platform Demo.endMeanwhile (Async.idle Demo.bobWorld)))
     = [NewRTCPeerConnection 0;
        SetRemoteDescription 0 (Some Demo.remoteSdp);
        ClosePc 0].
Proof. repeat split; reflexivity. Qed.

Lemma startOffer2_no_client (P : Platform) (scope : WebRtcTest2.State)
  (w : WebRtcTest2.W) :
  stompRef w = None ->
  published (world_of (WebRtcTest2.startOffer P scope w)) = published w
  /\ stompRef (world_of (WebRtcTest2.startOffer P scope w)) = None.
Proof.
  intros H. unfold WebRtcTest2.startOffer, world_of.
  repeat match goal with
         | |- context [if ?c then _ else _] => destruct c
         end;
    unfold ensurePc; js_unfold;
    destruct w as [st lg al sr pr dr hr pi nh cl pb]; cbn in *; subst;
    try destruct pr as [pc|]; js_run; split; reflexivity.
Qed.

Lemma dispatch_no_client (P : Platform) (ev : WebRtcTest2.Event) (w : WebRtcTest2.W) :
  stompRef w = None ->
  ev <> WebRtcTest2.ClickConnect ->
  published (world_of (WebRtcTest2.dispatch P ev w)) = published w
  /\ stompRef (world_of (WebRtcTest2.dispatch P ev w)) = None.
Proof.
  intros H Hev. destruct ev; try contradiction; unfold WebRtcTest2.dispatch.
  - destruct (WebRtcTest2.connected (state w)); cbn; auto.
  - destruct (WebRtcTest2.callButtonsEnabled (state w)); cbn; auto.
    unfold WebRtcTest2.accept, world_of. js_unfold. cbn. rewrite H. auto.
  - destruct (WebRtcTest2.callButtonsEnabled (state w)); cbn; auto.
    unfold WebRtcTest2.reject, world_of. js_unfold. cbn. rewrite H. auto.
  - destruct (WebRtcTest2.callButtonsEnabled (state w)); [|cbn; auto].
    now apply startOffer2_no_client.
  - destruct (WebRtcTest2.callButtonsEnabled (state w)); [|cbn; auto].
    rewrite end_spec, teardownPc_spec. unfold send, writes, world_of. cbn.
    rewrite H. cbn. auto.
  - cbn. auto.
  - cbn. auto.
  - cbn. auto.
  - cbn. auto.
  - rewrite H. cbn. auto.
  - rewrite H. cbn. auto.
  - unfold WebRtcTest2.subscribed. rewrite H. cbn. auto.
  - unfold WebRtcTest2.subscribed. rewrite H. cbn. auto.
  - destruct (pcRef w) as [pc|]; cbn; auto.
    unfold WebRtcTest2.onicecandidate, world_of. js_unfold.
    destruct candidate; cbn; auto.
    destruct (negb (nonempty (WebRtcTest2.peerUsername (pc_scope pc)))); cbn; auto.
    rewrite H. auto.
  - destruct (pcRef w) as [pc|]; cbn; auto.
    unfold WebRtcTest2.ondatachannel, world_of. js_unfold.
    destruct (pc_isCaller pc); cbn; auto.
  - destruct (pcRef w); cbn; auto.
Qed.

Lemma run_no_client
  (P : Platform) (evs : list WebRtcTest2.Event) (w : WebRtcTest2.W) :
  stompRef w = None ->
  Forall (fun ev => ev <> WebRtcTest2.ClickConnect) evs ->
  published (WebRtcTest2.run P evs w) = published w
  /\ stompRef (WebRtcTest2.run P evs w) = None.
Proof.
  revert w. induction evs as [|ev rest IH]; intros w H Hall; cbn; [auto|].
  inversion Hall as [|? ? Hev Hrest]; subst.
  destruct (dispatch_no_client P ev w H Hev) as [Hp Hs].
  destruct (afterRender_refs P (world_of (WebRtcTest2.dispatch P ev w)))
    as (st' & E).
  rewrite E.
  destruct (IH (set_state (fun _ => st') (world_of (WebRtcTest2.dispatch P ev w))))
    as [Hp' Hs']; [exact Hs | exact Hrest |].
  rewrite Hp', Hs'. split; [exact Hp | reflexivity].
Qed.

(** X5.  While there is no bus client nothing is published and no client
    appears, whatever happens short of a click on Connect. *)
Theorem nothing_is_published_without_a_client
  (P : Platform) (evs : list WebRtcTest2.Event) (w : WebRtcTest2.W) :
  stompRef w = None ->
  Forall (fun ev => ev <> WebRtcTest2.ClickConnect) evs ->
  published (WebRtcTest2.run P evs w) = published w
  /\ stompRef (WebRtcTest2.run P evs w) = None.
Proof. apply run_no_client. Qed.

Lemma nothing_is_published_without_a_client_witness :
  published (WebRtcTest2.run Demo.platform
               [WebRtcTest2.TypeCallId "c1"; WebRtcTest2.ClickAccept;
                WebRtcTest2.ClickStartOffer; WebRtcTest2.ClickEnd]
               (WebRtcTest2.mount "jwt")) = []
  /\ stompRef (WebRtcTest2.run Demo.platform
                 [WebRtcTest2.TypeCallId "c1"; WebRtcTest2.ClickAccept;
                  WebRtcTest2.ClickStartOffer; WebRtcTest2.ClickEnd]
                 (WebRtcTest2.mount "jwt")) = None.
Proof.
  apply (nothing_is_published_without_a_client Demo.platform
           [WebRtcTest2.TypeCallId "c1"; WebRtcTest2.ClickAccept;
            WebRtcTest2.ClickStartOffer; WebRtcTest2.ClickEnd]
           (WebRtcTest2.mount "jwt")).
  - reflexivity.
  - repeat constructor; discriminate.
Defined.

(** X6.  A click on Disconnect leaves the connection, the data channel, the
    remote-ready flag, the buffer and the calls made as they are; from then
    on, until Connect is clicked, nothing more is published. *)
Theorem disconnect_keeps_the_session_and_silences_the_component
  (P : Platform) (evs : list WebRtcTest2.Event) (w : WebRtcTest2.W) :
  WebRtcTest2.connected (state w) = true ->
  Forall (fun ev => ev <> WebRtcTest2.ClickConnect) evs ->
  pcRef (world_of (WebRtcTest2.dispatch P WebRtcTest2.ClickDisconnect w)) = pcRef w
  /\ dcRef (world_of (WebRtcTest2.dispatch P WebRtcTest2.ClickDisconnect w)) = dcRef w
  /\ hasRemoteRef (world_of (WebRtcTest2.dispatch P WebRtcTest2.ClickDisconnect w))
     = hasRemoteRef w
  /\ pendingIceRef (world_of (WebRtcTest2.dispatch P WebRtcTest2.ClickDisconnect w))
     = pendingIceRef w
  /\ calls (world_of (WebRtcTest2.dispatch P WebRtcTest2.ClickDisconnect w)) = calls w
  /\ published (WebRtcTest2.run P (WebRtcTest2.ClickDisconnect :: evs) w)
     = published w.
Proof.
  intros Hc Hall.
  unfold WebRtcTest2.dispatch at 1 2 3 4 5. rewrite Hc.
  repeat (split; [reflexivity|]).
  cbn [WebRtcTest2.run]. unfold WebRtcTest2.dispatch at 1. rewrite Hc.
  destruct (afterRender_refs P (world_of (WebRtcTest2.disconnect w)))
    as (st' & E).
  rewrite E.
  destruct (run_no_client P evs
              (set_state (fun _ => st') (world_of (WebRtcTest2.disconnect w))))
    as [Hp _]; [reflexivity | exact Hall |].
  rewrite Hp. reflexivity.
Qed.

Lemma disconnect_keeps_the_session_and_silences_the_component_witness :
  pcRef (world_of (WebRtcTest2.dispatch Demo.platform WebRtcTest2.ClickDisconnect
                     Demo.bobNegotiated)) = pcRef Demo.bobNegotiated
  /\ published (WebRtcTest2.run Demo.platform
                  [WebRtcTest2.ClickDisconnect;
                   WebRtcTest2.IceCandidateFound (Some (Demo.cand "a"));
                   WebRtcTest2.ClickEnd]
                  Demo.bobNegotiated)
     = published Demo.bobNegotiated.
Proof.
  destruct (disconnect_keeps_the_session_and_silences_the_component Demo.platform
              [WebRtcTest2.IceCandidateFound (Some (Demo.cand "a"));
               WebRtcTest2.ClickEnd]
              Demo.bobNegotiated)
    as (Hpc & _ & _ & _ & _ & Hpub).
  - reflexivity.
  - repeat constructor; discriminate.
  - split; [exact Hpc | exact Hpub].
Defined.

Lemma onSignal2_stompRef (P : Platform) (scope : WebRtcTest2.State)
  (msg : IMessage) (w : WebRtcTest2.W) :
  stompRef (world_of (WebRtcTest2.onSignal P scope msg w)) = stompRef w.
Proof.
  unfold WebRtcTest2.onSignal, world_of.
  repeat match goal with
         | |- context [if ?c then _ else _] => destruct c
         end;
    try reflexivity;
    unfold ensurePc; js_unfold;
    destruct w as [st lg al sr pr dr hr pi nh cl pb]; cbn;
    destruct pr as [pc|]; js_run; try reflexivity;
    try (destruct hr; js_run; reflexivity);
    destruct sr; reflexivity.
Qed.

Lemma startOffer2_stompRef (P : Platform) (scope : WebRtcTest2.State)
  (w : WebRtcTest2.W) :
  stompRef (world_of (WebRtcTest2.startOffer P scope w)) = stompRef w.
Proof.
  unfold WebRtcTest2.startOffer, world_of.
  repeat match goal with
         | |- context [if ?c then _ else _] => destruct c
         end;
    try reflexivity;
    unfold ensurePc; js_unfold;
    destruct w as [st lg al sr pr dr hr pi nh cl pb]; cbn;
    try destruct pr as [pc|]; js_run; try reflexivity;
    destruct sr; reflexivity.
Qed.

Lemma dispatch_clientScope (P : Platform) (ev : WebRtcTest2.Event) (w : WebRtcTest2.W) :
  isConnectClick ev = false ->
  clientScope (world_of (WebRtcTest2.dispatch P ev w)) = clientScope w
  /\ (WebRtcTest2.subscribed w <> None ->
      WebRtcTest2.subscribed (world_of (WebRtcTest2.dispatch P ev w))
      = WebRtcTest2.subscribed w).
Proof.
  intros Hev.
  assert (K : forall w' : WebRtcTest2.W,
             stompRef w' = stompRef w ->
             clientScope w' = clientScope w
             /\ (WebRtcTest2.subscribed w <> None ->
                 WebRtcTest2.subscribed w' = WebRtcTest2.subscribed w)).
  { intros w' E. unfold clientScope, WebRtcTest2.subscribed. rewrite E. auto. }
  destruct ev; try discriminate; unfold WebRtcTest2.dispatch.
  - destruct (WebRtcTest2.callButtonsEnabled (state w)); apply K; [|reflexivity].
    unfold WebRtcTest2.accept, world_of. js_unfold. cbn.
    destruct (stompRef w) eqn:E; cbn; rewrite ?E; reflexivity.
  - destruct (WebRtcTest2.callButtonsEnabled (state w)); apply K; [|reflexivity].
    unfold WebRtcTest2.reject, world_of. js_unfold. cbn.
    destruct (stompRef w) eqn:E; cbn; rewrite ?E; reflexivity.
  - destruct (WebRtcTest2.callButtonsEnabled (state w)); apply K; [|reflexivity].
    apply startOffer2_stompRef.
  - destruct (WebRtcTest2.callButtonsEnabled (state w)); apply K; [|reflexivity].
    rewrite end_spec, teardownPc_spec. unfold send, writes, world_of. cbn.
    destruct (stompRef w) eqn:E; cbn; rewrite ?E; reflexivity.
  - apply K. reflexivity.
  - apply K. reflexivity.
  - apply K. reflexivity.
  - apply K. reflexivity.
  - unfold clientScope, WebRtcTest2.subscribed.
    destruct (stompRef w) as [client|] eqn:E; [|cbn; rewrite E; auto].
    unfold WebRtcTest2.onConnect, WebRtcTest2.setConnected, world_of. js_unfold.
    cbn. rewrite E. cbn. split; [reflexivity|].
    destruct (client_subscribed client); [reflexivity | contradiction].
  - destruct (stompRef w) eqn:E; apply K; cbn; exact E.
  - destruct (WebRtcTest2.subscribed w); apply K; [|reflexivity].
    match goal with
    | |- context [WebRtcTest2.onCallNotif P ?sc msg w] =>
        destruct (onCallNotif2_frame P sc msg w) as (c & st' & lines & E)
    end.
    rewrite E. reflexivity.
  - destruct (WebRtcTest2.subscribed w); apply K; [|reflexivity].
    apply onSignal2_stompRef.
  - destruct (pcRef w) as [pc|]; apply K; [|reflexivity].
    unfold WebRtcTest2.onicecandidate, world_of. js_unfold.
    destruct candidate; cbn; [|reflexivity].
    destruct (negb (nonempty (WebRtcTest2.peerUsername (pc_scope pc)))); cbn;
      [reflexivity|].
    destruct (stompRef w) eqn:E; cbn; rewrite ?E; reflexivity.
  - destruct (pcRef w) as [pc|]; apply K; [|reflexivity].
    unfold WebRtcTest2.ondatachannel, world_of. js_unfold.
    destruct (pc_isCaller pc); reflexivity.
  - destruct (pcRef w); apply K; reflexivity.
Qed.

Lemma run_subscribed (P : Platform) (evs : list WebRtcTest2.Event) :
  forall (w : WebRtcTest2.W) (scope : WebRtcTest2.State),
    WebRtcTest2.subscribed w = Some scope ->
    forallb (fun ev => negb (isConnectClick ev)) evs = true ->
    WebRtcTest2.subscribed (WebRtcTest2.run P evs w) = Some scope.
Proof.
  induction evs as [|ev rest IH]; intros w scope Hs Hall; cbn; [exact Hs|].
  cbn in Hall. apply andb_true_iff in Hall as [Hev Hrest].
  apply negb_true_iff in Hev.
  destruct (dispatch_clientScope P ev w Hev) as [_ Hk].
  destruct (afterRender_refs P (world_of (WebRtcTest2.dispatch P ev w)))
    as (st' & E).
  apply IH; [|exact Hrest].
  rewrite E. unfold WebRtcTest2.subscribed in *. cbn.
  rewrite <- Hs. apply Hk. rewrite Hs. discriminate.
Qed.

(** X7.  The signals the bus delivers are handled by the [onSignal] of the
    render in which Connect was clicked, whatever was typed or received
    since: a signal whose [callId] differs from the [callId] of that render
    is discarded, also when it equals the current [callId]. *)
Theorem signals_are_handled_in_the_scope_of_connect
  (P : Platform) (evs : list WebRtcTest2.Event) (w : WebRtcTest2.W)
  (scope : WebRtcTest2.State) (msg : IMessage) :
  WebRtcTest2.subscribed w = Some scope ->
  forallb (fun ev => negb (isConnectClick ev)) evs = true ->
  WebRtcTest2.dispatch P (WebRtcTest2.Signal msg) (WebRtcTest2.run P evs w)
  = WebRtcTest2.onSignal P scope msg (WebRtcTest2.run P evs w)
  /\ (strict_eq_str (prop "callId" (safeParse P (body msg)))
                    (WebRtcTest2.callId scope) = false ->
      WebRtcTest2.dispatch P (WebRtcTest2.Signal msg) (WebRtcTest2.run P evs w)
      = (Normal tt, WebRtcTest2.run P evs w)).
Proof.
  intros Hs Hall.
  pose proof (run_subscribed P evs w scope Hs Hall) as Hrun.
  unfold WebRtcTest2.dispatch. rewrite Hrun. split; [reflexivity|].
  intros Hc. unfold WebRtcTest2.onSignal. rewrite Hc. cbn [negb].
  now rewrite orb_true_r.
Qed.

Lemma signals_are_handled_in_the_scope_of_connect_witness :
  WebRtcTest2.callId
    (state (WebRtcTest2.run Demo.platform [WebRtcTest2.TypeCallId "c2"] Demo.bobWorld))
  = "c2"%string
  /\ WebRtcTest2.dispatch Demo.platform (WebRtcTest2.Signal (Demo.message Demo.offerC2))
       (WebRtcTest2.run Demo.platform [WebRtcTest2.TypeCallId "c2"] Demo.bobWorld)
     = (Normal tt,
        WebRtcTest2.run Demo.platform [WebRtcTest2.TypeCallId "c2"] Demo.bobWorld).
Proof.
  destruct (signals_are_handled_in_the_scope_of_connect Demo.platform
              [WebRtcTest2.TypeCallId "c2"] Demo.bobWorld Demo.bob
              (Demo.message Demo.offerC2) eq_refl eq_refl) as [_ H].
  split; [reflexivity | apply H; reflexivity].
Defined.

(** X8.  [connect] with an empty token alerts, and with a token
    [decodeToken] finds expired it logs; in both cases it makes no client
    and sets no state. *)
Theorem connect_refuses_without_a_usable_token
  (P : Platform) (scope : WebRtcTest2.State) (w : WebRtcTest2.W) :
  WebRtcTest2.token scope = ""%string
  \/ (exists meta, decodeToken P (WebRtcTest2.token scope) = Some meta
                   /\ expired meta = true) ->
  completion_of (WebRtcTest2.connect P scope w) = Normal tt
  /\ stompRef (world_of (WebRtcTest2.connect P scope w)) = stompRef w
  /\ state (world_of (WebRtcTest2.connect P scope w)) = state w
  /\ ((WebRtcTest2.token scope = ""%string
       /\ log (world_of (WebRtcTest2.connect P scope w)) = log w
       /\ alerts (world_of (WebRtcTest2.connect P scope w))
          = alerts w ++ ["Paste a JWT access token first (from /auth/login)."%string])
      \/ (WebRtcTest2.token scope <> ""%string
          /\ alerts (world_of (WebRtcTest2.connect P scope w)) = alerts w
          /\ log (world_of (WebRtcTest2.connect P scope w))
             = log w ++ ["Token appears expired; refresh it before connecting."%string])).
Proof.
  intros H. unfold WebRtcTest2.connect, nonempty.
  destruct (String.eqb_spec (WebRtcTest2.token scope) "") as [E | E]; cbn.
  - repeat split. left. auto.
  - destruct H as [H | (meta & Hm & He)]; [contradiction|].
    rewrite Hm, He. cbn. repeat split. right. auto.
Qed.

Lemma connect_refuses_without_a_usable_token_witness :
  stompRef (world_of (WebRtcTest2.connect Demo.platform Samples.tokenless
                        (WebRtcTest2.mount ""))) = None
  /\ alerts (world_of (WebRtcTest2.connect Demo.platform Samples.tokenless
                         (WebRtcTest2.mount "")))
     = ["Paste a JWT access token first (from /auth/login)."%string].
Proof.
  destruct (connect_refuses_without_a_usable_token Demo.platform Samples.tokenless
              (WebRtcTest2.mount "")) as (_ & Hs & _ & H).
  - left. reflexivity.
  - split; [exact Hs|]. reflexivity.
Defined.

(** X9.  [connect] with a usable token makes a client that keeps the scope
    of the click.  Until the client reports the connection, signals and
    notifications are not handled; once it does, the handlers subscribed
    are those of that scope. *)
Theorem no_message_is_handled_before_the_client_connects
  (P : Platform) (scope : WebRtcTest2.State) (w : WebRtcTest2.W) (msg : IMessage) :
  WebRtcTest2.token scope <> ""%string ->
  (forall meta, decodeToken P (WebRtcTest2.token scope) = Some meta ->
                expired meta = false) ->
  clientScope (world_of (WebRtcTest2.connect P scope w)) = Some scope
  /\ WebRtcTest2.dispatch P (WebRtcTest2.Signal msg)
       (world_of (WebRtcTest2.connect P scope w))
     = (Normal tt, world_of (WebRtcTest2.connect P scope w))
  /\ WebRtcTest2.dispatch P (WebRtcTest2.Notification msg)
       (world_of (WebRtcTest2.connect P scope w))
     = (Normal tt, world_of (WebRtcTest2.connect P scope w))
  /\ WebRtcTest2.subscribed
       (world_of (WebRtcTest2.dispatch P WebRtcTest2.StompConnected
                    (world_of (WebRtcTest2.connect P scope w))))
     = Some scope.
Proof.
  intros Ht He.
  assert (E : exists lines,
             world_of (WebRtcTest2.connect P scope w)
             = set_stompRef (Some (mkStompClient scope false))
                 (set_log (log w ++ lines) w)).
  { unfold WebRtcTest2.connect, nonempty.
    apply String.eqb_neq in Ht. rewrite Ht. cbn [negb].
    destruct (decodeToken P (WebRtcTest2.token scope)) as [meta|] eqn:Em.
    - rewrite (He meta eq_refl). cbv zeta. js_unfold. unfold world_of.
      destruct (sub meta) as [s|]; [destruct (negb (String.eqb s ""))|]; cbn;
        try (exists []; rewrite app_nil_r; destruct w; reflexivity);
        eexists; destruct w; reflexivity.
    - js_unfold. unfold world_of. cbn. eexists. destruct w; reflexivity. }
  destruct E as (lines & ->).
  unfold clientScope, WebRtcTest2.dispatch, WebRtcTest2.subscribed. cbn.
  repeat split.
Qed.

Lemma no_message_is_handled_before_the_client_connects_witness :
  WebRtcTest2.dispatch Demo.platform (WebRtcTest2.Signal (Demo.message Demo.offerC1))
    (world_of (WebRtcTest2.connect Demo.platform Demo.bob (WebRtcTest2.mount "jwt")))
  = (Normal tt,
     world_of (WebRtcTest2.connect Demo.platform Demo.bob (WebRtcTest2.mount "jwt"))).
Proof.
  destruct (no_message_is_handled_before_the_client_connects Demo.platform
              Demo.bob (WebRtcTest2.mount "jwt") (Demo.message Demo.offerC1))
    as (_ & H & _).
  - discriminate.
  - intros meta E. injection E as <-. reflexivity.
  - exact H.
Defined.

Lemma onSignal2_pcRef (P : Platform) (scope : WebRtcTest2.State)
  (msg : IMessage) (w : WebRtcTest2.W) (pc : PeerConn WebRtcTest2.State) :
  pcRef w = Some pc ->
  pcRef (world_of (WebRtcTest2.onSignal P scope msg w)) = Some pc.
Proof.
  intros H. unfold WebRtcTest2.onSignal, world_of.
  repeat match goal with
         | |- context [if ?c then _ else _] => destruct c
         end;
    try exact H;
    unfold ensurePc; js_unfold;
    destruct w as [st lg al sr pr dr hr pi nh cl pb]; cbn in *; subst;
    js_run; try reflexivity;
    try (destruct hr; js_run; reflexivity);
    destruct sr; reflexivity.
Qed.

Lemma startOffer2_pcRef (P : Platform) (scope : WebRtcTest2.State)
  (w : WebRtcTest2.W) (pc : PeerConn WebRtcTest2.State) :
  pcRef w = Some pc ->
  pcRef (world_of (WebRtcTest2.startOffer P scope w)) = Some pc.
Proof.
  intros H. unfold WebRtcTest2.startOffer, world_of.
  repeat match goal with
         | |- context [if ?c then _ else _] => destruct c
         end;
    try exact H;
    unfold ensurePc; js_unfold;
    destruct w as [st lg al sr pr dr hr pi nh cl pb]; cbn in *; subst;
    js_run; try reflexivity;
    destruct sr; reflexivity.
Qed.

Lemma startOffer2_published (P : Platform) (scope : WebRtcTest2.State)
  (w : WebRtcTest2.W) :
  published (world_of (WebRtcTest2.startOffer P scope w)) = published w
  \/ exists offer,
       published (world_of (WebRtcTest2.startOffer P scope w)) =
       published w ++ [("/app/webrtc.offer"%string, WebRtcTest2.offerBody scope offer)].
Proof.
  unfold WebRtcTest2.startOffer, world_of.
  repeat match goal with
         | |- context [if ?c then _ else _] => destruct c
         end;
    try (left; reflexivity);
    unfold ensurePc; js_unfold;
    destruct w as [st lg al sr pr dr hr pi nh cl pb]; cbn;
    try destruct pr as [pc|]; js_run; try (left; reflexivity);
    destruct sr; cbn; try (left; reflexivity);
    right; eexists; reflexivity.
Qed.

Lemma dispatch_without_peer (P : Platform) (ev : WebRtcTest2.Event)
  (w : WebRtcTest2.W) (pc : PeerConn WebRtcTest2.State) :
  pcRef w = Some pc ->
  WebRtcTest2.peerUsername (pc_scope pc) = ""%string ->
  isEndClick ev = false ->
  pcRef (world_of (WebRtcTest2.dispatch P ev w)) = Some pc
  /\ filter isIceMessage (published (world_of (WebRtcTest2.dispatch P ev w)))
     = filter isIceMessage (published w).
Proof.
  intros Hpc Hpeer Hev.
  assert (K : forall w' : WebRtcTest2.W,
             pcRef w' = pcRef w -> published w' = published w ->
             pcRef w' = Some pc
             /\ filter isIceMessage (published w') = filter isIceMessage (published w)).
  { intros w' E1 E2. rewrite E1, E2. auto. }
  assert (K1 : forall (w' : WebRtcTest2.W) (dest : string) (body : json),
             pcRef w' = pcRef w ->
             published w' = published w
             \/ published w' = published w ++ [(dest, body)] ->
             String.eqb dest "/app/webrtc.ice" = false ->
             pcRef w' = Some pc
             /\ filter isIceMessage (published w') = filter isIceMessage (published w)).
  { intros w' dest b E1 [E2 | E2] Hd; rewrite E1, E2; [auto|].
    rewrite filter_app. cbn. unfold isIceMessage at 2. cbn [fst]. rewrite Hd.
    rewrite app_nil_r. auto. }
  destruct ev; try discriminate; unfold WebRtcTest2.dispatch.
  - destruct (WebRtcTest2.connected (state w)); apply K; try reflexivity;
      unfold WebRtcTest2.connect, world_of; js_unfold;
      repeat match goal with
             | |- context [if ?c then _ else _] => destruct c
             end; reflexivity.
  - destruct (WebRtcTest2.connected (state w)); apply K; reflexivity.
  - destruct (WebRtcTest2.callButtonsEnabled (state w)); [|apply K; reflexivity].
    apply (K1 _ "/app/call.accept"%string (WebRtcTest2.callIdBody (state w)));
      [| |reflexivity];
      unfold WebRtcTest2.accept, world_of; js_unfold; cbn;
      destruct (stompRef w); cbn; auto.
  - destruct (WebRtcTest2.callButtonsEnabled (state w)); [|apply K; reflexivity].
    eapply (K1 _ "/app/call.reject"%string); [| |reflexivity];
      unfold WebRtcTest2.reject, world_of; js_unfold; cbn;
      destruct (stompRef w); cbn; auto.
  - destruct (WebRtcTest2.callButtonsEnabled (state w)); [|apply K; reflexivity].
    destruct (startOffer2_published P (state w) w) as [E | (offer & E)].
    + apply K; [|exact E]. rewrite Hpc. apply startOffer2_pcRef, Hpc.
    + eapply (K1 _ "/app/webrtc.offer"%string); [|right; exact E|reflexivity].
      rewrite Hpc. apply startOffer2_pcRef, Hpc.
  - apply K; reflexivity.
  - apply K; reflexivity.
  - apply K; reflexivity.
  - apply K; reflexivity.
  - destruct (stompRef w) eqn:E; apply K; try reflexivity;
      unfold WebRtcTest2.onConnect, WebRtcTest2.setConnected, world_of; js_unfold;
      cbn; rewrite ?E; reflexivity.
  - destruct (stompRef w) eqn:E; apply K; reflexivity.
  - destruct (WebRtcTest2.subscribed w) as [sc|]; [|apply K; reflexivity].
    destruct (onCallNotif2_frame P sc msg w) as (c & st' & lines & E).
    rewrite E. apply K; reflexivity.
  - destruct (WebRtcTest2.subscribed w) as [sc|]; [|apply K; reflexivity].
    destruct (onSignal2_published P sc msg w) as [E | (answer & E)].
    + apply K; [|exact E]. rewrite Hpc. apply onSignal2_pcRef, Hpc.
    + eapply (K1 _ "/app/webrtc.answer"%string); [|right; exact E|reflexivity].
      rewrite Hpc. apply onSignal2_pcRef, Hpc.
  - rewrite Hpc. unfold WebRtcTest2.onicecandidate. rewrite Hpeer.
    destruct candidate; apply K; reflexivity.
  - rewrite Hpc. apply K;
      unfold WebRtcTest2.ondatachannel, world_of; js_unfold;
      destruct (pc_isCaller pc); reflexivity.
  - rewrite Hpc. apply K; reflexivity.
Qed.

(** X30.  The connection keeps the scope it was made in: when that scope
    has no peer username, no local candidate is ever sent for it, whatever
    is typed, clicked or received afterwards, until End is clicked; the
    connection itself stays. *)
Theorem connection_made_without_a_peer_never_sends_a_candidate
  (P : Platform) (evs : list WebRtcTest2.Event) (w : WebRtcTest2.W)
  (pc : PeerConn WebRtcTest2.State) :
  pcRef w = Some pc ->
  WebRtcTest2.peerUsername (pc_scope pc) = ""%string ->
  forallb (fun ev => negb (isEndClick ev)) evs = true ->
  pcRef (WebRtcTest2.run P evs w) = Some pc
  /\ filter isIceMessage (published (WebRtcTest2.run P evs w))
     = filter isIceMessage (published w).
Proof.
  intros Hpc Hpeer. revert w Hpc.
  induction evs as [|ev rest IH]; intros w Hpc Hall; cbn; [auto|].
  cbn in Hall. apply andb_prop in Hall. destruct Hall as [Hev Hrest].
  apply negb_true_iff in Hev.
  destruct (dispatch_without_peer P ev w pc Hpc Hpeer Hev) as [H1 H2].
  destruct (afterRender_refs P (world_of (WebRtcTest2.dispatch P ev w)))
    as (st' & E).
  rewrite E.
  destruct (IH (set_state (fun _ => st') (world_of (WebRtcTest2.dispatch P ev w))))
    as [H3 H4]; [exact H1 | exact Hrest |].
  rewrite H3, H4. split; [reflexivity | exact H2].
Qed.

Lemma connection_made_without_a_peer_never_sends_a_candidate_witness :
  WebRtcTest2.peerUsername
    (state (WebRtcTest2.run Demo.platform
              [WebRtcTest2.Notification (Demo.message Demo.incomingC1);
               WebRtcTest2.IceCandidateFound (Some (Demo.cand "a"))]
              Samples.bobUnanswered)) = "alice"%string
  /\ filter isIceMessage
       (published (WebRtcTest2.run Demo.platform
                     [WebRtcTest2.Notification (Demo.message Demo.incomingC1);
                      WebRtcTest2.IceCandidateFound (Some (Demo.cand "a"))]
                     Samples.bobUnanswered))
     = filter isIceMessage (published Samples.bobUnanswered).
Proof.
  split; [reflexivity|].
  apply (connection_made_without_a_peer_never_sends_a_candidate Demo.platform
           [WebRtcTest2.Notification (Demo.message Demo.incomingC1);
            WebRtcTest2.IceCandidateFound (Some (Demo.cand "a"))]
           Samples.bobUnanswered (mkPeerConn 0 Demo.bobAlone false));
    reflexivity.
Defined.

(** ** Further properties: the code around the component *)

Lemma stripTrailingSlashes_spec (s : string) :
  (exists n, s = (Env.stripTrailingSlashes s ++ Env.slashes n)%string)
  /\ Env.lastChar (Env.stripTrailingSlashes s) <> Some "/"%char.
Proof.
  induction s as [|c rest [[n Hn] Hlast]]; cbn.
  - split; [exists 0; reflexivity | discriminate].
  - destruct (Env.stripTrailingSlashes rest) as [|k kept] eqn:E.
    + destruct (Ascii.eqb c "/") eqn:Ec.
      * apply Ascii.eqb_eq in Ec. subst c.
        split; [exists (S n); cbn in *; now rewrite <- Hn | discriminate].
      * split; [exists n; cbn in *; now rewrite <- Hn|].
        cbn. intros H. injection H as ->. now rewrite Ascii.eqb_refl in Ec.
    + split; [exists n; cbn in *; now rewrite <- Hn | exact Hlast].
Qed.

Lemma stripTrailingSlashes_fixed (s : string) :
  Env.lastChar s <> Some "/"%char -> Env.stripTrailingSlashes s = s.
Proof.
  induction s as [|c rest IH]; cbn; [reflexivity|].
  intros H. destruct rest as [|k rest'].
  - cbn. destruct (Ascii.eqb c "/") eqn:Ec; [|reflexivity].
    apply Ascii.eqb_eq in Ec. now subst c.
  - rewrite IH by exact H. reflexivity.
Qed.

(** X20.  [API_BASE] never ends with a slash; it is the configured base less
    a run of slashes at its end; stripping it again changes nothing; and
    with no base configured it is the empty string. *)
Theorem API_BASE_has_no_trailing_slash (VITE_API_BASE : option string) :
  Env.lastChar (Env.API_BASE VITE_API_BASE) <> Some "/"%char
  /\ (exists n,
        match VITE_API_BASE with Some s => s | None => "/" end
        = (Env.API_BASE VITE_API_BASE ++ Env.slashes n)%string)
  /\ Env.stripTrailingSlashes (Env.API_BASE VITE_API_BASE)
     = Env.API_BASE VITE_API_BASE
  /\ Env.API_BASE None = "".
Proof.
  unfold Env.API_BASE.
  destruct (stripTrailingSlashes_spec
              match VITE_API_BASE with Some s => s | None => "/" end)
    as [Hn Hlast].
  repeat split; auto using stripTrailingSlashes_fixed.
Qed.

Lemma includes_app (c : ascii) (a b : string) :
  Stomp.includes c (a ++ b) = Stomp.includes c a || Stomp.includes c b.
Proof.
  induction a as [|k rest IH]; cbn; [reflexivity|].
  now rewrite IH, orb_assoc.
Qed.

Lemma withToken_includes (enc : string -> string) (token u : string) :
  Stomp.includes "?" (Stomp.withToken enc token u) = true.
Proof.
  unfold Stomp.withToken. rewrite includes_app.
  destruct (Stomp.includes "?" u) eqn:E; cbn; [reflexivity|].
  reflexivity.
Qed.

(** X21.  Whichever transport [makeClient] picks, its URL is the base
    ([VITE_WS_URL] when set and not empty, the path otherwise) followed by
    [token=] and the encoded token, after [&] when the base already has a
    query and after [?] otherwise; and the Authorization header is left
    out exactly when the token is empty. *)
Theorem makeClient_puts_the_token_in_the_url
  (enc : string -> string) (WS_URL : option string) (WS_PATH token : string) :
  (exists base,
      Stomp.urlOf (Stomp.transport (Stomp.makeClient enc WS_URL WS_PATH token))
      = (base ++ (if Stomp.includes "?" base then "&" else "?")
              ++ "token=" ++ enc token)%string
      /\ (base = WS_PATH \/ (WS_URL = Some base /\ base <> ""%string)))
  /\ Stomp.includes "?"
       (Stomp.urlOf (Stomp.transport (Stomp.makeClient enc WS_URL WS_PATH token)))
     = true
  /\ (Stomp.connectHeaders (Stomp.makeClient enc WS_URL WS_PATH token) = []
      <-> token = ""%string).
Proof.
  unfold Stomp.makeClient. cbn.
  split; [|split].
  - destruct WS_URL as [url|].
    + unfold nonempty. destruct (String.eqb url "") eqn:E; cbn.
      * exists WS_PATH. destruct (String.eqb WS_PATH "/ws"); cbn; auto.
      * exists url. split; [reflexivity|]. right. split; [reflexivity|].
        intros ->. discriminate.
    + exists WS_PATH. destruct (String.eqb WS_PATH "/ws"); cbn; auto.
  - destruct WS_URL as [url|];
      [destruct (nonempty url)|]; try destruct (String.eqb WS_PATH "/ws");
      cbn; apply withToken_includes.
  - unfold nonempty. destruct (String.eqb token "") eqn:E; cbn.
    + apply String.eqb_eq in E. split; auto.
    + apply String.eqb_neq in E. split; [discriminate | contradiction].
Qed.

Lemma length_app (a b : string) :
  String.length (a ++ b) = String.length a + String.length b.
Proof. induction a; cbn; auto. Qed.

Lemma length_repeatChar (c : ascii) (n : nat) :
  String.length (Jwt.repeatChar c n) = n.
Proof. induction n; cbn; auto. Qed.

Lemma length_replaceAll (a b : ascii) (s : string) :
  String.length (Jwt.replaceAll a b s) = String.length s.
Proof. induction s; cbn; auto. Qed.

Lemma includes_replaceAll (a b : ascii) (s : string) :
  a <> b -> Stomp.includes a (Jwt.replaceAll a b s) = false.
Proof.
  intros Hab. induction s as [|c rest IH]; cbn; [reflexivity|].
  rewrite IH, orb_false_r.
  destruct (Ascii.eqb c a) eqn:E.
  - apply Ascii.eqb_neq. congruence.
  - exact E.
Qed.

Lemma includes_replaceAll_other (a b c : ascii) (s : string) :
  c <> b -> Stomp.includes c s = false ->
  Stomp.includes c (Jwt.replaceAll a b s) = false.
Proof.
  intros Hcb. induction s as [|k rest IH]; cbn; [reflexivity|].
  intros H. apply orb_false_iff in H as [Hk Hrest].
  rewrite (IH Hrest), orb_false_r.
  destruct (Ascii.eqb k a); [|exact Hk].
  apply Ascii.eqb_neq. congruence.
Qed.

Lemma includes_repeatChar (c k : ascii) (n : nat) :
  c <> k -> Stomp.includes c (Jwt.repeatChar k n) = false.
Proof.
  intros H. induction n; cbn; [reflexivity|].
  rewrite IHn, orb_false_r. apply Ascii.eqb_neq. congruence.
Qed.

(** X22.  What [decodeToken] hands to [atob] has a length that is a multiple
    of four, is the payload with [-] and [_] replaced, followed by at most
    three [=], and holds no [-] and no [_]. *)
Theorem padded_is_base64_of_whole_groups (payload : string) :
  Nat.modulo (String.length (Jwt.padded payload)) 4 = 0
  /\ (exists k,
         k <= 3
         /\ Jwt.padded payload
            = (Jwt.normalized payload ++ Jwt.repeatChar "=" k)%string)
  /\ String.length (Jwt.normalized payload) = String.length payload
  /\ Stomp.includes "-" (Jwt.padded payload) = false
  /\ Stomp.includes "_" (Jwt.padded payload) = false.
Proof.
  unfold Jwt.padded, Jwt.padEnd.
  set (n := String.length (Jwt.normalized payload)).
  pose proof (Nat.div_mod_eq (n + 3) 4) as Hdiv.
  pose proof (Nat.mod_upper_bound (n + 3) 4 ltac:(lia)) as Hmod.
  split; [|split; [|split; [|split]]].
  - rewrite length_app, length_repeatChar. fold n.
    replace (n + ((n + 3) / 4 * 4 - n)) with ((n + 3) / 4 * 4) by lia.
    apply Nat.Div0.mod_mul.
  - exists ((n + 3) / 4 * 4 - n). split; [lia | reflexivity].
  - unfold n, Jwt.normalized. now rewrite !length_replaceAll.
  - rewrite includes_app, includes_repeatChar by discriminate.
    unfold Jwt.normalized.
    rewrite includes_replaceAll_other;
      [reflexivity | discriminate | apply includes_replaceAll; discriminate].
  - rewrite includes_app, includes_repeatChar by discriminate.
    unfold Jwt.normalized.
    rewrite includes_replaceAll by discriminate. reflexivity.
Qed.

Lemma split_no_sep (sep : ascii) (s : string) :
  Stomp.includes sep s = false -> Jwt.split sep s = [s].
Proof.
  induction s as [|c rest IH]; cbn; [reflexivity|].
  intros H. apply orb_false_iff in H as [Hc Hrest].
  rewrite Hc, (IH Hrest). reflexivity.
Qed.

Lemma split_app (sep : ascii) (a b : string) :
  Stomp.includes sep a = false ->
  Jwt.split sep (a ++ String sep b) = a :: Jwt.split sep b.
Proof.
  induction a as [|c rest IH]; cbn.
  - intros _. now rewrite Ascii.eqb_refl.
  - intros H. apply orb_false_iff in H as [Hc Hrest].
    rewrite Hc, (IH Hrest). reflexivity.
Qed.

Section Decode.

Variable atob : string -> option string.
Variable JSON_parse : string -> option json.
Variable now : Z.

(** X23.  [decodeToken] reads the second dot-separated segment only: two
    tokens with the same payload segment decode alike, whatever their
    header, signature and further segments. *)
Theorem decodeToken_reads_the_payload_segment_only
  (header payload rest header' rest' : string) :
  Stomp.includes "." header = false ->
  Stomp.includes "." header' = false ->
  Stomp.includes "." payload = false ->
  Jwt.decodeToken atob JSON_parse now
    (header ++ String "." (payload ++ String "." rest))
  = Jwt.decodeToken atob JSON_parse now
      (header' ++ String "." (payload ++ String "." rest'))
  /\ Jwt.decodeToken atob JSON_parse now
       (header ++ String "." (payload ++ String "." rest))
     = Jwt.decodeToken atob JSON_parse now (String "." payload).
Proof.
  intros Hh Hh' Hp.
  assert (E : forall h r, Stomp.includes "." h = false ->
              Jwt.decodeToken atob JSON_parse now
                (h ++ String "." (payload ++ String "." r))
              = if negb (nonempty payload) then None
                else match atob (Jwt.padded payload) with
                     | None => None
                     | Some text =>
                         match JSON_parse text with
                         | None => None
                         | Some data => Jwt.metaOf now data
                         end
                     end).
  { intros h r H. unfold Jwt.decodeToken.
    rewrite (split_app "." h _ H), (split_app "." payload _ Hp). cbn [nth_error].
    replace (nonempty (h ++ String "." (payload ++ String "." r))) with true;
      [reflexivity|].
    unfold nonempty. destruct h; reflexivity. }
  rewrite !E by assumption. split; [reflexivity|].
  unfold Jwt.decodeToken. cbn [Jwt.split]. rewrite Ascii.eqb_refl.
  rewrite (split_no_sep "." payload Hp). reflexivity.
Qed.

(** X24.  A token without a dot (the empty token too) decodes to [null]. *)
Theorem decodeToken_without_a_dot_is_null (token : string) :
  Stomp.includes "." token = false ->
  Jwt.decodeToken atob JSON_parse now token = None.
Proof.
  intros H. unfold Jwt.decodeToken.
  rewrite (split_no_sep "." token H). cbn.
  now destruct (negb (nonempty token)).
Qed.

(** X25.  A decoded token is expired exactly when its [exp] is a number other
    than 0 whose date is valid and not after now; a missing [exp], an
    [exp] that is not a number and [exp] 0 never expire. *)
Theorem expired_means_a_past_nonzero_exp (data : json) (meta : Jwt.TokenMeta) :
  Jwt.metaOf now data = Some meta ->
  (Jwt.expired meta = true <->
   exists z,
     prop "exp" data = Some (JNum z)
     /\ z <> 0%Z
     /\ (Z.abs (z * 1000) <= 8640000000000000)%Z
     /\ (z * 1000 <= now)%Z).
Proof.
  unfold Jwt.metaOf. intros H.
  assert (E : Jwt.expired meta =
              match match match prop "exp" data with
                          | Some (JNum z) => Some z
                          | _ => None
                          end with
                    | Some z => if Z.eqb z 0 then None
                                else Some (Jwt.newDate (z * 1000))
                    | None => None
                    end with
              | Some (Some t) => (t <=? now)%Z
              | _ => false
              end).
  { destruct data; try discriminate; injection H as <-; reflexivity. }
  rewrite E. clear E H.
  destruct (prop "exp" data) as [[| |z| | |]|];
    try (split; [discriminate | intros (z' & Hz & _); discriminate]).
  unfold Jwt.newDate.
  destruct (Z.eqb_spec z 0) as [->|Hz0].
  - split; [discriminate|]. intros (z' & Hz & Hne & _). congruence.
  - destruct (Z.leb_spec (Z.abs (z * 1000)) 8640000000000000) as [Hr|Hr].
    + destruct (Z.leb_spec (z * 1000) now) as [Hn|Hn].
      * split; [|reflexivity]. intros _. exists z. auto.
      * split; [discriminate|]. intros (z' & Hz & _ & _ & Hle).
        injection Hz as <-. lia.
    + split; [discriminate|]. intros (z' & Hz & _ & Hle & _).
      injection Hz as <-. lia.
Qed.

End Decode.

Lemma decodeToken_reads_the_payload_segment_only_witness :
  Jwt.decodeToken Samples.atob Samples.parse Samples.now
    (Samples.header ++ String "." (Samples.payload ++ String "." Samples.signature))
  = Jwt.decodeToken Samples.atob Samples.parse Samples.now
      ("x" ++ String "." (Samples.payload ++ String "." ""))
  /\ Jwt.decodeToken Samples.atob Samples.parse Samples.now
       (Samples.header ++ String "." (Samples.payload ++ String "." Samples.signature))
     = Jwt.decodeToken Samples.atob Samples.parse Samples.now
         (String "." Samples.payload).
Proof.
  apply (decodeToken_reads_the_payload_segment_only Samples.atob Samples.parse
           Samples.now Samples.header Samples.payload Samples.signature "x" "");
    reflexivity.
Defined.

Lemma decodeToken_without_a_dot_is_null_witness :
  Jwt.decodeToken Samples.atob Samples.parse Samples.now Samples.payload = None.
Proof.
  apply (decodeToken_without_a_dot_is_null Samples.atob Samples.parse Samples.now
           Samples.payload).
  reflexivity.
Defined.

Lemma expired_means_a_past_nonzero_exp_witness :
  Jwt.expired (Jwt.mkTokenMeta (Jwt.SubjectValue (Some (JStr "a>b?c"))) None
                 (Some 1%Z) (Some (Some 1000%Z)) true) = true
  <-> exists z,
        prop "exp" Samples.claims = Some (JNum z)
        /\ z <> 0%Z
        /\ (Z.abs (z * 1000) <= 8640000000000000)%Z
        /\ (z * 1000 <= Samples.now)%Z.
Proof.
  apply (expired_means_a_past_nonzero_exp Samples.now Samples.claims).
  reflexivity.
Defined.

Section CreateCall.

Variable Number : string -> option json.
Variable fetch : Rest.Request -> Rest.Fetched.
Variable API_BASE : string.

(** X26.  [createCall] with no token, no translator id or a translator id
    that is not a number alerts and does nothing else. *)
Theorem createCall_refuses_before_any_request
  (scope : WebRtcTest2.State) (w : WebRtcTest2.W) :
  WebRtcTest2.token scope = ""%string
  \/ WebRtcTest2.peerId scope = ""%string
  \/ Number (WebRtcTest2.peerId scope) = None ->
  exists text,
    Rest.createCall Number fetch API_BASE scope w
    = (Normal tt, set_alerts (alerts w ++ [text]) w).
Proof.
  intros H. unfold Rest.createCall, Rest.alert, nonempty. js_unfold.
  destruct (String.eqb (WebRtcTest2.token scope) "") eqn:Et; cbn;
    [eexists; reflexivity|].
  destruct (String.eqb (WebRtcTest2.peerId scope) "") eqn:Ep; cbn;
    [eexists; reflexivity|].
  destruct H as [H | [H | H]].
  - rewrite H in Et. discriminate.
  - rewrite H in Ep. discriminate.
  - rewrite H. eexists. reflexivity.
Qed.

(** X27.  [createCall] on a successful response, with [id] standing for
    [data.id ?? data.callId ?? callId].  When [String()] throws on [id],
    [createCall] throws before anything is set.  Otherwise [callId]
    becomes [String(id)] when [id] is truthy and stays when it is not; a
    peer username already known is kept; an unknown one becomes
    [String(recipient)] when the response names a truthy recipient
    [String()] converts, and stays otherwise, [createCall] throwing when
    [String()] throws on the recipient. *)
Theorem createCall_takes_the_id_and_keeps_a_known_peer
  (scope : WebRtcTest2.State) (w : WebRtcTest2.W)
  (translatorId data : json) (res : Rest.Response) :
  WebRtcTest2.token scope <> ""%string ->
  WebRtcTest2.peerId scope <> ""%string ->
  Number (WebRtcTest2.peerId scope) = Some translatorId ->
  fetch (Rest.mkRequest (API_BASE ++ "/call/initiate")
           ("Bearer " ++ WebRtcTest2.token scope)
           (JObj (("translatorId"%string, translatorId)
                  :: match Number (WebRtcTest2.themeId scope) with
                     | Some themeValue => [("themeId"%string, themeValue)]
                     | None => []
                     end)))
  = Rest.FetchResolves res ->
  Rest.ok res = true ->
  Rest.json_ res = Resolves data ->
  (String_throws (Rest.idOf scope data) = true ->
   Rest.createCall Number fetch API_BASE scope w = (Abrupt typeError, w))
  /\ (String_throws (Rest.idOf scope data) = false ->
      WebRtcTest2.callId
        (state (world_of (Rest.createCall Number fetch API_BASE scope w)))
      = (if truthy (Rest.idOf scope data)
         then String_of (Rest.idOf scope data)
         else WebRtcTest2.callId (state w))
      /\ (WebRtcTest2.peerUsername scope <> ""%string ->
          completion_of (Rest.createCall Number fetch API_BASE scope w) = Normal tt
          /\ WebRtcTest2.peerUsername
               (state (world_of (Rest.createCall Number fetch API_BASE scope w)))
             = WebRtcTest2.peerUsername (state w))
      /\ (WebRtcTest2.peerUsername scope = ""%string ->
          truthy (Rest.recipientOf data) = true ->
          String_throws (Rest.recipientOf data) = false ->
          completion_of (Rest.createCall Number fetch API_BASE scope w) = Normal tt
          /\ WebRtcTest2.peerUsername
               (state (world_of (Rest.createCall Number fetch API_BASE scope w)))
             = String_of (Rest.recipientOf data))
      /\ (WebRtcTest2.peerUsername scope = ""%string ->
          String_throws (Rest.recipientOf data) = true ->
          completion_of (Rest.createCall Number fetch API_BASE scope w)
          = Abrupt typeError
          /\ WebRtcTest2.peerUsername
               (state (world_of (Rest.createCall Number fetch API_BASE scope w)))
             = WebRtcTest2.peerUsername (state w))
      /\ (WebRtcTest2.peerUsername scope = ""%string ->
          truthy (Rest.recipientOf data) = false ->
          completion_of (Rest.createCall Number fetch API_BASE scope w) = Normal tt
          /\ WebRtcTest2.peerUsername
               (state (world_of (Rest.createCall Number fetch API_BASE scope w)))
             = WebRtcTest2.peerUsername (state w))).
Proof.
  intros Ht Hp Hn Hf Hok Hj.
  unfold Rest.createCall.
  rewrite (nonempty_true _ Ht), (nonempty_true _ Hp). cbn [negb].
  rewrite Hn, Hf, Hok. cbn [negb]. rewrite Hj. cbv zeta.
  unfold WebRtcTest2.setCallId, WebRtcTest2.setPeerUsername, world_of,
    completion_of, ToString.
  split.
  - intros Hid. rewrite (String_throws_truthy _ Hid), Hid. reflexivity.
  - intros Hid. rewrite Hid. js_unfold. unfold nonempty.
    destruct (truthy (Rest.idOf scope data));
      destruct (String.eqb_spec (WebRtcTest2.peerUsername scope) "") as [E|E];
      destruct (truthy (Rest.recipientOf data)) eqn:Hr;
      destruct (String_throws (Rest.recipientOf data)) eqn:Hs;
      try (apply String_throws_truthy in Hs; congruence);
      cbn; repeat split; intros; try contradiction; try discriminate;
      reflexivity.
Qed.

(** X29.  [createCall] never touches the connection, the data channel, the
    remote-ready flag, the buffer, the calls made, the messages published
    or the bus client. *)
Theorem createCall_never_touches_the_session
  (scope : WebRtcTest2.State) (w : WebRtcTest2.W) :
  pcRef (world_of (Rest.createCall Number fetch API_BASE scope w)) = pcRef w
  /\ dcRef (world_of (Rest.createCall Number fetch API_BASE scope w)) = dcRef w
  /\ hasRemoteRef (world_of (Rest.createCall Number fetch API_BASE scope w))
     = hasRemoteRef w
  /\ pendingIceRef (world_of (Rest.createCall Number fetch API_BASE scope w))
     = pendingIceRef w
  /\ calls (world_of (Rest.createCall Number fetch API_BASE scope w)) = calls w
  /\ published (world_of (Rest.createCall Number fetch API_BASE scope w))
     = published w
  /\ stompRef (world_of (Rest.createCall Number fetch API_BASE scope w))
     = stompRef w.
Proof.
  unfold Rest.createCall, Rest.alert, WebRtcTest2.setCallId,
    WebRtcTest2.setPeerUsername, world_of.
  js_unfold.
  repeat match goal with
         | |- context [if ?c then _ else _] => destruct c
         | |- context [match Number ?s with _ => _ end] => destruct (Number s)
         | |- context [match fetch ?r with _ => _ end] => destruct (fetch r)
         | |- context [match Rest.json_ ?r with _ => _ end] => destruct (Rest.json_ r)
         end; cbn; repeat split.
Qed.

End CreateCall.

(** X28.  [createCall] whose request is answered with a status that is not
    ok logs one line with the status and changes nothing else; when the
    request itself fails the error is not caught and nothing changes. *)
Theorem createCall_reports_a_failed_request
  (Number : string -> option json) (fetch : Rest.Request -> Rest.Fetched)
  (API_BASE : string) (scope : WebRtcTest2.State) (w : WebRtcTest2.W)
  (translatorId : json) :
  WebRtcTest2.token scope <> ""%string ->
  WebRtcTest2.peerId scope <> ""%string ->
  Number (WebRtcTest2.peerId scope) = Some translatorId ->
  (forall res,
      fetch (Rest.mkRequest (API_BASE ++ "/call/initiate")
               ("Bearer " ++ WebRtcTest2.token scope)
               (JObj (("translatorId"%string, translatorId)
                      :: match Number (WebRtcTest2.themeId scope) with
                         | Some themeValue => [("themeId"%string, themeValue)]
                         | None => []
                         end)))
      = Rest.FetchResolves res ->
      Rest.ok res = false ->
      Rest.createCall Number fetch API_BASE scope w
      = (Normal tt,
         set_log (log w ++ [("createCall failed: "
                             ++ String_of (Some (JNum (Rest.status res))))%string])
           w))
  /\ (forall err,
        fetch (Rest.mkRequest (API_BASE ++ "/call/initiate")
                 ("Bearer " ++ WebRtcTest2.token scope)
                 (JObj (("translatorId"%string, translatorId)
                        :: match Number (WebRtcTest2.themeId scope) with
                           | Some themeValue => [("themeId"%string, themeValue)]
                           | None => []
                           end)))
        = Rest.FetchRejects err ->
        Rest.createCall Number fetch API_BASE scope w = (Abrupt err, w)).
Proof.
  intros Ht Hp Hn. unfold Rest.createCall.
  rewrite (nonempty_true _ Ht), (nonempty_true _ Hp). cbn [negb]. rewrite Hn.
  split.
  - intros res Hf Hok. rewrite Hf, Hok. reflexivity.
  - intros err Hf. rewrite Hf. reflexivity.
Qed.

Lemma createCall_reports_a_failed_request_witness :
  Rest.createCall Samples.Number Samples.fetchForbidden "" Samples.carl
    Samples.carlWorld
  = (Normal tt,
     set_log (log Samples.carlWorld ++ ["createCall failed: 403"%string])
       Samples.carlWorld).
Proof.
  destruct (createCall_reports_a_failed_request Samples.Number
              Samples.fetchForbidden "" Samples.carl Samples.carlWorld (JNum 42))
    as [H _]; [discriminate | discriminate | reflexivity |].
  apply (H (Rest.mkResponse false 403 (Resolves JNull))); reflexivity.
Defined.

Lemma createCall_refuses_before_any_request_witness :
  exists text,
    Rest.createCall Samples.Number Samples.fetchCreated "" Demo.bob Demo.bobWorld
    = (Normal tt, set_alerts (alerts Demo.bobWorld ++ [text]) Demo.bobWorld).
Proof.
  apply (createCall_refuses_before_any_request Samples.Number Samples.fetchCreated
           "" Demo.bob Demo.bobWorld).
  right. left. reflexivity.
Defined.

Lemma createCall_takes_the_id_and_keeps_a_known_peer_witness :
  WebRtcTest2.callId
    (state (world_of (Rest.createCall Samples.Number Samples.fetchCreated ""
                        Samples.carl Samples.carlWorld)))
  = "7"%string
  /\ WebRtcTest2.peerUsername
       (state (world_of (Rest.createCall Samples.Number Samples.fetchCreated ""
                           Samples.carl Samples.carlWorld)))
     = "alice"%string.
Proof.
  destruct (createCall_takes_the_id_and_keeps_a_known_peer Samples.Number
              Samples.fetchCreated "" Samples.carl Samples.carlWorld
              (JNum 42) Samples.created
              (Rest.mkResponse true 200 (Resolves Samples.created)))
    as (_ & H);
    [discriminate | discriminate | reflexivity | reflexivity | reflexivity
     | reflexivity |].
  destruct (H eq_refl) as (Hid & _ & Hpeer & _).
  split; [exact Hid | apply Hpeer; reflexivity].
Defined.
